(** * virtio-iommu: the translation engine of hw/virtio/virtio-iommu.c

    A shallow embedding of the device's data model (domains, endpoints,
    interval-keyed mapping trees), of its command handlers (ATTACH, DETACH,
    MAP, UNMAP), of the translate callback, of the notifier fan-out and of
    the post-load fix-up, followed by the properties of the specification.

    Unsigned C integers are values of [N]; where the C arithmetic wraps
    around, the reduction modulo 2^64 is written out. *)

From Stdlib Require Import NArith ZArith List Bool Lia Permutation.
Import ListNotations.
Open Scope N_scope.

(** ** Machine arithmetic *)

Definition two64 : N := 18446744073709551616.
Definition UINT64_MAX : N := 18446744073709551615.

(** [a + b] on uint64_t. *)
Definition add64 (a b : N) : N := (a + b) mod two64.

(** [a - b] on uint64_t. *)
Definition sub64 (a b : N) : N := (a + (two64 - b mod two64)) mod two64.

(** ** Data model (the structs at the head of the file) *)

Record viommu_interval := mk_interval { low : N; high : N }.

Record viommu_mapping := mk_mapping { phys_addr : N; flags : N }.

Definition kv : Type := viommu_interval * viommu_mapping.

(** [interval_cmp]: the key comparator of every mapping tree. *)
Definition interval_cmp (inta intb : viommu_interval) : Z :=
  if high inta <? low intb then (-1)%Z
  else if high intb <? low inta then 1%Z
  else 0%Z.

(** ** GLib's GTree, keyed by [interval_cmp]

    A GTree is a binary search tree driven only by its comparator.  GLib
    keeps it balanced with rotations, which change the shape and never the
    in-order sequence; the rotations are the [rebalance] argument of the
    two operations that change the structure. *)

Inductive GTree : Type :=
| Leaf
| Node (l : GTree) (k : viommu_interval) (v : viommu_mapping) (r : GTree).

(** [g_tree_foreach] visits the pairs in order; the visited sequence. *)
Fixpoint inorder (t : GTree) : list kv :=
  match t with
  | Leaf => []
  | Node l k v r => inorder l ++ (k, v) :: inorder r
  end.

(** [g_tree_lookup_extended]: descend with [cmp(key, node->key)]. *)
Fixpoint g_tree_lookup_extended (t : GTree) (key : viommu_interval)
  : option kv :=
  match t with
  | Leaf => None
  | Node l k v r =>
      let c := interval_cmp key k in
      if (c =? 0)%Z then Some (k, v)
      else if (c <? 0)%Z then g_tree_lookup_extended l key
      else g_tree_lookup_extended r key
  end.

(** [g_tree_lookup]: the value only. *)
Definition g_tree_lookup (t : GTree) (key : viommu_interval)
  : option viommu_mapping :=
  option_map snd (g_tree_lookup_extended t key).

(** Descent of [g_tree_insert]: a key that compares equal to a stored one
    keeps the stored key and replaces its value. *)
Fixpoint insert_node (t : GTree) (key : viommu_interval) (val : viommu_mapping)
  : GTree :=
  match t with
  | Leaf => Node Leaf key val Leaf
  | Node l k v r =>
      let c := interval_cmp key k in
      if (c =? 0)%Z then Node l k val r
      else if (c <? 0)%Z then Node (insert_node l key val) k v r
      else Node l k v (insert_node r key val)
  end.

(** Gluing the two subtrees of a removed node. *)
Fixpoint join (l r : GTree) : GTree :=
  match l with
  | Leaf => r
  | Node ll lk lv lr => Node ll lk lv (join lr r)
  end.

(** Descent of [g_tree_remove]: [None] when no stored key compares equal
    (GLib returns FALSE and leaves the tree alone). *)
Fixpoint remove_node (t : GTree) (key : viommu_interval) : option GTree :=
  match t with
  | Leaf => None
  | Node l k v r =>
      let c := interval_cmp key k in
      if (c =? 0)%Z then Some (join l r)
      else if (c <? 0)%Z then
        match remove_node l key with
        | Some l' => Some (Node l' k v r)
        | None => None
        end
      else
        match remove_node r key with
        | Some r' => Some (Node l k v r')
        | None => None
        end
  end.

Definition g_tree_insert (rebalance : GTree -> GTree) (t : GTree)
  (key : viommu_interval) (val : viommu_mapping) : GTree :=
  rebalance (insert_node t key val).

Definition g_tree_remove (rebalance : GTree -> GTree) (t : GTree)
  (key : viommu_interval) : GTree :=
  match remove_node t key with
  | Some t' => rebalance t'
  | None => t
  end.


(** The node at which the descent for [key] ends, as the turns taken from
    the root ([false] for left); [None] when the descent falls off the
    tree.  It stands for the address of the key stored there: every stored
    key is an allocation of its own, so two key pointers are equal exactly
    when they name the same node. *)
Fixpoint g_tree_find_node (t : GTree) (key : viommu_interval)
  : option (list bool) :=
  match t with
  | Leaf => None
  | Node l k v r =>
      let c := interval_cmp key k in
      if (c =? 0)%Z then Some []
      else if (c <? 0)%Z then option_map (cons false) (g_tree_find_node l key)
      else option_map (cons true) (g_tree_find_node r key)
  end.

Fixpoint path_eqb (p q : list bool) : bool :=
  match p, q with
  | [], [] => true
  | a :: p', b :: q' => Bool.eqb a b && path_eqb p' q'
  | _, _ => false
  end.

(** Pointer equality of two keys of a tree. *)
Definition same_node (a b : option (list bool)) : bool :=
  match a, b with
  | Some p, Some q => path_eqb p q
  | _, _ => false
  end.

(** ** Order on keys *)

Definition iv_valid (k : viommu_interval) : Prop := low k <= high k.

Definition iv_lt (a b : viommu_interval) : Prop := high a < low b.

(** Two closed intervals share a point. *)
Definition iv_overlap (a b : viommu_interval) : Prop :=
  exists x, low a <= x <= high a /\ low b <= x <= high b.

(** The interval covers the address. *)
Definition iv_covers (k : viommu_interval) (x : N) : Prop :=
  low k <= x <= high k.

(** A sequence of pairs whose keys are well formed and strictly ascending. *)
Fixpoint ordered (l : list kv) : Prop :=
  match l with
  | [] => True
  | a :: l' =>
      iv_valid (fst a) /\ Forall (fun b => iv_lt (fst a) (fst b)) l' /\ ordered l'
  end.

(** Pairwise non-overlap of the stored keys, as the specification words it. *)
Definition pairwise_disjoint (l : list kv) : Prop :=
  forall i j a b, nth_error l i = Some a -> nth_error l j = Some b ->
                  i <> j -> ~ iv_overlap (fst a) (fst b).

(** ** The id-keyed trees ([s->domains], [s->endpoints])

    Both are GTrees keyed by [int_cmp], a total order on 32-bit ids, so
    their behaviour is fixed by their in-order sequence: they are kept as
    lists of (id, record) in ascending id order. *)

Definition int_cmp (ua ub : N) : Z :=
  Z.sub (if ub <? ua then 1%Z else 0%Z) (if ua <? ub then 1%Z else 0%Z).

Section IdTree.
Context {V : Type}.

Fixpoint tbl_lookup (t : list (N * V)) (key : N) : option V :=
  match t with
  | [] => None
  | (k, v) :: t' =>
      if (int_cmp key k =? 0)%Z then Some v else tbl_lookup t' key
  end.

(** [g_tree_insert]; also the write-back of a record mutated in place. *)
Fixpoint tbl_insert (t : list (N * V)) (key : N) (val : V) : list (N * V) :=
  match t with
  | [] => [(key, val)]
  | (k, v) :: t' =>
      let c := int_cmp key k in
      if (c =? 0)%Z then (key, val) :: t'
      else if (c <? 0)%Z then (key, val) :: t
      else (k, v) :: tbl_insert t' key val
  end.
End IdTree.

(** ** Constants of the protocol and of the memory API

    Modelled from the spec: the constants that the source takes from
    headers outside src/ (the virtio-iommu protocol header and the memory
    API).  The status codes follow the order of section 6, the mapping flags
    and the reserved-region types are the values listed there; the request
    types, the fault reasons and flags, the BYPASS feature bit and the
    access flags, which the specification names without numbers, have
    their values of the protocol and of the memory API. *)

Definition VIRTIO_IOMMU_S_OK : N := 0.
Definition VIRTIO_IOMMU_S_IOERR : N := 1.
Definition VIRTIO_IOMMU_S_UNSUPP : N := 2.
Definition VIRTIO_IOMMU_S_DEVERR : N := 3.
Definition VIRTIO_IOMMU_S_INVAL : N := 4.
Definition VIRTIO_IOMMU_S_RANGE : N := 5.
Definition VIRTIO_IOMMU_S_NOENT : N := 6.

Definition VIRTIO_IOMMU_T_ATTACH : N := 1.
Definition VIRTIO_IOMMU_T_DETACH : N := 2.
Definition VIRTIO_IOMMU_T_MAP : N := 3.
Definition VIRTIO_IOMMU_T_UNMAP : N := 4.
Definition VIRTIO_IOMMU_T_PROBE : N := 5.

Definition VIRTIO_IOMMU_MAP_F_READ : N := 1.
Definition VIRTIO_IOMMU_MAP_F_WRITE : N := 2.

Definition VIRTIO_IOMMU_RESV_MEM_T_RESERVED : N := 0.
Definition VIRTIO_IOMMU_RESV_MEM_T_MSI : N := 1.

Definition VIRTIO_IOMMU_FAULT_R_UNKNOWN : N := 0.
Definition VIRTIO_IOMMU_FAULT_R_DOMAIN : N := 1.
Definition VIRTIO_IOMMU_FAULT_R_MAPPING : N := 2.

Definition VIRTIO_IOMMU_FAULT_F_READ : N := 1.
Definition VIRTIO_IOMMU_FAULT_F_WRITE : N := 2.
Definition VIRTIO_IOMMU_FAULT_F_ADDRESS : N := 256.

Definition VIRTIO_IOMMU_F_BYPASS : N := 3.

Definition IOMMU_NONE : N := 0.
Definition IOMMU_RO : N := 1.
Definition IOMMU_WO : N := 2.
Definition IOMMU_RW : N := 3.

Definition VIOMMU_PROBE_SIZE : N := 512.

(** ** Device state *)

(** A cell of a domain's [endpoint_list].  After a snapshot is loaded the
    list holds copies allocated by the loader; [cell_canonical] tells the
    record of the endpoint tree from such a copy. *)
Record ep_cell := mk_cell { cell_id : N; cell_canonical : bool }.

Record viommu_domain := mk_domain {
  d_id : N;
  mappings : GTree;
  mappings_ref : N;          (* reference count of the mapping tree *)
  endpoint_list : list ep_cell
}.

(** [e_domain] is the [domain] pointer: the id under which the domain sits
    in [s->domains], or [None] for NULL. *)
Record viommu_endpoint := mk_endpoint { e_id : N; e_domain : option N }.

Record IOMMUDevice := mk_dev { bus_num : N; devfn : N; iommu_mr : N }.

Record ReservedRegion := mk_resv { r_low : N; r_high : N; r_type : N }.

Record VirtIOIOMMU := mk_viommu {
  domains : list (N * viommu_domain);
  endpoints : list (N * viommu_endpoint);
  notifiers_list : list IOMMUDevice;   (* a node holds its [iommu_dev] *)
  acked_features : N;
  page_size_mask : N;
  probe_size : N;
  reserved_regions : list ReservedRegion
}.

Definition set_domains (s : VirtIOIOMMU) (ds : list (N * viommu_domain)) :=
  mk_viommu ds (endpoints s) (notifiers_list s) (acked_features s)
            (page_size_mask s) (probe_size s) (reserved_regions s).

Definition set_endpoints (s : VirtIOIOMMU) (es : list (N * viommu_endpoint)) :=
  mk_viommu (domains s) es (notifiers_list s) (acked_features s)
            (page_size_mask s) (probe_size s) (reserved_regions s).

(** ** Notifications *)

Record IOMMUTLBEntry := mk_entry {
  iova : N; translated_addr : N; addr_mask : N; perm : N
}.

(** What [memory_region_notify_iommu] receives: the region and the entry. *)
Definition event : Type := N * IOMMUTLBEntry.

(** [PCI_BUILD_BDF(pci_bus_num(bus), devfn)], returned as uint16_t. *)
Definition virtio_iommu_get_sid (dev : IOMMUDevice) : N :=
  (N.lor (N.shiftl (bus_num dev) 8) (devfn dev)) mod 65536.

Definition virtio_iommu_notify_map (mr iova paddr size : N) : event :=
  (mr, mk_entry iova paddr (sub64 size 1) IOMMU_RW).

Definition virtio_iommu_notify_unmap (mr iova size : N) : event :=
  (mr, mk_entry iova 0 (sub64 size 1) IOMMU_NONE).

(** [interval->high - interval->low + 1]. *)
Definition interval_size (k : viommu_interval) : N :=
  add64 (sub64 (high k) (low k)) 1.

Definition virtio_iommu_mapping_unmap (mr : N) (p : kv) : event :=
  virtio_iommu_notify_unmap mr (low (fst p)) (interval_size (fst p)).

Definition virtio_iommu_mapping_map (mr : N) (p : kv) : event :=
  virtio_iommu_notify_map mr (low (fst p)) (phys_addr (snd p))
                          (interval_size (fst p)).

(** The loop [QLIST_FOREACH(node, &s->notifiers_list, next)] with the test
    [ep->id == sid] around a [g_tree_foreach] with callback [f]. *)
Definition foreach_notifier_of (s : VirtIOIOMMU) (ep_id : N)
  (f : N -> kv -> event) (t : GTree) : list event :=
  flat_map (fun node =>
              if ep_id =? virtio_iommu_get_sid node
              then map (f (iommu_mr node)) (inorder t)
              else [])
           (notifiers_list s).

(** The nested loops of MAP and of [virtio_iommu_remove_mapping]: one call
    of [notify] per (node, endpoint of the domain) pair with equal ids. *)
Definition fanout (nodes : list IOMMUDevice) (cells : list ep_cell)
  (notify : N -> event) : list event :=
  flat_map (fun node =>
              flat_map (fun c =>
                          if cell_id c =? virtio_iommu_get_sid node
                          then [notify (iommu_mr node)]
                          else [])
                       cells)
           nodes.

(** [QLIST_REMOVE(ep, next)]: unlink the endpoint's own record. *)
Fixpoint qlist_remove (cells : list ep_cell) (ep_id : N) : list ep_cell :=
  match cells with
  | [] => []
  | c :: cells' =>
      if (cell_id c =? ep_id) && cell_canonical c then cells'
      else c :: qlist_remove cells' ep_id
  end.

(** ** Endpoint and domain helpers *)

(** [g_tree_unref] on a tree whose reference count is [ref]: one reference
    less.  When the count reaches zero GLib removes every node, frees the
    keys and the values with the destroy functions of the tree, and frees
    the tree: the pointer that named it dangles.  A destroyed tree is
    recorded as the empty tree with count 0; what the source does when it
    uses such a pointer again is not defined by it. *)
Definition g_tree_unref (t : GTree) (ref : N) : GTree * N :=
  if ref - 1 =? 0 then (Leaf, 0) else (t, ref - 1).

(** [virtio_iommu_detach_endpoint_from_domain]; callers guarantee a non-NULL
    [ep->domain] (the other branches stand for a NULL pointer or for a
    domain that is no longer in the tree).  The source reaches the device
    through [ep->viommu], a member that the struct of the endpoint does not
    declare; the device is the one the endpoint tree belongs to and is
    passed along.  The notifications are sent first, then the endpoint is
    unlinked and the reference on the mapping tree dropped. *)
Definition virtio_iommu_detach_endpoint_from_domain (s : VirtIOIOMMU)
  (ep : viommu_endpoint) : VirtIOIOMMU * list event :=
  match e_domain ep with
  | None => (s, [])
  | Some did =>
      match tbl_lookup (domains s) did with
      | None => (s, [])
      | Some domain =>
          let evs := foreach_notifier_of s (e_id ep) virtio_iommu_mapping_unmap
                                         (mappings domain) in
          let unref := g_tree_unref (mappings domain) (mappings_ref domain) in
          let domain' := mk_domain (d_id domain) (fst unref) (snd unref)
                                   (qlist_remove (endpoint_list domain) (e_id ep)) in
          let s1 := set_domains s (tbl_insert (domains s) did domain') in
          let s2 := set_endpoints s1 (tbl_insert (endpoints s1) (e_id ep)
                                                 (mk_endpoint (e_id ep) None)) in
          (s2, evs)
      end
  end.

Definition virtio_iommu_get_endpoint (s : VirtIOIOMMU) (ep_id : N)
  : VirtIOIOMMU * viommu_endpoint :=
  match tbl_lookup (endpoints s) ep_id with
  | Some ep => (s, ep)
  | None =>
      let ep := mk_endpoint ep_id None in
      (set_endpoints s (tbl_insert (endpoints s) ep_id ep), ep)
  end.

Definition virtio_iommu_get_domain (s : VirtIOIOMMU) (domain_id : N)
  : VirtIOIOMMU * viommu_domain :=
  match tbl_lookup (domains s) domain_id with
  | Some domain => (s, domain)
  | None =>
      let domain := mk_domain domain_id Leaf 1 [] in
      (set_domains s (tbl_insert (domains s) domain_id domain), domain)
  end.

(** ** Command handlers

    Each handler returns its status, the new device state and the
    notifications it sent, in the order they were sent. *)

Definition handler_result : Type := N * VirtIOIOMMU * list event.

Definition virtio_iommu_attach (s : VirtIOIOMMU) (domain_id ep_id : N)
  : handler_result :=
  let '(s1, ep) := virtio_iommu_get_endpoint s ep_id in
  let '(s2, evs_detach) :=
    match e_domain ep with
    | Some _ => virtio_iommu_detach_endpoint_from_domain s1 ep
    | None => (s1, [])
    end in
  let '(s3, domain) := virtio_iommu_get_domain s2 domain_id in
  let domain' := mk_domain (d_id domain) (mappings domain)
                           (mappings_ref domain + 1)
                           (mk_cell (e_id ep) true :: endpoint_list domain) in
  let s4 := set_domains s3 (tbl_insert (domains s3) domain_id domain') in
  let s5 := set_endpoints s4 (tbl_insert (endpoints s4) (e_id ep)
                                         (mk_endpoint (e_id ep) (Some domain_id))) in
  let evs_replay := foreach_notifier_of s5 (e_id ep) virtio_iommu_mapping_map
                                        (mappings domain') in
  (VIRTIO_IOMMU_S_OK, s5, evs_detach ++ evs_replay).

Definition virtio_iommu_detach (s : VirtIOIOMMU) (domain_id ep_id : N)
  : handler_result :=
  match tbl_lookup (endpoints s) ep_id with
  | None => (VIRTIO_IOMMU_S_NOENT, s, [])
  | Some ep =>
      match e_domain ep with
      | None => (VIRTIO_IOMMU_S_INVAL, s, [])
      | Some _ =>
          let '(s', evs) := virtio_iommu_detach_endpoint_from_domain s ep in
          (VIRTIO_IOMMU_S_OK, s', evs)
      end
  end.

Definition virtio_iommu_map (rebalance : GTree -> GTree) (s : VirtIOIOMMU)
  (domain_id virt_start virt_end phys_start flags : N) : handler_result :=
  let interval := mk_interval virt_start virt_end in
  match tbl_lookup (domains s) domain_id with
  | None => (VIRTIO_IOMMU_S_NOENT, s, [])
  | Some domain =>
      match g_tree_lookup (mappings domain) interval with
      | Some _ => (VIRTIO_IOMMU_S_INVAL, s, [])
      | None =>
          let mapping := mk_mapping phys_start flags in
          let domain' := mk_domain (d_id domain)
                           (g_tree_insert rebalance (mappings domain) interval mapping)
                           (mappings_ref domain) (endpoint_list domain) in
          let s' := set_domains s (tbl_insert (domains s) domain_id domain') in
          let evs := fanout (notifiers_list s) (endpoint_list domain)
                       (fun mr => virtio_iommu_notify_map mr virt_start phys_start
                                    (add64 (sub64 virt_end virt_start) 1)) in
          (VIRTIO_IOMMU_S_OK, s', evs)
      end
  end.

(** [virtio_iommu_remove_mapping] on the domain's tree.  [interval] is the
    pointer the caller holds: the key stored in the node [key_node], with
    its fields.  [g_tree_remove] descends with the key's fields and removes
    the node at which that descent ends; the tree was created with [g_free]
    as destroy function of keys and values, so the key of the removed node
    is freed.  The notifications are built afterwards, from
    [interval->low] and [interval->high]: when the removed node is the one
    that held [interval], these are reads of freed memory, and [after_free]
    stands for what they return, about which nothing is known.  The result
    is the tree after [g_tree_remove] and the notifications sent. *)
Definition virtio_iommu_remove_mapping (rebalance : GTree -> GTree)
  (after_free : viommu_interval -> viommu_interval)
  (nodes : list IOMMUDevice) (cells : list ep_cell) (t : GTree)
  (key_node : option (list bool)) (interval : viommu_interval)
  : GTree * list event :=
  let key_freed := same_node key_node (g_tree_find_node t interval) in
  let read := if key_freed then after_free interval else interval in
  (g_tree_remove rebalance t interval,
   fanout nodes cells
          (fun mr => virtio_iommu_notify_unmap mr (low read)
                       (interval_size read))).

(** The [while] loop of UNMAP.  [fuel] bounds the number of iterations;
    [None] means the loop is still running when the fuel is spent. *)
Fixpoint unmap_loop (rebalance : GTree -> GTree)
  (after_free : viommu_interval -> viommu_interval) (fuel : nat)
  (nodes : list IOMMUDevice) (cells : list ep_cell)
  (t : GTree) (interval : viommu_interval) (sent : list event)
  : option (N * GTree * list event) :=
  match fuel with
  | O => None
  | S fuel' =>
      match g_tree_lookup_extended t interval with
      | None => Some (VIRTIO_IOMMU_S_OK, t, sent)
      | Some (iter_key, _) =>
          let current_low := low iter_key in
          let current_high := high iter_key in
          if (low interval <=? current_low) && (current_high <=? high interval)
          then
            let '(t', evs) :=
              virtio_iommu_remove_mapping rebalance after_free nodes cells t
                                          (g_tree_find_node t interval) iter_key in
            unmap_loop rebalance after_free fuel' nodes cells t' interval (sent ++ evs)
          else Some (VIRTIO_IOMMU_S_RANGE, t, sent)
      end
  end.

Definition virtio_iommu_unmap (rebalance : GTree -> GTree)
  (after_free : viommu_interval -> viommu_interval) (fuel : nat)
  (s : VirtIOIOMMU) (domain_id virt_start virt_end : N)
  : option handler_result :=
  match tbl_lookup (domains s) domain_id with
  | None => Some (VIRTIO_IOMMU_S_NOENT, s, [])
  | Some domain =>
      let interval := mk_interval virt_start virt_end in
      match unmap_loop rebalance after_free fuel (notifiers_list s) (endpoint_list domain)
                       (mappings domain) interval [] with
      | None => None
      | Some (ret, t', evs) =>
          let domain' := mk_domain (d_id domain) t' (mappings_ref domain)
                                   (endpoint_list domain) in
          Some (ret, set_domains s (tbl_insert (domains s) domain_id domain'), evs)
      end
  end.

(** ** Translation *)

Record virtio_iommu_fault := mk_fault {
  f_reason : N; f_flags : N; f_endpoint : N; f_address : N
}.

Definition virtio_has_feature (features : N) (fbit : N) : bool :=
  N.testbit features fbit.

Fixpoint ctz_from (n : nat) (v i : N) : N :=
  match n with
  | O => i
  | S n' => if N.testbit v i then i else ctz_from n' v (i + 1)
  end.

(** [ctz32]: 32 for a zero argument. *)
Definition ctz32 (v : N) : N := ctz_from 32 (v mod 4294967296) 0.

(** The first reserved region that holds the address, as the [for] loop
    of the translate callback meets it. *)
Fixpoint find_reserved (regions : list ReservedRegion) (addr : N)
  : option ReservedRegion :=
  match regions with
  | [] => None
  | r :: regions' =>
      if (r_low r <=? addr) && (addr <=? r_high r) then Some r
      else find_reserved regions' addr
  end.

Definition with_perm (e : IOMMUTLBEntry) (p : N) : IOMMUTLBEntry :=
  mk_entry (iova e) (translated_addr e) (addr_mask e) p.

(** [virtio_iommu_translate]: the entry returned and the fault records
    handed to [virtio_iommu_report_fault]. *)
Definition virtio_iommu_translate (s : VirtIOIOMMU) (sdev : IOMMUDevice)
  (addr flag : N) : IOMMUTLBEntry * list virtio_iommu_fault :=
  let interval := mk_interval addr (add64 addr 1) in
  let entry := mk_entry addr addr
                        (N.shiftl 1 (ctz32 (page_size_mask s)) - 1) IOMMU_NONE in
  let bypass_allowed :=
    virtio_has_feature (acked_features s) VIRTIO_IOMMU_F_BYPASS in
  let sid := virtio_iommu_get_sid sdev in
  match tbl_lookup (endpoints s) sid with
  | None =>
      if negb bypass_allowed
      then (entry, [mk_fault VIRTIO_IOMMU_FAULT_R_UNKNOWN 0 sid 0])
      else (with_perm entry flag, [])
  | Some ep =>
      match find_reserved (reserved_regions s) addr with
      | Some r =>
          if r_type r =? VIRTIO_IOMMU_RESV_MEM_T_MSI
          then (with_perm entry flag, [])
          else (entry, [mk_fault VIRTIO_IOMMU_FAULT_R_MAPPING 0 sid addr])
      | None =>
          match e_domain ep with
          | None =>
              if negb bypass_allowed
              then (entry, [mk_fault VIRTIO_IOMMU_FAULT_R_DOMAIN 0 sid 0])
              else (with_perm entry flag, [])
          | Some did =>
              match tbl_lookup (domains s) did with
              | None => (entry, [])      (* dangling pointer: not modelled *)
              | Some domain =>
                  match g_tree_lookup_extended (mappings domain) interval with
                  | None =>
                      (entry, [mk_fault VIRTIO_IOMMU_FAULT_R_MAPPING 0 sid addr])
                  | Some (mapping_key, mapping_value) =>
                      let read_fault :=
                        negb (N.land flag IOMMU_RO =? 0) &&
                        (N.land (flags mapping_value) VIRTIO_IOMMU_MAP_F_READ =? 0) in
                      let write_fault :=
                        negb (N.land flag IOMMU_WO =? 0) &&
                        (N.land (flags mapping_value) VIRTIO_IOMMU_MAP_F_WRITE =? 0) in
                      let fl := N.lor
                                  (if read_fault then VIRTIO_IOMMU_FAULT_F_READ else 0)
                                  (if write_fault then VIRTIO_IOMMU_FAULT_F_WRITE else 0) in
                      if negb (fl =? 0)
                      then (entry,
                            [mk_fault VIRTIO_IOMMU_FAULT_R_MAPPING
                                      (N.lor fl VIRTIO_IOMMU_FAULT_F_ADDRESS) sid addr])
                      else (mk_entry addr
                                     (add64 (sub64 addr (low mapping_key))
                                            (phys_addr mapping_value))
                                     (addr_mask entry) flag,
                            [])
                  end
              end
          end
      end
  end.

(** ** Replay *)

Definition virtio_iommu_remap (mr : N) (p : kv) : list event :=
  [ virtio_iommu_notify_unmap mr (low (fst p)) (interval_size (fst p));
    virtio_iommu_notify_map mr (low (fst p)) (phys_addr (snd p))
                            (interval_size (fst p)) ].

Definition virtio_iommu_replay (s : VirtIOIOMMU) (sdev : IOMMUDevice)
  : list event :=
  match tbl_lookup (endpoints s) (virtio_iommu_get_sid sdev) with
  | None => []
  | Some ep =>
      match e_domain ep with
      | None => []
      | Some did =>
          match tbl_lookup (domains s) did with
          | None => []
          | Some domain =>
              flat_map (virtio_iommu_remap (iommu_mr sdev))
                       (inorder (mappings domain))
          end
      end
  end.

(** ** Command processor *)

(** A descriptor-chain element: the bytes of its out-buffers, and the total
    size of its in-buffers. *)
Record VirtQueueElement := mk_elem { out_sg : list N; in_size : N }.

(** Modelled from the spec: the sizes of the request structs, which the
    protocol header (outside src/) declares; computed from the wire layout
    of section 6, head and tail included. *)
Definition sizeof_head : N := 4.
Definition sizeof_tail : N := 4.
Definition sizeof_req_attach : N := 24.
Definition sizeof_req_detach : N := 24.
Definition sizeof_req_map : N := 40.
Definition sizeof_req_unmap : N := 32.
Definition sizeof_req_probe : N := 76.
Definition sizeof_probe_resv_mem : N := 28.
Definition sizeof_probe_property : N := 4.

Definition iov_size (iov : list N) : N := N.of_nat (length iov).

(** [iov_to_buf(iov, cnt, 0, buf, bytes)]: the bytes copied. *)
Definition iov_to_buf (iov : list N) (bytes : N) : list N :=
  firstn (N.to_nat bytes) iov.

(** Little-endian load of [n] bytes. *)
Fixpoint le_load (n : nat) (buf : list N) : N :=
  match n with
  | O => 0
  | S n' =>
      match buf with
      | [] => 0
      | b :: buf' => b + 256 * le_load n' buf'
      end
  end.

Definition le32_at (buf : list N) (off : nat) : N := le_load 4 (skipn off buf).
Definition le64_at (buf : list N) (off : nat) : N := le_load 8 (skipn off buf).

(** [virtio_iommu_iov_to_req]: the return value and the bytes copied. *)
Definition virtio_iommu_iov_to_req (iov : list N) (req_sz : N) : N * list N :=
  let payload_sz := req_sz - sizeof_tail in
  let req := iov_to_buf iov payload_sz in
  if negb (iov_size req =? payload_sz)
  then (VIRTIO_IOMMU_S_INVAL, req)
  else (0, req).

Definition virtio_iommu_handle_attach (s : VirtIOIOMMU) (iov : list N)
  : handler_result :=
  let '(ret, req) := virtio_iommu_iov_to_req iov sizeof_req_attach in
  if negb (ret =? 0) then (ret, s, [])
  else virtio_iommu_attach s (le32_at req 4) (le32_at req 8).

Definition virtio_iommu_handle_detach (s : VirtIOIOMMU) (iov : list N)
  : handler_result :=
  let '(ret, req) := virtio_iommu_iov_to_req iov sizeof_req_detach in
  if negb (ret =? 0) then (ret, s, [])
  else virtio_iommu_detach s (le32_at req 4) (le32_at req 8).

Definition virtio_iommu_handle_map (rebalance : GTree -> GTree)
  (s : VirtIOIOMMU) (iov : list N) : handler_result :=
  let '(ret, req) := virtio_iommu_iov_to_req iov sizeof_req_map in
  if negb (ret =? 0) then (ret, s, [])
  else virtio_iommu_map rebalance s (le32_at req 4) (le64_at req 8)
                        (le64_at req 16) (le64_at req 24) (le32_at req 32).

Definition virtio_iommu_handle_unmap (rebalance : GTree -> GTree)
  (after_free : viommu_interval -> viommu_interval) (fuel : nat)
  (s : VirtIOIOMMU) (iov : list N) : option handler_result :=
  let '(ret, req) := virtio_iommu_iov_to_req iov sizeof_req_unmap in
  if negb (ret =? 0) then Some (ret, s, [])
  else virtio_iommu_unmap rebalance after_free fuel s (le32_at req 4) (le64_at req 8)
                          (le64_at req 16).

(** A reserved-memory property as PROBE writes it. *)
Record probe_resv_mem := mk_prop { p_subtype : N; p_start : N; p_end : N }.

(** [virtio_iommu_fill_resv_mem_prop]: [None] stands for -ENOSPC. *)
Definition virtio_iommu_fill_resv_mem_prop (s : VirtIOIOMMU) (free : N)
  : option (N * list probe_resv_mem) :=
  let total := sizeof_probe_resv_mem * N.of_nat (length (reserved_regions s)) in
  if free <? total then None
  else Some (total,
             map (fun r => mk_prop (r_type r) (r_low r) (r_high r))
                 (reserved_regions s)).

(** [virtio_iommu_probe]: the status and the properties put in the buffer
    (the NONE terminator follows them). *)
Definition virtio_iommu_probe (s : VirtIOIOMMU) : N * list probe_resv_mem :=
  let free := VIOMMU_PROBE_SIZE - sizeof_probe_property in
  match virtio_iommu_fill_resv_mem_prop s free with
  | None => (VIRTIO_IOMMU_S_INVAL, [])
  | Some (_, props) => (VIRTIO_IOMMU_S_OK, props)
  end.

Definition virtio_iommu_handle_probe (s : VirtIOIOMMU) (iov : list N)
  : N * list probe_resv_mem :=
  let '(ret, req) := virtio_iommu_iov_to_req iov sizeof_req_probe in
  if negb (ret =? 0) then (ret, []) else virtio_iommu_probe s.

(** What became of one element of the request queue. *)
Inductive elem_outcome : Type :=
| ElemBadSize                       (* virtio_error, element detached *)
| ElemAssertFailed                  (* an [assert] on the copied size fails *)
| ElemPushed (status : N) (props : list probe_resv_mem) (sz : N).

(** One turn of the [for (;;)] loop of [virtio_iommu_handle_command], on an
    element already popped.  [None]: the UNMAP loop has not returned. *)
Definition handle_element (rebalance : GTree -> GTree)
  (after_free : viommu_interval -> viommu_interval) (fuel : nat)
  (s : VirtIOIOMMU) (elem : VirtQueueElement)
  : option (VirtIOIOMMU * list event * elem_outcome) :=
  if (in_size elem <? sizeof_tail) || (iov_size (out_sg elem) <? sizeof_head)
  then Some (s, [], ElemBadSize)
  else
    let iov := out_sg elem in
    let head := iov_to_buf iov sizeof_head in
    let push_tail (r : handler_result) :=
      let '(status, s', evs) := r in
      let sz := N.min (in_size elem) sizeof_tail in
      if negb (sz =? sizeof_tail) then (s', evs, ElemAssertFailed)
      else (s', evs, ElemPushed status [] sz) in
    if negb (iov_size head =? sizeof_head)
    then Some (push_tail (VIRTIO_IOMMU_S_DEVERR, s, []))
    else
      let type := le_load 1 head in
      if type =? VIRTIO_IOMMU_T_ATTACH then
        Some (push_tail (virtio_iommu_handle_attach s iov))
      else if type =? VIRTIO_IOMMU_T_DETACH then
        Some (push_tail (virtio_iommu_handle_detach s iov))
      else if type =? VIRTIO_IOMMU_T_MAP then
        Some (push_tail (virtio_iommu_handle_map rebalance s iov))
      else if type =? VIRTIO_IOMMU_T_UNMAP then
        option_map push_tail (virtio_iommu_handle_unmap rebalance after_free fuel s iov)
      else if type =? VIRTIO_IOMMU_T_PROBE then
        let '(status, props) := virtio_iommu_handle_probe s iov in
        let sz := N.min (in_size elem) (probe_size s + sizeof_tail) in
        if negb (sz =? probe_size s + sizeof_tail)
        then Some (s, [], ElemAssertFailed)
        else Some (s, [], ElemPushed status props sz)
      else Some (push_tail (VIRTIO_IOMMU_S_UNSUPP, s, [])).

(** [virtio_iommu_handle_command] on the elements waiting in the queue. *)
Fixpoint virtio_iommu_handle_command (rebalance : GTree -> GTree)
  (after_free : viommu_interval -> viommu_interval) (fuel : nat)
  (s : VirtIOIOMMU) (vq : list VirtQueueElement)
  : option (VirtIOIOMMU * list event * list elem_outcome) :=
  match vq with
  | [] => Some (s, [], [])
  | elem :: vq' =>
      match handle_element rebalance after_free fuel s elem with
      | None => None
      | Some (s', evs, ElemPushed st props sz) =>
          match virtio_iommu_handle_command rebalance after_free fuel s' vq' with
          | None => None
          | Some (s'', evs', outs) =>
              Some (s'', evs ++ evs', ElemPushed st props sz :: outs)
          end
      | Some (s', evs, out) => Some (s', evs, [out])
      end
  end.

(** ** Snapshot: the post-load fix-up *)

(** [QLIST_FOREACH_SAFE] of [reconstruct_ep_domain_link]: drop the first
    cell that carries the id. *)
Fixpoint remove_first_id (cells : list ep_cell) (ep_id : N) : list ep_cell :=
  match cells with
  | [] => []
  | c :: cells' =>
      if cell_id c =? ep_id then cells' else c :: remove_first_id cells' ep_id
  end.

(** [reconstruct_ep_domain_link] on one domain: [Some] when the callback
    returns true, with the domain after the replacement. *)
Definition reconstruct_ep_domain_link (d : viommu_domain) (ep_id : N)
  : option viommu_domain :=
  if existsb (fun c => cell_id c =? ep_id) (endpoint_list d)
  then Some (mk_domain (d_id d) (mappings d) (mappings_ref d)
                       (mk_cell ep_id true
                          :: remove_first_id (endpoint_list d) ep_id))
  else None.

(** [g_tree_foreach(s->domains, reconstruct_ep_domain_link, ep)]: the
    traversal stops at the first domain for which the callback is true. *)
Fixpoint foreach_reconstruct (ds : list (N * viommu_domain)) (ep_id : N)
  : option (list (N * viommu_domain) * N) :=
  match ds with
  | [] => None
  | (key, d) :: ds' =>
      match reconstruct_ep_domain_link d ep_id with
      | Some d' => Some ((key, d') :: ds', key)
      | None =>
          match foreach_reconstruct ds' ep_id with
          | Some (ds'', found) => Some ((key, d) :: ds'', found)
          | None => None
          end
      end
  end.

(** [fix_endpoint] on the endpoint stored under [key]. *)
Definition fix_endpoint (s : VirtIOIOMMU) (key : N) (ep : viommu_endpoint)
  : VirtIOIOMMU :=
  match foreach_reconstruct (domains s) (e_id ep) with
  | Some (ds', found) =>
      set_endpoints (set_domains s ds')
                    (tbl_insert (endpoints s) key (mk_endpoint (e_id ep) (Some found)))
  | None => s
  end.

(** [iommu_post_load]: [fix_endpoint] over the endpoint tree, in id order. *)
Definition iommu_post_load (s : VirtIOIOMMU) : VirtIOIOMMU :=
  fold_left (fun acc kep => fix_endpoint acc (fst kep) (snd kep))
            (endpoints s) s.

(** ** Snapshot: the codec *)

Record domain_image := mk_dimg {
  img_id : N;
  img_mappings : list kv;          (* (low, high) with (phys, flags), in order *)
  img_endpoints : list N
}.

Record snapshot := mk_snap {
  snap_domains : list (N * domain_image);
  snap_endpoints : list (N * N)
}.

(** Modelled from the spec: the writer of the snapshot codec (section 4.6).
    The vmstate machinery that walks the GTree and QLIST fields named by
    [vmstate_virtio_iommu_device] is outside src/.  Both trees are written
    in id order; a domain as its id, its mappings in order and the ids of
    its attached endpoints; an endpoint as its id only. *)
Definition snapshot_save (s : VirtIOIOMMU) : snapshot :=
  mk_snap
    (map (fun kd => (fst kd,
                     mk_dimg (d_id (snd kd)) (inorder (mappings (snd kd)))
                             (map cell_id (endpoint_list (snd kd)))))
         (domains s))
    (map (fun ke => (fst ke, e_id (snd ke))) (endpoints s)).

(** Modelled from the spec: the reader's refill of one mapping tree, which
    [domain_preload] has created empty: the pairs are inserted one by one. *)
Definition load_mappings (rebalance : GTree -> GTree) (l : list kv) : GTree :=
  fold_left (fun t p => g_tree_insert rebalance t (fst p) (snd p)) l Leaf.

(** Modelled from the spec: the reader of the snapshot codec (section 4.6,
    steps 1 and 2), into a device [s0] whose two trees are empty.  The
    endpoint lists are filled with copies, and no endpoint has a domain yet. *)
Definition snapshot_load (rebalance : GTree -> GTree) (s0 : VirtIOIOMMU)
  (snap : snapshot) : VirtIOIOMMU :=
  let ds :=
    fold_left (fun acc ki =>
                 tbl_insert acc (fst ki)
                   (mk_domain (img_id (snd ki))
                              (load_mappings rebalance (img_mappings (snd ki)))
                              1
                              (map (fun i => mk_cell i false)
                                   (img_endpoints (snd ki)))))
              (snap_domains snap) [] in
  let es :=
    fold_left (fun acc ki => tbl_insert acc (fst ki) (mk_endpoint (snd ki) None))
              (snap_endpoints snap) [] in
  set_endpoints (set_domains s0 ds) es.

(** Load followed by the post-load hook of the source. *)
Definition snapshot_restore (rebalance : GTree -> GTree) (s0 : VirtIOIOMMU)
  (snap : snapshot) : VirtIOIOMMU :=
  iommu_post_load (snapshot_load rebalance s0 snap).

(** ** Command sequences *)

Inductive command : Type :=
| CmdAttach (domain_id ep_id : N)
| CmdDetach (domain_id ep_id : N)
| CmdMap (domain_id virt_start virt_end phys_start flags : N)
| CmdUnmap (domain_id virt_start virt_end : N).

Definition run_command (rebalance : GTree -> GTree)
  (after_free : viommu_interval -> viommu_interval) (fuel : nat)
  (s : VirtIOIOMMU) (c : command) : option handler_result :=
  match c with
  | CmdAttach d e => Some (virtio_iommu_attach s d e)
  | CmdDetach d e => Some (virtio_iommu_detach s d e)
  | CmdMap d vs ve p f => Some (virtio_iommu_map rebalance s d vs ve p f)
  | CmdUnmap d vs ve => virtio_iommu_unmap rebalance after_free fuel s d vs ve
  end.

(** The statuses returned, the final state and all notifications. *)
Fixpoint run_commands (rebalance : GTree -> GTree)
  (after_free : viommu_interval -> viommu_interval) (fuel : nat)
  (s : VirtIOIOMMU) (cs : list command)
  : option (list N * VirtIOIOMMU * list event) :=
  match cs with
  | [] => Some ([], s, [])
  | c :: cs' =>
      match run_command rebalance after_free fuel s c with
      | None => None
      | Some (st, s', evs) =>
          match run_commands rebalance after_free fuel s' cs' with
          | None => None
          | Some (sts, s'', evs') => Some (st :: sts, s'', evs ++ evs')
          end
      end
  end.

(** The device as [virtio_iommu_device_realize] leaves it: both trees empty,
    probe size 512. *)
Definition realized (nodes : list IOMMUDevice) (features mask : N)
  (regions : list ReservedRegion) : VirtIOIOMMU :=
  mk_viommu [] [] nodes features mask VIOMMU_PROBE_SIZE regions.

(** No rotation: the shape an AVL tree keeps as long as no insertion or
    removal unbalances it. *)
Definition no_rotation (t : GTree) : GTree := t.

(** A freed key that still reads as it did: the memory has not been used
    again.  One of the behaviours the reads after [g_tree_remove] can
    have; used where a run has to be evaluated. *)
Definition no_reuse (k : viommu_interval) : viommu_interval := k.

(** ** State invariants *)

(** The mapping table of every domain is well formed and ascending. *)
Definition tables_ordered (s : VirtIOIOMMU) : Prop :=
  forall did d, tbl_lookup (domains s) did = Some d ->
                ordered (inorder (mappings d)).

Fixpoint keys_ascending {V : Type} (t : list (N * V)) : Prop :=
  match t with
  | [] => True
  | (k, _) :: t' => Forall (fun kv' => k < fst kv') t' /\ keys_ascending t'
  end.

(** Consistency of the endpoint/domain links (invariant 2 of the data
    model), with the facts the pointer structure gives for free in C: a
    record sits under its own id, and an endpoint record is linked in at
    most one list, at most once. *)
Record links_consistent (s : VirtIOIOMMU) : Prop := {
  lc_dom_keys : keys_ascending (domains s);
  lc_ep_keys : keys_ascending (endpoints s);
  lc_dom_id : forall k d, In (k, d) (domains s) -> d_id d = k;
  lc_ep_id : forall k e, In (k, e) (endpoints s) -> e_id e = k;
  lc_cells : forall k d c, In (k, d) (domains s) -> In c (endpoint_list d) ->
               cell_canonical c = true /\
               tbl_lookup (endpoints s) (cell_id c)
                 = Some (mk_endpoint (cell_id c) (Some k));
  lc_nodup : forall k d, In (k, d) (domains s) ->
               NoDup (map cell_id (endpoint_list d));
  lc_attached : forall k e did, In (k, e) (endpoints s) ->
               e_domain e = Some did ->
               exists d, tbl_lookup (domains s) did = Some d /\
                         In (mk_cell k true) (endpoint_list d)
}.

(** The four components a snapshot is about, compared between two states:
    same domains with the same mappings in order and the same set of
    attached endpoints, same endpoints with the same domain. *)
Definition same_contents (s1 s2 : VirtIOIOMMU) : Prop :=
  map fst (domains s1) = map fst (domains s2) /\
  (forall k d1, tbl_lookup (domains s1) k = Some d1 ->
     exists d2, tbl_lookup (domains s2) k = Some d2 /\
                d_id d2 = d_id d1 /\
                inorder (mappings d2) = inorder (mappings d1) /\
                Permutation (endpoint_list d2) (endpoint_list d1)) /\
  endpoints s2 = endpoints s1.

(** The payload size [sizeof(req) - sizeof(tail)] that
    [virtio_iommu_iov_to_req] expects for a request type. *)
Definition payload_size (type : N) : N :=
  if type =? VIRTIO_IOMMU_T_ATTACH then sizeof_req_attach - sizeof_tail
  else if type =? VIRTIO_IOMMU_T_DETACH then sizeof_req_detach - sizeof_tail
  else if type =? VIRTIO_IOMMU_T_MAP then sizeof_req_map - sizeof_tail
  else if type =? VIRTIO_IOMMU_T_UNMAP then sizeof_req_unmap - sizeof_tail
  else if type =? VIRTIO_IOMMU_T_PROBE then sizeof_req_probe - sizeof_tail
  else 0.

(** ** Notification entries, field by field *)

(** The mask of an interval as an entry carries it:
    [high - low + 1 - 1], each step on 64 bits. *)
Definition mask_of (k : viommu_interval) : N :=
  sub64 (add64 (sub64 (high k) (low k)) 1) 1.

(** The entry of an UNMAP notification for the interval [k], field by
    field: no translated address, no permission. *)
Definition unmap_entry (k : viommu_interval) : IOMMUTLBEntry :=
  mk_entry (low k) 0 (mask_of k) IOMMU_NONE.

(** The entry of a MAP notification for the interval [k] mapped to [paddr],
    field by field: permission read and write. *)
Definition map_entry (k : viommu_interval) (paddr : N) : IOMMUTLBEntry :=
  mk_entry (low k) paddr (mask_of k) IOMMU_RW.

(** The UNMAP notifications of a whole mapping tree for the notifiers
    subscribed to an endpoint id, notifier by notifier, in key order. *)
Definition unmap_all (s : VirtIOIOMMU) (ep_id : N) (t : GTree) : list event :=
  flat_map (fun node =>
              if ep_id =? virtio_iommu_get_sid node
              then map (fun p => (iommu_mr node, unmap_entry (fst p)))
                       (inorder t)
              else [])
           (notifiers_list s).

(** The MAP notifications of a whole mapping tree, likewise. *)
Definition map_all (s : VirtIOIOMMU) (ep_id : N) (t : GTree) : list event :=
  flat_map (fun node =>
              if ep_id =? virtio_iommu_get_sid node
              then map (fun p => (iommu_mr node,
                                  map_entry (fst p) (phys_addr (snd p))))
                       (inorder t)
              else [])
           (notifiers_list s).

(** ** States used in the examples *)

(** A rebalancing step is admissible when it keeps the in-order sequence. *)
Definition keeps_inorder (rebalance : GTree -> GTree) : Prop :=
  forall t, inorder (rebalance t) = inorder t.

(** Endpoint 1 sits behind bus 0, devfn 1; one notifier watches it. *)
Definition dev_0_1 : IOMMUDevice := mk_dev 0 1 7.

Definition fresh_device : VirtIOIOMMU :=
  realized [dev_0_1] 0 18446744073709547520 [].

(** Domain 1 with endpoint 1 attached and the one mapping
    [0x1000, 0x1fff] -> 0xa000, readable and writable. *)
Definition one_page_device : VirtIOIOMMU :=
  mk_viommu
    [(1, mk_domain 1 (Node Leaf (mk_interval 4096 8191) (mk_mapping 40960 3) Leaf)
                   2 [mk_cell 1 true])]
    [(1, mk_endpoint 1 (Some 1))]
    [dev_0_1] 0 18446744073709547520 512 [].

(** Domain 1 with endpoint 1 attached and the one mapping
    [0x1000, 0x1fff] -> 0xa000 that the guest asked for with the READ flag
    alone. *)
Definition read_only_page_device : VirtIOIOMMU :=
  mk_viommu
    [(1, mk_domain 1 (Node Leaf (mk_interval 4096 8191)
                           (mk_mapping 40960 VIRTIO_IOMMU_MAP_F_READ) Leaf)
                   2 [mk_cell 1 true])]
    [(1, mk_endpoint 1 (Some 1))]
    [dev_0_1] 0 18446744073709547520 512 [].

(** Domain 1 with endpoint 1 attached and the one key the guest gave as
    MAP(1, 100, 0): low 100, high 0. *)
Definition inverted_key_device : VirtIOIOMMU :=
  mk_viommu
    [(1, mk_domain 1 (Node Leaf (mk_interval 100 0) (mk_mapping 4096 3) Leaf)
                   2 [mk_cell 1 true])]
    [(1, mk_endpoint 1 (Some 1))]
    [dev_0_1] 0 18446744073709547520 512 [].

(** ** The state between load and fix-up *)

Definition cell_ids (d : viommu_domain) : list N :=
  map cell_id (endpoint_list d).

(** An endpoint as the reader leaves it: its id, no domain yet. *)
Definition loaded_endpoint (ke : N * viommu_endpoint) : viommu_endpoint :=
  mk_endpoint (e_id (snd ke)) None.

(** A domain as the reader leaves it: its mappings re-inserted into a new
    tree with one reference, its endpoint list made of copies. *)
Definition loaded_domain (rebalance : GTree -> GTree)
  (kd : N * viommu_domain) : viommu_domain :=
  mk_domain (d_id (snd kd))
            (load_mappings rebalance (inorder (mappings (snd kd))))
            1
            (map (fun i => mk_cell i false) (cell_ids (snd kd))).

(** A domain in the course of the fix-up, against the domain [kd] it was
    saved from, once the endpoints [fixed] have been visited: same key, id
    and reloaded mappings, the same endpoint ids in its list, and exactly
    the cells of the visited endpoints are canonical. *)
Definition fixup_rel (rebalance : GTree -> GTree) (fixed : list N)
  (kd kd' : N * viommu_domain) : Prop :=
  fst kd' = fst kd /\
  d_id (snd kd') = d_id (snd kd) /\
  mappings (snd kd') = load_mappings rebalance (inorder (mappings (snd kd))) /\
  Permutation (cell_ids (snd kd')) (cell_ids (snd kd)) /\
  (forall c, In c (endpoint_list (snd kd')) ->
             (cell_canonical c = true <-> In (cell_id c) fixed)).

(** A domain after the round trip, against the domain it was saved from:
    same key and id, same mappings in order, same attached endpoints. *)
Definition restored_rel (kd kd' : N * viommu_domain) : Prop :=
  fst kd' = fst kd /\
  d_id (snd kd') = d_id (snd kd) /\
  inorder (mappings (snd kd')) = inorder (mappings (snd kd)) /\
  Permutation (endpoint_list (snd kd')) (endpoint_list (snd kd)).

(** Domain 1 with endpoints 3 and 1 attached in that order and one page
    mapped, domain 2 with endpoint 2, and endpoint 4 detached again. *)
Definition busy_device : VirtIOIOMMU :=
  mk_viommu
    [(1, mk_domain 1 (Node Leaf (mk_interval 4096 8191) (mk_mapping 40960 3) Leaf)
                   3 [mk_cell 1 true; mk_cell 3 true]);
     (2, mk_domain 2 Leaf 2 [mk_cell 2 true])]
    [(1, mk_endpoint 1 (Some 1)); (2, mk_endpoint 2 (Some 2));
     (3, mk_endpoint 3 (Some 1)); (4, mk_endpoint 4 None)]
    [dev_0_1] 0 18446744073709547520 512 [].

(** The busy device after its snapshot has been loaded into a realized
    device and the post-load hook has run: the endpoint list of domain 1 is
    in another order, and every mapping tree has the one reference that
    [domain_preload] created it with. *)
Definition restored_busy_device : VirtIOIOMMU :=
  mk_viommu
    [(1, mk_domain 1 (Node Leaf (mk_interval 4096 8191) (mk_mapping 40960 3) Leaf)
                   1 [mk_cell 3 true; mk_cell 1 true]);
     (2, mk_domain 2 Leaf 1 [mk_cell 2 true])]
    [(1, mk_endpoint 1 (Some 1)); (2, mk_endpoint 2 (Some 2));
     (3, mk_endpoint 3 (Some 1)); (4, mk_endpoint 4 None)]
    [dev_0_1] 0 18446744073709547520 512 [].

(** A command whose interval, if it has one to store, is well formed. *)
Definition valid_command (c : command) : Prop :=
  match c with
  | CmdMap _ virt_start virt_end _ _ => virt_start <= virt_end
  | _ => True
  end.

(** [links_consistent] told through lookups, the form in which the
    handlers are followed. *)
Definition links_by_lookup (s : VirtIOIOMMU) : Prop :=
  keys_ascending (domains s) /\
  keys_ascending (endpoints s) /\
  (forall k d, tbl_lookup (domains s) k = Some d -> d_id d = k) /\
  (forall k e, tbl_lookup (endpoints s) k = Some e -> e_id e = k) /\
  (forall k d c, tbl_lookup (domains s) k = Some d -> In c (endpoint_list d) ->
     cell_canonical c = true /\
     tbl_lookup (endpoints s) (cell_id c) = Some (mk_endpoint (cell_id c) (Some k))) /\
  (forall k d, tbl_lookup (domains s) k = Some d -> NoDup (cell_ids d)) /\
  (forall k e did, tbl_lookup (endpoints s) k = Some e -> e_domain e = Some did ->
     exists d, tbl_lookup (domains s) did = Some d /\
               In (mk_cell k true) (endpoint_list d)).

(** ** Proof automation *)

(** Splits the five parts of a statement about the entry and the faults of
    one call of the translate callback. *)
Ltac translate_report_parts :=
  split; [reflexivity|split; [reflexivity|split; [now auto|split]]].

(** ** The wire format, written *)

(** Little-endian store of [n] bytes: [cpu_to_le32], [cpu_to_le64] followed
    by the copy into the buffer. *)
Fixpoint le_store (n : nat) (x : N) : list N :=
  match n with
  | O => []
  | S n' => x mod 256 :: le_store n' (x / 256)
  end.

(** Modelled from the spec: the bytes of a request as the driver lays them
    out (section 6): the head (type and three reserved bytes), the fields
    in little-endian order, the reserved bytes as zeros.  The tail is not
    part of the out-buffers. *)
Definition encode_command (c : command) : list N :=
  match c with
  | CmdAttach d e =>
      [VIRTIO_IOMMU_T_ATTACH; 0; 0; 0] ++ le_store 4 d ++ le_store 4 e ++ repeat 0 8
  | CmdDetach d e =>
      [VIRTIO_IOMMU_T_DETACH; 0; 0; 0] ++ le_store 4 d ++ le_store 4 e ++ repeat 0 8
  | CmdMap d vs ve p f =>
      [VIRTIO_IOMMU_T_MAP; 0; 0; 0] ++ le_store 4 d ++ le_store 8 vs
        ++ le_store 8 ve ++ le_store 8 p ++ le_store 4 f
  | CmdUnmap d vs ve =>
      [VIRTIO_IOMMU_T_UNMAP; 0; 0; 0] ++ le_store 4 d ++ le_store 8 vs
        ++ le_store 8 ve ++ repeat 0 4
  end.

(** The fields of a command fit the widths of the request structs. *)
Definition command_fits (c : command) : Prop :=
  match c with
  | CmdAttach d e | CmdDetach d e => d < 2 ^ 32 /\ e < 2 ^ 32
  | CmdMap d vs ve p f =>
      d < 2 ^ 32 /\ vs < two64 /\ ve < two64 /\ p < two64 /\ f < 2 ^ 32
  | CmdUnmap d vs ve => d < 2 ^ 32 /\ vs < two64 /\ ve < two64
  end.

(** The element was pushed back to the queue. *)
Definition elem_pushed (out : elem_outcome) : bool :=
  match out with
  | ElemPushed _ _ _ => true
  | _ => false
  end.

(** A notification sent to the region of one of the nodes: either a MAP
    entry (perm RW) or an UNMAP entry (perm NONE, translated address 0). *)
Definition sent_to_registered (nodes : list IOMMUDevice) (ev : event) : Prop :=
  (exists node, In node nodes /\ fst ev = iommu_mr node) /\
  (perm (snd ev) = IOMMU_RW \/
   perm (snd ev) = IOMMU_NONE /\ translated_addr (snd ev) = 0).

(** ** The notifier registry *)

Definition IOMMU_NOTIFIER_NONE : N := 0.

Definition set_notifiers (s : VirtIOIOMMU) (nodes : list IOMMUDevice) :=
  mk_viommu (domains s) (endpoints s) nodes (acked_features s)
            (page_size_mask s) (probe_size s) (reserved_regions s).

(** [node->iommu_dev == sdev]: the same device object. *)
Definition same_device (a b : IOMMUDevice) : bool :=
  (bus_num a =? bus_num b) && (devfn a =? devfn b) && (iommu_mr a =? iommu_mr b).

(** The [QLIST_FOREACH_SAFE] of [virtio_iommu_notify_flag_changed] when the
    new flags are NONE: the first node of the device is unlinked, and the
    walk returns. *)
Fixpoint remove_notifier_node (nodes : list IOMMUDevice) (sdev : IOMMUDevice)
  : list IOMMUDevice :=
  match nodes with
  | [] => []
  | node :: nodes' =>
      if same_device node sdev then nodes'
      else node :: remove_notifier_node nodes' sdev
  end.

(** [virtio_iommu_notify_flag_changed] for the region of [sdev]. *)
Definition virtio_iommu_notify_flag_changed (s : VirtIOIOMMU)
  (sdev : IOMMUDevice) (old new : N) : VirtIOIOMMU :=
  if old =? IOMMU_NOTIFIER_NONE
  then set_notifiers s (sdev :: notifiers_list s)
  else if new =? IOMMU_NOTIFIER_NONE
       then set_notifiers s (remove_notifier_node (notifiers_list s) sdev)
       else s.

(** ** Teardown *)

(** [virtio_iommu_put_endpoint], the value destructor of the endpoint
    tree. *)
Definition virtio_iommu_put_endpoint (s : VirtIOIOMMU) (ep : viommu_endpoint)
  : VirtIOIOMMU * list event :=
  match e_domain ep with
  | Some _ => virtio_iommu_detach_endpoint_from_domain s ep
  | None => (s, [])
  end.

(** [virtio_iommu_put_domain], the value destructor of the domain tree:
    the [QLIST_FOREACH_SAFE] over the endpoint list.  A canonical cell is
    the endpoint's own record, which sits in the endpoint tree under its
    id.  [None]: the walk meets a cell that is not such a record, which is
    outside the model. *)
Definition virtio_iommu_put_domain (s : VirtIOIOMMU) (d : viommu_domain)
  : option (VirtIOIOMMU * list event) :=
  fold_left (fun acc c =>
               match acc with
               | None => None
               | Some (s1, evs) =>
                   if cell_canonical c then
                     match tbl_lookup (endpoints s1) (cell_id c) with
                     | Some ep =>
                         let '(s2, evs2) :=
                           virtio_iommu_detach_endpoint_from_domain s1 ep in
                         Some (s2, evs ++ evs2)
                     | None => None
                     end
                   else None
               end)
            (endpoint_list d) (Some (s, [])).

(** [g_tree_destroy(s->domains)]: the destructor on each domain, in id
    order; the domain is read as the earlier calls left it. *)
Definition destroy_domains (s : VirtIOIOMMU)
  : option (VirtIOIOMMU * list event) :=
  fold_left (fun acc key =>
               match acc with
               | None => None
               | Some (s1, evs) =>
                   match tbl_lookup (domains s1) key with
                   | None => Some (s1, evs)
                   | Some d =>
                       match virtio_iommu_put_domain s1 d with
                       | None => None
                       | Some (s2, evs2) => Some (s2, evs ++ evs2)
                       end
                   end
               end)
            (map fst (domains s)) (Some (s, [])).

(** [g_tree_destroy(s->endpoints)], likewise. *)
Definition destroy_endpoints (s : VirtIOIOMMU) : VirtIOIOMMU * list event :=
  fold_left (fun acc key =>
               match tbl_lookup (endpoints (fst acc)) key with
               | None => acc
               | Some ep =>
                   let '(s2, evs2) := virtio_iommu_put_endpoint (fst acc) ep in
                   (s2, snd acc ++ evs2)
               end)
            (map fst (endpoints s)) (s, []).

(** [virtio_iommu_device_unrealize]: the domain tree is destroyed first,
    then the endpoint tree; the domains are gone when the endpoints'
    destructor runs. *)
Definition virtio_iommu_device_unrealize (s : VirtIOIOMMU)
  : option (VirtIOIOMMU * list event) :=
  match destroy_domains s with
  | None => None
  | Some (s1, evs1) =>
      let '(s2, evs2) := destroy_endpoints (set_domains s1 []) in
      Some (set_endpoints s2 [], evs1 ++ evs2)
  end.

(** ** Reference counts *)

(** The count of a mapping tree is one for the domain that owns it plus
    one per attached endpoint ([g_tree_ref] in ATTACH, [g_tree_unref] in
    [virtio_iommu_detach_endpoint_from_domain]). *)
Definition refs_counted (s : VirtIOIOMMU) : Prop :=
  forall k d, tbl_lookup (domains s) k = Some d ->
              mappings_ref d = 1 + N.of_nat (length (endpoint_list d)).

(** * Properties *)

(** ** Dropping a reference *)

Lemma g_tree_unref_cases (t : GTree) (ref : N) :
  (ref <= 1 /\ g_tree_unref t ref = (Leaf, 0)) \/
  (1 < ref /\ g_tree_unref t ref = (t, ref - 1)).
Proof.
  unfold g_tree_unref. destruct (N.eqb_spec (ref - 1) 0); [left|right];
    (split; [lia|reflexivity]).
Qed.

Lemma g_tree_unref_ordered (t : GTree) (ref : N) :
  ordered (inorder t) -> ordered (inorder (fst (g_tree_unref t ref))).
Proof.
  destruct (g_tree_unref_cases t ref) as [[_ ->]|[_ ->]]; simpl; tauto.
Qed.


(** ** The id-keyed trees *)

Lemma int_cmp_eqb (a b : N) : (int_cmp a b =? 0)%Z = (a =? b).
Proof.
  unfold int_cmp.
  destruct (N.ltb_spec b a), (N.ltb_spec a b), (N.eqb_spec a b);
    simpl; try reflexivity; lia.
Qed.

Lemma int_cmp_ltb (a b : N) : (int_cmp a b <? 0)%Z = (a <? b).
Proof.
  unfold int_cmp.
  destruct (N.ltb_spec b a), (N.ltb_spec a b); simpl; try reflexivity; lia.
Qed.

Section IdTreeFacts.
Context {V : Type}.
Implicit Types (t : list (N * V)) (k : N) (v : V).

Lemma tbl_lookup_insert_eq t k v : tbl_lookup (tbl_insert t k v) k = Some v.
Proof.
  induction t as [|[k' v'] t IH]; simpl.
  - rewrite int_cmp_eqb, N.eqb_refl. reflexivity.
  - rewrite int_cmp_eqb, int_cmp_ltb.
    destruct (N.eqb_spec k k') as [->|Hne]; simpl.
    + rewrite int_cmp_eqb, N.eqb_refl. reflexivity.
    + destruct (k <? k'); simpl.
      * rewrite int_cmp_eqb, N.eqb_refl. reflexivity.
      * rewrite int_cmp_eqb. destruct (N.eqb_spec k k'); [contradiction|exact IH].
Qed.

Lemma tbl_lookup_insert_ne t k k' v :
  k' <> k -> tbl_lookup (tbl_insert t k v) k' = tbl_lookup t k'.
Proof.
  intros Hne. induction t as [|[k0 v0] t IH]; simpl.
  - rewrite int_cmp_eqb. destruct (N.eqb_spec k' k); [contradiction|reflexivity].
  - rewrite (int_cmp_eqb k k0), int_cmp_ltb.
    destruct (N.eqb_spec k k0) as [->|Hk]; simpl.
    + rewrite !int_cmp_eqb.
      destruct (N.eqb_spec k' k0); [contradiction|reflexivity].
    + destruct (k <? k0); simpl.
      * rewrite (int_cmp_eqb k' k).
        destruct (N.eqb_spec k' k); [contradiction|reflexivity].
      * rewrite IH. reflexivity.
Qed.

Lemma tbl_lookup_In t k v : tbl_lookup t k = Some v -> In (k, v) t.
Proof.
  induction t as [|[k0 v0] t IH]; simpl; [discriminate|].
  rewrite int_cmp_eqb. destruct (N.eqb_spec k k0) as [->|Hne].
  - intros [= ->]. now left.
  - intros H. right. auto.
Qed.

Lemma tbl_In_lookup t k v :
  keys_ascending t -> In (k, v) t -> tbl_lookup t k = Some v.
Proof.
  induction t as [|[k0 v0] t IH]; simpl; [contradiction|].
  intros [Hall Hasc] [Heq|Hin].
  - injection Heq as -> ->. rewrite int_cmp_eqb, N.eqb_refl. reflexivity.
  - rewrite int_cmp_eqb. destruct (N.eqb_spec k k0) as [->|Hne]; [|auto].
    rewrite Forall_forall in Hall. specialize (Hall _ Hin). simpl in Hall. lia.
Qed.

Lemma tbl_insert_In t k v k' v' :
  In (k', v') (tbl_insert t k v) -> (k' = k /\ v' = v) \/ In (k', v') t.
Proof.
  induction t as [|[k0 v0] t IH]; simpl.
  - intros [[= <- <-]|[]]. now left.
  - destruct (int_cmp k k0 =? 0)%Z; [|destruct (int_cmp k k0 <? 0)%Z]; simpl.
    + intros [[= <- <-]|H]; [now left|right; now right].
    + intros [[= <- <-]|H]; [now left|now right].
    + intros [H|H]; [right; now left|].
      destruct (IH H) as [?|?]; [now left|right; now right].
Qed.

Lemma tbl_insert_ascending t k v :
  keys_ascending t -> keys_ascending (tbl_insert t k v).
Proof.
  induction t as [|[k0 v0] t IH]; simpl; [intros _; split; [constructor|exact I]|].
  intros [Hall Hasc]. rewrite int_cmp_eqb, int_cmp_ltb.
  destruct (N.eqb_spec k k0) as [->|Hne]; simpl; [now split|].
  destruct (N.ltb_spec k k0); simpl.
  - repeat split; auto. constructor; [simpl; lia|].
    eapply Forall_impl; [|exact Hall]. simpl. intros; lia.
  - split; [|auto]. rewrite Forall_forall in *. intros [k1 v1] Hin.
    apply tbl_insert_In in Hin. destruct Hin as [[-> _]|Hin]; simpl; [lia|].
    exact (Hall _ Hin).
Qed.
End IdTreeFacts.

(** ** The id-keyed trees: loading in ascending order *)

Lemma keys_ascending_app {V : Type} (t1 t2 : list (N * V)) :
  keys_ascending (t1 ++ t2) <->
  keys_ascending t1 /\ keys_ascending t2 /\
  (forall a b, In a t1 -> In b t2 -> fst a < fst b).
Proof.
  induction t1 as [|[k v] t1 IH]; simpl.
  - split; [intros H; repeat split; auto; intros ? ? []|tauto].
  - rewrite IH, Forall_app, !Forall_forall. split.
    + intros ((H1 & H2) & Ha1 & Ha2 & Hc). repeat split; auto.
      intros a b [<-|Ha] Hb; simpl; auto.
    + intros ((H1 & Ha1) & Ha2 & Hc). repeat split; auto.
      intros x Hx. apply (Hc (k, v) x); auto.
Qed.

Lemma keys_ascending_map {V W : Type} (f : N * V -> W) (t : list (N * V)) :
  keys_ascending (map (fun kv0 => (fst kv0, f kv0)) t) <-> keys_ascending t.
Proof.
  induction t as [|[k v] t IH]; simpl; [tauto|].
  rewrite IH, Forall_map. simpl. tauto.
Qed.

Lemma tbl_insert_above {V : Type} (t : list (N * V)) (k : N) (v : V) :
  (forall a, In a t -> fst a < k) -> tbl_insert t k v = t ++ [(k, v)].
Proof.
  induction t as [|[k0 v0] t IH]; simpl; [reflexivity|].
  intros Hlt. rewrite int_cmp_eqb, int_cmp_ltb.
  assert (k0 < k) by (apply (Hlt (k0, v0)); now left).
  destruct (N.eqb_spec k k0); [lia|]. destruct (N.ltb_spec k k0); [lia|].
  rewrite IH; auto.
Qed.

Lemma tbl_insert_inplace {V : Type} (t1 t2 : list (N * V)) (k : N) (v0 v : V) :
  (forall a, In a t1 -> fst a < k) ->
  tbl_insert (t1 ++ (k, v0) :: t2) k v = t1 ++ (k, v) :: t2.
Proof.
  induction t1 as [|[k1 v1] t1 IH]; simpl.
  - intros _. rewrite int_cmp_eqb, N.eqb_refl. reflexivity.
  - intros Hlt. rewrite int_cmp_eqb, int_cmp_ltb.
    assert (k1 < k) by (apply (Hlt (k1, v1)); now left).
    destruct (N.eqb_spec k k1); [lia|]. destruct (N.ltb_spec k k1); [lia|].
    rewrite IH; auto.
Qed.

Lemma fold_tbl_insert_ascending {A V : Type} (f : N * A -> V)
  (l : list (N * A)) (acc : list (N * V)) :
  keys_ascending (acc ++ map (fun ka => (fst ka, f ka)) l) ->
  fold_left (fun acc ka => tbl_insert acc (fst ka) (f ka)) l acc
  = acc ++ map (fun ka => (fst ka, f ka)) l.
Proof.
  revert acc. induction l as [|[k a] l IH]; intros acc Hasc; simpl.
  - now rewrite app_nil_r.
  - assert (Hstep : tbl_insert acc k (f (k, a)) = acc ++ [(k, f (k, a))]).
    { apply tbl_insert_above. intros x Hx.
      apply keys_ascending_app in Hasc. destruct Hasc as (_ & _ & Hc).
      apply (Hc x (k, f (k, a))); [assumption|now left]. }
    rewrite Hstep, IH; rewrite <- app_assoc; [reflexivity|exact Hasc].
Qed.

(** ** The comparator *)

Lemma interval_cmp_eq0 (a b : viommu_interval) :
  (interval_cmp a b =? 0)%Z = true <-> low b <= high a /\ low a <= high b.
Proof.
  unfold interval_cmp.
  destruct (N.ltb_spec (high a) (low b)), (N.ltb_spec (high b) (low a));
    simpl; split; try discriminate; try reflexivity; lia.
Qed.

Lemma interval_cmp_lt0 (a b : viommu_interval) :
  (interval_cmp a b <? 0)%Z = true <-> high a < low b.
Proof.
  unfold interval_cmp.
  destruct (N.ltb_spec (high a) (low b)), (N.ltb_spec (high b) (low a));
    simpl; split; try discriminate; try reflexivity; lia.
Qed.

Lemma interval_cmp_gt0 (a b : viommu_interval) :
  (interval_cmp a b =? 0)%Z = false -> (interval_cmp a b <? 0)%Z = false ->
  low b <= high a /\ high b < low a.
Proof.
  unfold interval_cmp.
  destruct (N.ltb_spec (high a) (low b)), (N.ltb_spec (high b) (low a));
    simpl; try discriminate; lia.
Qed.

(** For well-formed intervals, comparing equal is sharing a point. *)
Lemma interval_cmp_overlap (a b : viommu_interval) :
  iv_valid a -> iv_valid b ->
  ((interval_cmp a b =? 0)%Z = true <-> iv_overlap a b).
Proof.
  unfold iv_valid, iv_overlap. intros Ha Hb. rewrite interval_cmp_eq0. split.
  - intros [H1 H2]. exists (N.max (low a) (low b)). lia.
  - intros (x & H1 & H2). lia.
Qed.

(** ** Mapping trees: facts that need no order *)

Lemma lookup_extended_sound (t : GTree) (q k : viommu_interval) (v : viommu_mapping) :
  g_tree_lookup_extended t q = Some (k, v) ->
  In (k, v) (inorder t) /\ (interval_cmp q k =? 0)%Z = true.
Proof.
  induction t as [|l IHl k0 v0 r IHr]; simpl; [discriminate|].
  destruct (interval_cmp q k0 =? 0)%Z eqn:E0.
  - intros [= <- <-]. split; [apply in_or_app; right; now left|exact E0].
  - destruct (interval_cmp q k0 <? 0)%Z; intros H.
    + destruct (IHl H). split; [apply in_or_app; now left|assumption].
    + destruct (IHr H). split; [apply in_or_app; right; now right|assumption].
Qed.

Lemma g_tree_lookup_none (t : GTree) (q : viommu_interval) :
  g_tree_lookup t q = None <-> g_tree_lookup_extended t q = None.
Proof.
  unfold g_tree_lookup. destruct (g_tree_lookup_extended t q); simpl; split;
    congruence.
Qed.

Lemma inorder_join (l r : GTree) : inorder (join l r) = inorder l ++ inorder r.
Proof.
  induction l as [|ll IHll k v lr IHlr]; simpl; [reflexivity|].
  rewrite IHlr, <- app_assoc. reflexivity.
Qed.

(** ** Ordered sequences *)

Lemma ordered_app (l1 l2 : list kv) :
  ordered (l1 ++ l2) <->
  ordered l1 /\ ordered l2 /\
  (forall a b, In a l1 -> In b l2 -> iv_lt (fst a) (fst b)).
Proof.
  induction l1 as [|x l1 IH]; simpl.
  - split; [intros H; repeat split; auto; intros ? ? []|tauto].
  - rewrite IH, Forall_app, !Forall_forall. split.
    + intros (Hv & (H1 & H2) & Ho1 & Ho2 & Hc). repeat split; auto.
      intros a b [<-|Ha] Hb; auto.
    + intros ((Hv & H1 & Ho1) & Ho2 & Hc). repeat split; auto.
Qed.

Lemma ordered_valid (l : list kv) (a : kv) :
  ordered l -> In a l -> iv_valid (fst a).
Proof.
  induction l as [|x l IH]; simpl; [contradiction|].
  intros (Hv & _ & Ho) [<-|Hin]; auto.
Qed.

(** What [ordered] says around the root of a tree. *)
Lemma ordered_node (l r : GTree) (k : viommu_interval) (v : viommu_mapping) :
  ordered (inorder (Node l k v r)) ->
  ordered (inorder l) /\ ordered (inorder r) /\ iv_valid k /\
  (forall a, In a (inorder l) -> iv_lt (fst a) k) /\
  (forall b, In b (inorder r) -> iv_lt k (fst b)).
Proof.
  simpl. rewrite ordered_app. simpl. rewrite Forall_forall.
  intros (Hl & (Hv & Hr & Hor) & Hc). repeat split; auto.
  intros a Ha. apply (Hc a (k, v)); [assumption|now left].
Qed.

Lemma ordered_node_intro (l r : GTree) (k : viommu_interval) (v : viommu_mapping) :
  ordered (inorder l) -> ordered (inorder r) -> iv_valid k ->
  (forall a, In a (inorder l) -> iv_lt (fst a) k) ->
  (forall b, In b (inorder r) -> iv_lt k (fst b)) ->
  ordered (inorder (Node l k v r)).
Proof.
  intros Hl Hr Hv Hlk Hkr. simpl. rewrite ordered_app. simpl.
  rewrite Forall_forall. repeat split; auto.
  intros a b Ha [<-|Hb]; simpl; [auto|].
  specialize (Hlk _ Ha). specialize (Hkr _ Hb). unfold iv_lt, iv_valid in *. lia.
Qed.

(** An ordered sequence is pairwise non-overlapping. *)
Lemma ordered_disjoint (l : list kv) : ordered l -> pairwise_disjoint l.
Proof.
  unfold pairwise_disjoint.
  induction l as [|x l IH]; intros Ho i j a b Hi Hj Hne.
  - destruct i; discriminate.
  - simpl in Ho. destruct Ho as (Hv & Hall & Ho). rewrite Forall_forall in Hall.
    destruct i as [|i], j as [|j]; simpl in Hi, Hj.
    + congruence.
    + injection Hi as <-. apply nth_error_In in Hj. specialize (Hall _ Hj).
      intros (y & H1 & H2). unfold iv_lt in Hall. lia.
    + injection Hj as <-. apply nth_error_In in Hi. specialize (Hall _ Hi).
      intros (y & H1 & H2). unfold iv_lt in Hall. lia.
    + apply (IH Ho i j); auto.
Qed.

(** ** Mapping trees over ordered sequences *)

(** The lookup misses no stored key that compares equal to the query,
    whatever the query is. *)
Lemma lookup_extended_complete (t : GTree) (q : viommu_interval) (p : kv) :
  ordered (inorder t) -> In p (inorder t) ->
  (interval_cmp q (fst p) =? 0)%Z = true ->
  g_tree_lookup_extended t q <> None.
Proof.
  induction t as [|l IHl k v r IHr]; simpl; [contradiction|].
  intros Ho Hin Hq. apply ordered_node in Ho.
  destruct Ho as (Hol & Hor & Hv & Hlk & Hkr).
  destruct (interval_cmp q k =? 0)%Z eqn:E0; [discriminate|].
  pose proof (proj1 (interval_cmp_eq0 _ _) Hq) as Hq'.
  apply in_app_or in Hin. destruct Hin as [Hin|[<-|Hin]].
  - destruct (interval_cmp q k <? 0)%Z eqn:E1; [now apply IHl|].
    exfalso. destruct (interval_cmp_gt0 _ _ E0 E1) as [_ H2].
    specialize (Hlk _ Hin). unfold iv_lt, iv_valid in *. lia.
  - simpl in Hq. congruence.
  - destruct (interval_cmp q k <? 0)%Z eqn:E1; [|now apply IHr].
    exfalso. apply interval_cmp_lt0 in E1.
    specialize (Hkr _ Hin). unfold iv_lt, iv_valid in *. lia.
Qed.

(** ** Mapping trees: inserting above every stored key *)

Lemma ordered_snoc_inv (l : list kv) (p : kv) :
  ordered (l ++ [p]) ->
  ordered l /\ iv_valid (fst p) /\ (forall a, In a l -> iv_lt (fst a) (fst p)).
Proof.
  rewrite ordered_app. simpl. intros (Hl & (Hv & _) & Hc).
  split; [exact Hl|]. split; [exact Hv|].
  intros a Ha. apply Hc; [assumption|now left].
Qed.

Lemma insert_node_above (t : GTree) (k : viommu_interval) (v : viommu_mapping) :
  ordered (inorder t ++ [(k, v)]) ->
  inorder (insert_node t k v) = inorder t ++ [(k, v)].
Proof.
  induction t as [|l IHl k0 v0 r IHr]; simpl; [reflexivity|].
  intros Ho. rewrite <- app_assoc in Ho. simpl in Ho.
  apply ordered_app in Ho. destruct Ho as (Hol & Hor & Hc). simpl in Hor.
  destruct Hor as (Hv0 & Hall & Hor).
  assert (Hlt : iv_lt k0 k).
  { rewrite Forall_forall in Hall. apply (Hall (k, v)).
    apply in_or_app. right. now left. }
  assert (Hvk : iv_valid k).
  { apply ordered_snoc_inv in Hor. tauto. }
  unfold iv_lt, iv_valid in *.
  destruct (interval_cmp k k0 =? 0)%Z eqn:E0.
  { apply interval_cmp_eq0 in E0. lia. }
  destruct (interval_cmp k k0 <? 0)%Z eqn:E1.
  { apply interval_cmp_lt0 in E1. lia. }
  simpl. rewrite IHr by assumption. rewrite <- app_assoc. reflexivity.
Qed.

Lemma load_mappings_from (rebalance : GTree -> GTree) (l : list kv) (t : GTree) :
  keeps_inorder rebalance ->
  ordered (inorder t ++ l) ->
  inorder (fold_left (fun t p => g_tree_insert rebalance t (fst p) (snd p)) l t)
  = inorder t ++ l.
Proof.
  intros Hrb. revert t. induction l as [|[k v] l IH]; intros t Ho; simpl.
  - now rewrite app_nil_r.
  - assert (Hstep : inorder (g_tree_insert rebalance t k v) = inorder t ++ [(k, v)]).
    { unfold g_tree_insert. rewrite Hrb. apply insert_node_above.
      change ((k, v) :: l) with ([(k, v)] ++ l) in Ho. rewrite app_assoc in Ho.
      apply ordered_app in Ho. tauto. }
    rewrite IH; rewrite Hstep, <- app_assoc; [reflexivity|exact Ho].
Qed.

Lemma load_mappings_inorder (rebalance : GTree -> GTree) (t : GTree) :
  keeps_inorder rebalance -> ordered (inorder t) ->
  inorder (load_mappings rebalance (inorder t)) = inorder t.
Proof.
  intros Hrb Ho. unfold load_mappings.
  rewrite load_mappings_from by (try assumption; exact Ho). reflexivity.
Qed.

(** ** MAP and UNMAP on well-formed tables

    What follows shows the handlers at work when every stored key is well
    formed ([low <= high]) and the keys ascend: the states in which
    [interval_cmp] is a total order on the tree. *)

Lemma lookup_extended_none (t : GTree) (q : viommu_interval) :
  ordered (inorder t) ->
  (g_tree_lookup_extended t q = None <->
   forall p, In p (inorder t) -> (interval_cmp q (fst p) =? 0)%Z = false).
Proof.
  intros Ho. split.
  - intros Hnone p Hin. destruct (interval_cmp q (fst p) =? 0)%Z eqn:E; [|reflexivity].
    exfalso. exact (lookup_extended_complete t q p Ho Hin E Hnone).
  - intros Hall. destruct (g_tree_lookup_extended t q) as [[k v]|] eqn:E; [|reflexivity].
    destruct (lookup_extended_sound _ _ _ _ E) as [Hin Hc].
    specialize (Hall _ Hin). simpl in Hall. congruence.
Qed.

Lemma insert_node_ordered (t : GTree) (q : viommu_interval) (v : viommu_mapping) :
  ordered (inorder t) -> iv_valid q -> g_tree_lookup_extended t q = None ->
  ordered (inorder (insert_node t q v)) /\
  (forall p, In p (inorder (insert_node t q v)) <-> p = (q, v) \/ In p (inorder t)).
Proof.
  intros Ho Hq. induction t as [|l IHl k0 v0 r IHr]; simpl.
  - intros _. split; [repeat split; [exact Hq|constructor]|].
    intros p. split; [intros [<-|[]]; now left|intros [->|[]]; now left].
  - apply ordered_node in Ho. destruct Ho as (Hol & Hor & Hv & Hlk & Hkr).
    destruct (interval_cmp q k0 =? 0)%Z eqn:E0; [discriminate|].
    destruct (interval_cmp q k0 <? 0)%Z eqn:E1; intros Hnone.
    + destruct (IHl Hol Hnone) as [Ho' Hin']. split.
      * apply ordered_node_intro; auto.
        intros a Ha. apply Hin' in Ha. destruct Ha as [->|Ha]; [|auto].
        apply interval_cmp_lt0 in E1. exact E1.
      * intros p. simpl. rewrite !in_app_iff. simpl. rewrite Hin'. tauto.
    + destruct (IHr Hor Hnone) as [Ho' Hin']. split.
      * apply ordered_node_intro; auto.
        intros b Hb. apply Hin' in Hb. destruct Hb as [->|Hb]; [|auto].
        destruct (interval_cmp_gt0 _ _ E0 E1) as [_ H]. exact H.
      * intros p. simpl. rewrite !in_app_iff. simpl. rewrite Hin'. tauto.
Qed.

Lemma remove_node_ordered (t : GTree) (k : viommu_interval) (v : viommu_mapping) :
  ordered (inorder t) -> In (k, v) (inorder t) ->
  exists t' l1 l2,
    remove_node t k = Some t' /\
    inorder t = l1 ++ (k, v) :: l2 /\ inorder t' = l1 ++ l2.
Proof.
  induction t as [|l IHl k0 v0 r IHr]; simpl; [contradiction|].
  intros Ho Hin. apply ordered_node in Ho.
  destruct Ho as (Hol & Hor & Hv & Hlk & Hkr).
  apply in_app_or in Hin. destruct Hin as [Hin|[Heq|Hin]].
  - specialize (Hlk _ Hin). simpl in Hlk.
    pose proof (ordered_valid _ _ Hol Hin) as Hvk. simpl in Hvk.
    unfold iv_lt, iv_valid in *.
    destruct (interval_cmp k k0 =? 0)%Z eqn:E0;
      [apply interval_cmp_eq0 in E0; lia|].
    destruct (interval_cmp k k0 <? 0)%Z eqn:E1.
    2:{ destruct (interval_cmp_gt0 _ _ E0 E1). lia. }
    destruct (IHl Hol Hin) as (l' & l1 & l2 & -> & Hl & Hl').
    exists (Node l' k0 v0 r), l1, (l2 ++ (k0, v0) :: inorder r).
    split; [reflexivity|]. simpl. rewrite Hl, Hl', <- !app_assoc. auto.
  - injection Heq as -> ->. unfold iv_valid in Hv.
    destruct (interval_cmp k k =? 0)%Z eqn:E0.
    2:{ exfalso. assert (H : (interval_cmp k k =? 0)%Z = true)
          by (apply interval_cmp_eq0; lia). congruence. }
    exists (join l r), (inorder l), (inorder r).
    split; [reflexivity|]. split; [reflexivity|apply inorder_join].
  - specialize (Hkr _ Hin). simpl in Hkr.
    pose proof (ordered_valid _ _ Hor Hin) as Hvk. simpl in Hvk.
    unfold iv_lt, iv_valid in *.
    destruct (interval_cmp k k0 =? 0)%Z eqn:E0;
      [apply interval_cmp_eq0 in E0; lia|].
    destruct (interval_cmp k k0 <? 0)%Z eqn:E1;
      [apply interval_cmp_lt0 in E1; lia|].
    destruct (IHr Hor Hin) as (r' & l1 & l2 & -> & Hr & Hr').
    exists (Node l k0 v0 r'), (inorder l ++ (k0, v0) :: l1), l2.
    split; [reflexivity|]. simpl. rewrite Hr, Hr', <- !app_assoc. auto.
Qed.

Lemma ordered_remove (l1 l2 : list kv) (p : kv) :
  ordered (l1 ++ p :: l2) -> ordered (l1 ++ l2).
Proof.
  rewrite !ordered_app. simpl. intros (H1 & (_ & _ & H2) & Hc).
  split; [exact H1|]. split; [exact H2|].
  intros a b Ha Hb. apply Hc; [assumption|now right].
Qed.

(** On a well-formed table, MAP of a well-formed interval keeps the table
    well formed, and it answers INVAL exactly when a stored interval
    shares a point with the request. *)
Lemma map_on_ordered_table (rebalance : GTree -> GTree) (s : VirtIOIOMMU)
  (domain_id vs ve phys fl : N) (d : viommu_domain) :
  keeps_inorder rebalance -> tables_ordered s ->
  tbl_lookup (domains s) domain_id = Some d -> vs <= ve ->
  let '(st, s', _) := virtio_iommu_map rebalance s domain_id vs ve phys fl in
  tables_ordered s' /\
  (st = VIRTIO_IOMMU_S_INVAL <->
   exists p, In p (inorder (mappings d)) /\ iv_overlap (mk_interval vs ve) (fst p)) /\
  (st = VIRTIO_IOMMU_S_INVAL -> s' = s) /\
  (st <> VIRTIO_IOMMU_S_INVAL ->
   st = VIRTIO_IOMMU_S_OK /\
   exists d', tbl_lookup (domains s') domain_id = Some d' /\
     forall p, In p (inorder (mappings d')) <->
               p = (mk_interval vs ve, mk_mapping phys fl) \/ In p (inorder (mappings d))).
Proof.
  intros Hrb Hord Hd Hv. unfold virtio_iommu_map. rewrite Hd.
  pose proof (Hord _ _ Hd) as Ho.
  assert (Hiff : forall p, In p (inorder (mappings d)) ->
            ((interval_cmp (mk_interval vs ve) (fst p) =? 0)%Z = true
             <-> iv_overlap (mk_interval vs ve) (fst p))).
  { intros p Hin. apply interval_cmp_overlap; [exact Hv|].
    exact (ordered_valid _ _ Ho Hin). }
  destruct (g_tree_lookup (mappings d) (mk_interval vs ve)) as [m|] eqn:Elk.
  - split; [exact Hord|]. split; [|split; [reflexivity|intros H; now elim H]].
    split; [intros _|reflexivity].
    unfold g_tree_lookup in Elk.
    destruct (g_tree_lookup_extended (mappings d) _) as [[k v]|] eqn:E; [|discriminate].
    destruct (lookup_extended_sound _ _ _ _ E) as [Hin Hc].
    exists (k, v). split; [exact Hin|]. now apply Hiff.
  - apply g_tree_lookup_none in Elk.
    destruct (insert_node_ordered (mappings d) (mk_interval vs ve)
                                  (mk_mapping phys fl) Ho Hv Elk) as [Ho' Hin'].
    split; [|split; [|split]].
    + intros did d2. simpl. destruct (N.eq_dec did domain_id) as [->|Hne].
      * rewrite tbl_lookup_insert_eq. intros [= <-]. simpl.
        unfold g_tree_insert. rewrite Hrb. exact Ho'.
      * rewrite tbl_lookup_insert_ne by assumption. apply Hord.
    + split; [discriminate|]. intros (p & Hin & Hov). exfalso.
      apply Hiff in Hov; [|exact Hin].
      rewrite (proj1 (lookup_extended_none _ _ Ho) Elk p Hin) in Hov. discriminate.
    + discriminate.
    + intros _. split; [reflexivity|]. eexists. simpl.
      split; [apply tbl_lookup_insert_eq|]. simpl.
      unfold g_tree_insert. rewrite Hrb. exact Hin'.
Qed.




(** ** Command sequences whose MAP requests are well formed *)

Lemma detach_endpoint_keeps_ordered (s : VirtIOIOMMU) (ep : viommu_endpoint) :
  tables_ordered s ->
  tables_ordered (fst (virtio_iommu_detach_endpoint_from_domain s ep)).
Proof.
  intros Hord. unfold virtio_iommu_detach_endpoint_from_domain.
  destruct (e_domain ep) as [did|]; [|exact Hord].
  destruct (tbl_lookup (domains s) did) as [d0|] eqn:Ed; [|exact Hord].
  intros did' d. simpl. destruct (N.eq_dec did' did) as [->|Hne].
  - rewrite tbl_lookup_insert_eq. intros [= <-]. simpl.
    apply g_tree_unref_ordered. exact (Hord _ _ Ed).
  - rewrite tbl_lookup_insert_ne by assumption. apply Hord.
Qed.

Lemma attach_keeps_ordered (s : VirtIOIOMMU) (domain_id ep_id : N) :
  tables_ordered s ->
  tables_ordered (snd (fst (virtio_iommu_attach s domain_id ep_id))).
Proof.
  intros Hord. unfold virtio_iommu_attach.
  assert (H1 : tables_ordered (fst (virtio_iommu_get_endpoint s ep_id))).
  { unfold virtio_iommu_get_endpoint.
    destruct (tbl_lookup (endpoints s) ep_id); exact Hord. }
  destruct (virtio_iommu_get_endpoint s ep_id) as [s1 ep]. simpl in H1.
  assert (H2 : tables_ordered
                 (fst (match e_domain ep with
                       | Some _ => virtio_iommu_detach_endpoint_from_domain s1 ep
                       | None => (s1, [])
                       end))).
  { destruct (e_domain ep); [now apply detach_endpoint_keeps_ordered|exact H1]. }
  destruct (match e_domain ep with
            | Some _ => virtio_iommu_detach_endpoint_from_domain s1 ep
            | None => (s1, [])
            end) as [s2 evs]. simpl in H2.
  assert (H3 : tables_ordered (fst (virtio_iommu_get_domain s2 domain_id)) /\
               ordered (inorder (mappings (snd (virtio_iommu_get_domain s2 domain_id))))).
  { unfold virtio_iommu_get_domain.
    destruct (tbl_lookup (domains s2) domain_id) as [d|] eqn:Ed; simpl.
    - split; [exact H2|exact (H2 _ _ Ed)].
    - split; [|exact I]. intros did' d. simpl.
      destruct (N.eq_dec did' domain_id) as [->|Hne].
      + rewrite tbl_lookup_insert_eq. intros [= <-]. exact I.
      + rewrite tbl_lookup_insert_ne by assumption. apply H2. }
  destruct (virtio_iommu_get_domain s2 domain_id) as [s3 domain].
  destruct H3 as [H3 H4]. simpl in *.
  intros did' d. simpl. destruct (N.eq_dec did' domain_id) as [->|Hne].
  - rewrite tbl_lookup_insert_eq. intros [= <-]. exact H4.
  - rewrite tbl_lookup_insert_ne by assumption. apply H3.
Qed.

Lemma detach_keeps_ordered (s : VirtIOIOMMU) (domain_id ep_id : N) :
  tables_ordered s ->
  tables_ordered (snd (fst (virtio_iommu_detach s domain_id ep_id))).
Proof.
  intros Hord. unfold virtio_iommu_detach.
  destruct (tbl_lookup (endpoints s) ep_id) as [ep|]; [|exact Hord].
  destruct (e_domain ep) eqn:Edom; [|exact Hord].
  pose proof (detach_endpoint_keeps_ordered s ep Hord) as H.
  destruct (virtio_iommu_detach_endpoint_from_domain s ep) as [s' evs]. exact H.
Qed.

Lemma map_keeps_ordered (rebalance : GTree -> GTree) (s : VirtIOIOMMU)
  (domain_id vs ve phys fl : N) :
  keeps_inorder rebalance -> tables_ordered s -> vs <= ve ->
  tables_ordered (snd (fst (virtio_iommu_map rebalance s domain_id vs ve phys fl))).
Proof.
  intros Hrb Hord Hv.
  destruct (tbl_lookup (domains s) domain_id) as [d|] eqn:Ed.
  - pose proof (map_on_ordered_table rebalance s domain_id vs ve phys fl d
                                     Hrb Hord Ed Hv) as H.
    destruct (virtio_iommu_map rebalance s domain_id vs ve phys fl) as [[st s'] evs].
    tauto.
  - unfold virtio_iommu_map. rewrite Ed. exact Hord.
Qed.

Lemma unmap_loop_keeps_ordered (rebalance : GTree -> GTree)
  (after_free : viommu_interval -> viommu_interval) (fuel : nat)
  (nodes : list IOMMUDevice) (cells : list ep_cell) (t : GTree)
  (q : viommu_interval) (sent : list event) (ret : N) (t' : GTree)
  (evs : list event) :
  keeps_inorder rebalance -> ordered (inorder t) ->
  unmap_loop rebalance after_free fuel nodes cells t q sent = Some (ret, t', evs) ->
  ordered (inorder t').
Proof.
  intros Hrb. revert t sent.
  induction fuel as [|fuel IH]; intros t sent Ho; [discriminate|].
  cbn [unmap_loop].
  destruct (g_tree_lookup_extended t q) as [[k v]|] eqn:Elk.
  - destruct ((low q <=? low k) && (high k <=? high q)).
    + destruct (lookup_extended_sound _ _ _ _ Elk) as [Hin _].
      destruct (remove_node_ordered t k v Ho Hin) as (t1 & l1 & l2 & Hrm & Hl & Hl1).
      unfold virtio_iommu_remove_mapping, g_tree_remove. rewrite Hrm.
      apply IH. rewrite Hrb, Hl1. rewrite Hl in Ho. now apply ordered_remove in Ho.
    + intros [= _ <- _]. exact Ho.
  - intros [= _ <- _]. exact Ho.
Qed.

Lemma unmap_keeps_ordered (rebalance : GTree -> GTree)
  (after_free : viommu_interval -> viommu_interval) (fuel : nat)
  (s : VirtIOIOMMU) (domain_id vs ve : N) (r : handler_result) :
  keeps_inorder rebalance -> tables_ordered s ->
  virtio_iommu_unmap rebalance after_free fuel s domain_id vs ve = Some r ->
  tables_ordered (snd (fst r)).
Proof.
  intros Hrb Hord. unfold virtio_iommu_unmap.
  destruct (tbl_lookup (domains s) domain_id) as [d|] eqn:Ed.
  - destruct (unmap_loop rebalance after_free fuel _ _ _ _ _) as [[[ret t'] evs]|] eqn:El;
      [|discriminate].
    intros [= <-]. intros did' d'. simpl.
    destruct (N.eq_dec did' domain_id) as [->|Hne].
    + rewrite tbl_lookup_insert_eq. intros [= <-]. simpl.
      exact (unmap_loop_keeps_ordered _ _ _ _ _ _ _ _ _ _ _ Hrb (Hord _ _ Ed) El).
    + rewrite tbl_lookup_insert_ne by assumption. apply Hord.
  - intros [= <-]. exact Hord.
Qed.

(** With every MAP request well formed, the mapping tables stay well
    formed and ascending along any command sequence. *)
Lemma run_commands_keep_ordered (rebalance : GTree -> GTree)
  (after_free : viommu_interval -> viommu_interval) (fuel : nat)
  (cs : list command) (s : VirtIOIOMMU) (sts : list N) (s' : VirtIOIOMMU)
  (evs : list event) :
  keeps_inorder rebalance -> tables_ordered s -> Forall valid_command cs ->
  run_commands rebalance after_free fuel s cs = Some (sts, s', evs) ->
  tables_ordered s'.
Proof.
  intros Hrb. revert s sts s' evs.
  induction cs as [|c cs IH]; intros s sts s' evs Hord Hval; simpl.
  - intros [= _ <- _]. exact Hord.
  - inversion Hval as [|c0 cs0 Hc Hcs]; subst.
    destruct (run_command rebalance after_free fuel s c) as [[[st s1] evs1]|] eqn:Ec;
      [|discriminate].
    assert (Hord1 : tables_ordered s1).
    { destruct c as [d e|d e|d vs ve p f|d vs ve]; simpl in Ec, Hc.
      - injection Ec as Ec. pose proof (attach_keeps_ordered s d e Hord) as H.
        rewrite Ec in H. exact H.
      - injection Ec as Ec. pose proof (detach_keeps_ordered s d e Hord) as H.
        rewrite Ec in H. exact H.
      - injection Ec as Ec.
        pose proof (map_keeps_ordered rebalance s d vs ve p f Hrb Hord Hc) as H.
        rewrite Ec in H. exact H.
      - exact (unmap_keeps_ordered rebalance after_free fuel s d vs ve _ Hrb Hord Ec). }
    destruct (run_commands rebalance after_free fuel s1 cs) as [[[sts1 s2] evs2]|] eqn:Er;
      [|discriminate].
    intros [= _ <- _]. exact (IH _ _ _ _ Hord1 Hcs Er).
Qed.

(** Hence, from the realized device and with every MAP request well
    formed, no two intervals of a domain ever share a point. *)
Lemma valid_commands_keep_disjoint (rebalance : GTree -> GTree)
  (after_free : viommu_interval -> viommu_interval) (fuel : nat)
  (nodes : list IOMMUDevice) (features mask : N) (regions : list ReservedRegion)
  (cs : list command) (sts : list N) (s' : VirtIOIOMMU) (evs : list event)
  (did : N) (d : viommu_domain) :
  keeps_inorder rebalance -> Forall valid_command cs ->
  run_commands rebalance after_free fuel (realized nodes features mask regions) cs
    = Some (sts, s', evs) ->
  tbl_lookup (domains s') did = Some d ->
  pairwise_disjoint (inorder (mappings d)).
Proof.
  intros Hrb Hval Hrun Hd. apply ordered_disjoint.
  refine (run_commands_keep_ordered rebalance after_free fuel cs _ sts s' evs Hrb _ Hval Hrun did d Hd).
  intros did' d' Hl. discriminate.
Qed.

(** What the lookup of the translate callback does find on a well-formed
    table, away from the top of the address range: a stored interval that
    covers the address or the address after it. *)
Lemma translate_lookup_on_ordered (t : GTree) (addr : N) :
  ordered (inorder t) -> addr < UINT64_MAX ->
  (g_tree_lookup_extended t (mk_interval addr (add64 addr 1)) <> None <->
   exists p, In p (inorder t) /\
             (iv_covers (fst p) addr \/ iv_covers (fst p) (addr + 1))).
Proof.
  intros Ho Hlt.
  assert (Hadd : add64 addr 1 = addr + 1).
  { unfold add64. apply N.mod_small. unfold UINT64_MAX, two64 in *. lia. }
  rewrite Hadd. split.
  - destruct (g_tree_lookup_extended t _) as [[k v]|] eqn:E; [intros _|congruence].
    destruct (lookup_extended_sound _ _ _ _ E) as [Hin Hc].
    apply interval_cmp_eq0 in Hc. simpl in Hc.
    pose proof (ordered_valid _ _ Ho Hin) as Hv. unfold iv_valid in Hv. simpl in Hv.
    exists (k, v). split; [exact Hin|]. unfold iv_covers. simpl. lia.
  - intros (p & Hin & Hcov).
    apply (lookup_extended_complete t _ p Ho Hin).
    apply interval_cmp_eq0. unfold iv_covers in Hcov. simpl. lia.
Qed.

(** ** The example states are reachable *)

Lemma one_page_device_reachable :
  run_commands no_rotation no_reuse 0 fresh_device
               [CmdAttach 1 1; CmdMap 1 4096 8191 40960 3]
  = Some ([VIRTIO_IOMMU_S_OK; VIRTIO_IOMMU_S_OK], one_page_device,
          [virtio_iommu_notify_map 7 4096 40960 4096]).
Proof. vm_compute. reflexivity. Qed.

Lemma inverted_key_device_reachable :
  run_commands no_rotation no_reuse 0 fresh_device
               [CmdAttach 1 1; CmdMap 1 100 0 4096 3]
  = Some ([VIRTIO_IOMMU_S_OK; VIRTIO_IOMMU_S_OK], inverted_key_device,
          [virtio_iommu_notify_map 7 100 4096 (add64 (sub64 0 100) 1)]).
Proof. vm_compute. reflexivity. Qed.

Lemma busy_device_reachable :
  run_commands no_rotation no_reuse 0 fresh_device
    [CmdAttach 1 3; CmdAttach 1 1; CmdAttach 2 2; CmdAttach 2 4; CmdDetach 2 4;
     CmdMap 1 4096 8191 40960 3]
  = Some ([0; 0; 0; 0; 0; 0], busy_device,
          [virtio_iommu_notify_map 7 4096 40960 4096]).
Proof. vm_compute. reflexivity. Qed.

(** The restored busy device, computed. *)
Lemma busy_device_restored :
  snapshot_restore no_rotation fresh_device (snapshot_save busy_device)
  = restored_busy_device.
Proof. vm_compute. reflexivity. Qed.

(** ** C1: what a granted translation stands on *)

(** C1 (counterexample).  With BYPASS negotiated and no endpoint created,
    the translation of address 0xdead for endpoint 0x200 is granted
    (perm = WO, not 0), while the endpoint is unknown: there is no domain
    and no interval behind the result. *)
Lemma translate_bypass_has_no_interval :
  let s := realized [] 8 18446744073709547520 [] in
  let dev := mk_dev 2 0 9 in
  let r := virtio_iommu_translate s dev 57005 IOMMU_WO in
  perm (fst r) <> 0 /\
  ~ (exists ep did d p,
        tbl_lookup (endpoints s) (virtio_iommu_get_sid dev) = Some ep /\
        e_domain ep = Some did /\
        tbl_lookup (domains s) did = Some d /\
        In p (inorder (mappings d)) /\
        iv_covers (fst p) 57005 /\
        translated_addr (fst r)
          = add64 (sub64 57005 (low (fst p))) (phys_addr (snd p))).
Proof.
  cbv zeta. split.
  - vm_compute. discriminate.
  - intros (ep & did & d & p & Hep & _). vm_compute in Hep. discriminate.
Qed.

(** C1 (amended).  Whenever the returned entry has perm <> 0, perm is the
    requested access, no fault is reported, and either the translation is
    the identity (the endpoint is unknown or unattached and BYPASS is
    negotiated, or the address lies in an MSI reserved region), or the
    endpoint's domain stores a pair (interval, mapping), the one the lookup
    of [addr, addr + 1] returned, with
    translated_addr = addr - interval.low + mapping.phys_addr; the mapping
    allows the requested access, and the interval covers the address
    unless it starts at addr + 1. *)
Theorem translate_granted (s : VirtIOIOMMU) (sdev : IOMMUDevice) (addr flag : N) :
  let r := virtio_iommu_translate s sdev addr flag in
  let sid := virtio_iommu_get_sid sdev in
  perm (fst r) <> IOMMU_NONE ->
  perm (fst r) = flag /\ snd r = [] /\
  ((translated_addr (fst r) = addr /\
    ((virtio_has_feature (acked_features s) VIRTIO_IOMMU_F_BYPASS = true /\
      (tbl_lookup (endpoints s) sid = None \/
       exists ep, tbl_lookup (endpoints s) sid = Some ep /\ e_domain ep = None)) \/
     (exists reg, find_reserved (reserved_regions s) addr = Some reg /\
                  r_type reg = VIRTIO_IOMMU_RESV_MEM_T_MSI)))
   \/
   (exists ep did d k v,
       tbl_lookup (endpoints s) sid = Some ep /\
       e_domain ep = Some did /\
       tbl_lookup (domains s) did = Some d /\
       g_tree_lookup_extended (mappings d) (mk_interval addr (add64 addr 1))
         = Some (k, v) /\
       In (k, v) (inorder (mappings d)) /\
       translated_addr (fst r) = add64 (sub64 addr (low k)) (phys_addr v) /\
       (N.land flag IOMMU_RO <> 0 -> N.land (flags v) VIRTIO_IOMMU_MAP_F_READ <> 0) /\
       (N.land flag IOMMU_WO <> 0 -> N.land (flags v) VIRTIO_IOMMU_MAP_F_WRITE <> 0) /\
       (low k <> addr + 1 -> iv_covers k addr))).
Proof.
  cbv zeta. unfold virtio_iommu_translate.
  destruct (tbl_lookup (endpoints s) (virtio_iommu_get_sid sdev)) as [ep|] eqn:Eep.
  2:{ destruct (virtio_has_feature _ _) eqn:Eb; simpl; intros H;
        [|contradiction].
      repeat split; auto. left. split; [reflexivity|]. left. auto. }
  destruct (find_reserved (reserved_regions s) addr) as [reg|] eqn:Ereg.
  { destruct (N.eqb_spec (r_type reg) VIRTIO_IOMMU_RESV_MEM_T_MSI) as [Em|Em];
      simpl; intros H; [|contradiction].
    repeat split; auto. left. split; [reflexivity|]. right. eauto. }
  destruct (e_domain ep) as [did|] eqn:Edom.
  2:{ destruct (virtio_has_feature _ _) eqn:Eb; simpl; intros H;
        [|contradiction].
      repeat split; auto. left. split; [reflexivity|]. left. split; [reflexivity|].
      right. eauto. }
  destruct (tbl_lookup (domains s) did) as [d|] eqn:Ed;
    [|simpl; intros H; contradiction].
  destruct (g_tree_lookup_extended (mappings d) _) as [[k v]|] eqn:Elk;
    [|simpl; intros H; contradiction].
  set (rf := negb (N.land flag IOMMU_RO =? 0) &&
             (N.land (flags v) VIRTIO_IOMMU_MAP_F_READ =? 0)).
  set (wf := negb (N.land flag IOMMU_WO =? 0) &&
             (N.land (flags v) VIRTIO_IOMMU_MAP_F_WRITE =? 0)).
  assert (Hfl : (N.lor (if rf then VIRTIO_IOMMU_FAULT_F_READ else 0)
                       (if wf then VIRTIO_IOMMU_FAULT_F_WRITE else 0) =? 0)
                = negb rf && negb wf).
  { destruct rf, wf; reflexivity. }
  rewrite Hfl. destruct rf eqn:Erf; [simpl; intros H; contradiction|].
  destruct wf eqn:Ewf; [simpl; intros H; contradiction|].
  simpl. intros _. repeat split; auto. right.
  destruct (lookup_extended_sound _ _ _ _ Elk) as [Hin Hcmp].
  exists ep, did, d, k, v. repeat split; auto.
  - intros Hro. subst rf. apply andb_false_iff in Erf. destruct Erf as [E|E].
    + apply negb_false_iff, N.eqb_eq in E. contradiction.
    + apply N.eqb_neq in E. exact E.
  - intros Hwo. subst wf. apply andb_false_iff in Ewf. destruct Ewf as [E|E].
    + apply negb_false_iff, N.eqb_eq in E. contradiction.
    + apply N.eqb_neq in E. exact E.
  - apply interval_cmp_eq0 in Hcmp. simpl in Hcmp.
    assert (add64 addr 1 <= addr + 1).
    { unfold add64. apply N.Div0.mod_le. }
    lia.
  - apply interval_cmp_eq0 in Hcmp. simpl in Hcmp. lia.
Qed.

(** The amended C1 on the happy path of the specification: endpoint 1,
    mapping [0x1000, 0x1fff] -> 0xa000, a read of 0x1abc. *)
Lemma translate_granted_witness :
  perm (fst (virtio_iommu_translate one_page_device dev_0_1 6844 IOMMU_RO))
    <> IOMMU_NONE /\
  exists k v,
    In (k, v) (inorder (Node Leaf (mk_interval 4096 8191) (mk_mapping 40960 3) Leaf)) /\
    translated_addr (fst (virtio_iommu_translate one_page_device dev_0_1 6844 IOMMU_RO))
      = add64 (sub64 6844 (low k)) (phys_addr v) /\
    iv_covers k 6844.
Proof.
  split; [vm_compute; discriminate|].
  destruct (translate_granted one_page_device dev_0_1 6844 IOMMU_RO)
    as (_ & _ & [[_ [[Hb _]|(reg & Hr & _)]]|
                 (ep & did & d & k & v & Hep & Hdom & Hd & _ & Hin & Ht & _ & _ & Hc)]).
  - vm_compute. discriminate.
  - vm_compute in Hb. discriminate.
  - vm_compute in Hr. discriminate.
  - vm_compute in Hep. injection Hep as <-. simpl in Hdom. injection Hdom as <-.
    vm_compute in Hd. injection Hd as <-.
    exists k, v. split; [exact Hin|]. split; [exact Ht|].
    apply Hc. simpl in Hin. destruct Hin as [[= <- <-]|[]]. simpl. lia.
Defined.

(** ** C2: overlapping keys in a reachable state *)

(** C2 (code at the failing input).  From the realized device, ATTACH(1, 1),
    MAP(1, 100, 0), MAP(1, 10, 20) and MAP(1, 15, 200) all return OK, and
    domain 1 then holds both [10, 20] and [15, 200], which share the points
    15..20.  MAP never compares [virt_start] with [virt_end]; the key
    (100, 0) sits at the root and sends the third lookup to the right,
    away from [10, 20].  The three keys go to the root, its left and its
    right child, so that no rotation takes place. *)
Theorem map_admits_overlapping_intervals :
  exists s d,
    run_commands no_rotation no_reuse 0 fresh_device
      [CmdAttach 1 1; CmdMap 1 100 0 4096 3; CmdMap 1 10 20 8192 3;
       CmdMap 1 15 200 12288 3]
    = Some ([VIRTIO_IOMMU_S_OK; VIRTIO_IOMMU_S_OK; VIRTIO_IOMMU_S_OK;
             VIRTIO_IOMMU_S_OK], s,
            [virtio_iommu_notify_map 7 100 4096 (add64 (sub64 0 100) 1);
             virtio_iommu_notify_map 7 10 8192 11;
             virtio_iommu_notify_map 7 15 12288 186]) /\
    tbl_lookup (domains s) 1 = Some d /\
    In (mk_interval 10 20, mk_mapping 8192 3) (inorder (mappings d)) /\
    In (mk_interval 15 200, mk_mapping 12288 3) (inorder (mappings d)) /\
    iv_overlap (mk_interval 10 20) (mk_interval 15 200) /\
    ~ pairwise_disjoint (inorder (mappings d)).
Proof.
  eexists. eexists. split; [vm_compute; reflexivity|].
  split; [vm_compute; reflexivity|].
  assert (Hov : iv_overlap (mk_interval 10 20) (mk_interval 15 200)).
  { exists 15. simpl. lia. }
  simpl. repeat split.
  - now left.
  - right. right. now left.
  - exact Hov.
  - intros Hd. apply (Hd 0%nat 2%nat _ _ eq_refl eq_refl); [discriminate|exact Hov].
Qed.

(** ** C3: UNMAP on a table that holds an inverted key *)

Lemma unmap_loop_inverted_key
  (after_free : viommu_interval -> viommu_interval) (fuel : nat)
  (sent : list event) :
  unmap_loop no_rotation after_free fuel [dev_0_1] [mk_cell 1 true]
             (Node Leaf (mk_interval 100 0) (mk_mapping 4096 3) Leaf)
             (mk_interval 0 200) sent = None.
Proof.
  revert sent. induction fuel as [|fuel IH]; intros sent; [reflexivity|].
  cbn [unmap_loop]. 
  change (g_tree_lookup_extended _ (mk_interval 0 200))
    with (Some (mk_interval 100 0, mk_mapping 4096 3)).
  cbv beta iota.
  change (low (mk_interval 0 200) <=? low (mk_interval 100 0)) with true.
  change (high (mk_interval 100 0) <=? high (mk_interval 0 200)) with true.
  cbn [andb]. unfold virtio_iommu_remove_mapping.
  change (g_tree_remove no_rotation _ (mk_interval 100 0))
    with (Node Leaf (mk_interval 100 0) (mk_mapping 4096 3) Leaf).
  apply IH.
Qed.

(** C3 (code at the failing input).  ATTACH(1, 1) and MAP(1, 100, 0) both
    return OK.  In the state they reach, the request UNMAP(1, 0, 200) finds the key
    (100, 0), which passes the handler's containment test
    (0 <= 100 and 200 >= 0); [g_tree_remove] then compares the key with
    itself, gets -1 since its high end is below its low end, and removes
    nothing.  The loop meets the same key again at every turn: for no
    number of iterations does the handler return a status. *)
Theorem unmap_never_returns :
  run_commands no_rotation no_reuse 0 fresh_device [CmdAttach 1 1; CmdMap 1 100 0 4096 3]
    = Some ([VIRTIO_IOMMU_S_OK; VIRTIO_IOMMU_S_OK], inverted_key_device,
            [virtio_iommu_notify_map 7 100 4096 (add64 (sub64 0 100) 1)]) /\
  g_tree_lookup_extended (Node Leaf (mk_interval 100 0) (mk_mapping 4096 3) Leaf)
                         (mk_interval 0 200)
    = Some (mk_interval 100 0, mk_mapping 4096 3) /\
  remove_node (Node Leaf (mk_interval 100 0) (mk_mapping 4096 3) Leaf)
              (mk_interval 100 0) = None /\
  forall after_free fuel,
    virtio_iommu_unmap no_rotation after_free fuel inverted_key_device 1 0 200
    = None.
Proof.
  split; [vm_compute; reflexivity|]. split; [reflexivity|]. split; [reflexivity|].
  intros after_free fuel. unfold virtio_iommu_unmap.
  change (tbl_lookup (domains inverted_key_device) 1)
    with (Some (mk_domain 1 (Node Leaf (mk_interval 100 0) (mk_mapping 4096 3) Leaf)
                          2 [mk_cell 1 true])).
  cbv beta iota. simpl notifiers_list. simpl endpoint_list. simpl mappings.
  rewrite unmap_loop_inverted_key. reflexivity.
Qed.

(** ** C4: MAP on a table that holds an inverted key *)

(** C4 (code at the failing input).  After ATTACH(1, 1), MAP(1, 100, 0) and
    MAP(1, 10, 20), domain 1 holds the interval [10, 20]; the request
    MAP(1, 15, 200) overlaps it, and the handler returns OK and inserts
    the new interval instead of returning INVAL. *)
Theorem map_misses_existing_overlap :
  exists s d,
    run_commands no_rotation no_reuse 0 fresh_device
      [CmdAttach 1 1; CmdMap 1 100 0 4096 3; CmdMap 1 10 20 8192 3]
    = Some ([VIRTIO_IOMMU_S_OK; VIRTIO_IOMMU_S_OK; VIRTIO_IOMMU_S_OK], s,
            [virtio_iommu_notify_map 7 100 4096 (add64 (sub64 0 100) 1);
             virtio_iommu_notify_map 7 10 8192 11]) /\
    tbl_lookup (domains s) 1 = Some d /\
    In (mk_interval 10 20, mk_mapping 8192 3) (inorder (mappings d)) /\
    iv_overlap (mk_interval 15 200) (mk_interval 10 20) /\
    g_tree_lookup (mappings d) (mk_interval 15 200) = None /\
    fst (fst (virtio_iommu_map no_rotation s 1 15 200 12288 3)) = VIRTIO_IOMMU_S_OK.
Proof.
  eexists. eexists. split; [vm_compute; reflexivity|].
  split; [vm_compute; reflexivity|].
  simpl. repeat split.
  - now left.
  - exists 15. simpl. lia.
Qed.

(** ** C5: the lookup of the translate callback *)

(** C5 (code at the failing inputs).  The translate callback looks up the
    interval [addr, addr + 1].  In the state reached by ATTACH(1, 1) and
    MAP(1, 0x1000, 0x1fff, 0xa000, RW), with the one stored interval
    [0x1000, 0x1fff], the lookup for address 0xfff returns that interval
    although no stored interval covers 0xfff, and the callback grants
    the access with the address 0x9fff, one below the mapped physical
    range.  With the one stored interval [0x1000, 2^64-1], the lookup for
    address 2^64-1, whose [addr + 1] wraps to 0, returns nothing although
    the stored interval covers the address. *)
Theorem translate_lookup_off_by_one :
  let t := Node Leaf (mk_interval 4096 8191) (mk_mapping 40960 3) Leaf in
  let t' := Node Leaf (mk_interval 4096 UINT64_MAX) (mk_mapping 40960 3) Leaf in
  (run_commands no_rotation no_reuse 0 fresh_device
                [CmdAttach 1 1; CmdMap 1 4096 8191 40960 3]
   = Some ([VIRTIO_IOMMU_S_OK; VIRTIO_IOMMU_S_OK], one_page_device,
           [virtio_iommu_notify_map 7 4096 40960 4096]) /\
   ordered (inorder t) /\
   g_tree_lookup_extended t (mk_interval 4095 (add64 4095 1))
     = Some (mk_interval 4096 8191, mk_mapping 40960 3) /\
   (forall p, In p (inorder t) -> ~ iv_covers (fst p) 4095) /\
   virtio_iommu_translate one_page_device dev_0_1 4095 IOMMU_RO
     = (mk_entry 4095 40959 4095 IOMMU_RO, [])) /\
  (ordered (inorder t') /\
   g_tree_lookup_extended t' (mk_interval UINT64_MAX (add64 UINT64_MAX 1)) = None /\
   iv_covers (mk_interval 4096 UINT64_MAX) UINT64_MAX).
Proof.
  cbv zeta. split; [split; [|split; [|split; [|split]]]|split; [|split]].
  - vm_compute. reflexivity.
  - simpl. unfold iv_valid. simpl. repeat split; [lia|constructor].
  - vm_compute. reflexivity.
  - simpl. intros p [<-|[]]. unfold iv_covers. simpl. lia.
  - vm_compute. reflexivity.
  - simpl. unfold iv_valid, UINT64_MAX. simpl. repeat split; [lia|constructor].
  - vm_compute. reflexivity.
  - unfold iv_covers, UINT64_MAX. simpl. lia.
Qed.

(** ** C6: DETACH *)

Lemma foreach_unmap_all (s : VirtIOIOMMU) (ep_id : N) (t : GTree) :
  foreach_notifier_of s ep_id virtio_iommu_mapping_unmap t = unmap_all s ep_id t.
Proof. reflexivity. Qed.

Lemma foreach_map_all (s : VirtIOIOMMU) (ep_id : N) (t : GTree) :
  foreach_notifier_of s ep_id virtio_iommu_mapping_map t = map_all s ep_id t.
Proof. reflexivity. Qed.

Lemma qlist_remove_unlinks (cells : list ep_cell) (ep_id : N) :
  NoDup (map cell_id cells) -> ~ In (mk_cell ep_id true) (qlist_remove cells ep_id).
Proof.
  induction cells as [|c cells IH]; simpl; [intros _ []|].
  intros Hnd. inversion Hnd as [|x xs Hnotin Hnd']; subst.
  destruct (N.eqb_spec (cell_id c) ep_id) as [E|E]; simpl.
  - destruct (cell_canonical c) eqn:Ec.
    + intros Hin. apply Hnotin. rewrite E.
      change ep_id with (cell_id (mk_cell ep_id true)). now apply in_map.
    + intros [Heq|Hin]; [rewrite Heq in Ec; discriminate|]. now apply IH.
  - intros [Heq|Hin]; [rewrite Heq in E; now apply E|]. now apply IH.
Qed.

Lemma qlist_remove_others (cells : list ep_cell) (ep_id : N) (c : ep_cell) :
  c <> mk_cell ep_id true -> (In c (qlist_remove cells ep_id) <-> In c cells).
Proof.
  intros Hne. induction cells as [|c0 cells IH]; simpl; [tauto|].
  destruct (N.eqb_spec (cell_id c0) ep_id) as [E|E]; simpl.
  - destruct (cell_canonical c0) eqn:Ec; simpl.
    + split; [now right|]. intros [Heq|Hin]; [|assumption].
      exfalso. apply Hne. subst c. destruct c0; simpl in *. congruence.
    + rewrite IH. tauto.
  - rewrite IH. tauto.
Qed.

(** C6 (code at the failing input).  The busy device is saved and loaded
    into a realized device.  [domain_preload] creates every mapping tree
    with one reference, and the post-load hook links endpoints 3 and 1 to
    domain 1 without taking one, where ATTACH takes one for each endpoint.
    DETACH(1, 3) then returns OK and drops the only reference:
    [g_tree_unref] destroys the tree, and with it the page
    [0x1000, 0x1fff] that the guest never unmapped, while endpoint 1 is
    still attached to domain 1.  The notifier of endpoint 1 got no UNMAP,
    and the DETACH(1, 1) that follows has no mapping left to announce (the
    source walks the freed tree there).  On the busy device itself, before
    the round trip, DETACH(1, 3) leaves the tree with two references and
    DETACH(1, 1) announces the page. *)
Theorem detach_after_restore_destroys_shared_tree :
  snapshot_restore no_rotation fresh_device (snapshot_save busy_device)
    = restored_busy_device /\
  tbl_lookup (domains restored_busy_device) 1
    = Some (mk_domain 1 (Node Leaf (mk_interval 4096 8191)
                              (mk_mapping 40960 3) Leaf)
                      1 [mk_cell 3 true; mk_cell 1 true]) /\
  (exists s1,
      virtio_iommu_detach restored_busy_device 1 3
        = (VIRTIO_IOMMU_S_OK, s1, []) /\
      tbl_lookup (domains s1) 1 = Some (mk_domain 1 Leaf 0 [mk_cell 1 true]) /\
      tbl_lookup (endpoints s1) 1 = Some (mk_endpoint 1 (Some 1)) /\
      snd (virtio_iommu_detach s1 1 1) = []) /\
  (exists s1,
      virtio_iommu_detach busy_device 1 3 = (VIRTIO_IOMMU_S_OK, s1, []) /\
      tbl_lookup (domains s1) 1
        = Some (mk_domain 1 (Node Leaf (mk_interval 4096 8191)
                                  (mk_mapping 40960 3) Leaf)
                          2 [mk_cell 1 true]) /\
      tbl_lookup (endpoints s1) 1 = Some (mk_endpoint 1 (Some 1)) /\
      snd (virtio_iommu_detach s1 1 1)
        = [(7, mk_entry 4096 0 4095 IOMMU_NONE)]).
Proof.
  split; [vm_compute; reflexivity|]. split; [reflexivity|]. split.
  - eexists. split; [vm_compute; reflexivity|].
    repeat split; vm_compute; reflexivity.
  - eexists. split; [vm_compute; reflexivity|].
    repeat split; vm_compute; reflexivity.
Qed.

(** ** C7: requests with a short payload *)

(** C7 (counterexample).  An ATTACH element that carries the 4-byte head
    and nothing else is shorter than the 20 bytes the handler copies; the
    tail receives status INVAL (4), not DEVERR (3). *)
Lemma short_attach_is_not_deverr :
  iov_size (out_sg (mk_elem [1; 0; 0; 0] 4)) < payload_size VIRTIO_IOMMU_T_ATTACH /\
  handle_element no_rotation no_reuse 0 fresh_device (mk_elem [1; 0; 0; 0] 4)
    = Some (fresh_device, [], ElemPushed VIRTIO_IOMMU_S_INVAL [] 4) /\
  VIRTIO_IOMMU_S_INVAL <> VIRTIO_IOMMU_S_DEVERR.
Proof.
  split; [vm_compute; reflexivity|]. split; [vm_compute; reflexivity|discriminate].
Qed.

Lemma iov_to_req_short (iov : list N) (req_sz : N) :
  iov_size iov < req_sz - sizeof_tail ->
  fst (virtio_iommu_iov_to_req iov req_sz) = VIRTIO_IOMMU_S_INVAL.
Proof.
  intros Hlt. unfold virtio_iommu_iov_to_req, iov_to_buf, iov_size in *.
  rewrite length_firstn.
  destruct (N.eqb_spec (N.of_nat (Nat.min (N.to_nat (req_sz - sizeof_tail)) (length iov)))
                       (req_sz - sizeof_tail)) as [E|E]; simpl; [lia|reflexivity].
Qed.

Lemma head_type (iov : list N) :
  le_load 1 (iov_to_buf iov sizeof_head) = hd 0 iov.
Proof. destruct iov as [|b iov]; simpl; [reflexivity|lia]. Qed.

Lemma head_copied (iov : list N) :
  sizeof_head <= iov_size iov ->
  iov_size (iov_to_buf iov sizeof_head) = sizeof_head.
Proof.
  unfold iov_size, iov_to_buf, sizeof_head. rewrite length_firstn. lia.
Qed.

(** C7 (amended).  An element that passes the head/tail size check and whose
    out-buffer is shorter than the payload of its request type (ATTACH,
    DETACH, MAP, UNMAP, PROBE) leaves the device state unchanged and sends
    no notification; its status is INVAL.  For the first four types the
    status is written as the 4-byte tail; for PROBE it is written behind
    the probe buffer when the in-buffer holds [probe_size] plus the tail. *)
Theorem short_payload_inval (rebalance : GTree -> GTree)
  (after_free : viommu_interval -> viommu_interval) (fuel : nat)
  (s : VirtIOIOMMU) (elem : VirtQueueElement) :
  sizeof_tail <= in_size elem ->
  sizeof_head <= iov_size (out_sg elem) ->
  iov_size (out_sg elem) < payload_size (hd 0 (out_sg elem)) ->
  (hd 0 (out_sg elem) <> VIRTIO_IOMMU_T_PROBE ->
   handle_element rebalance after_free fuel s elem
     = Some (s, [], ElemPushed VIRTIO_IOMMU_S_INVAL [] sizeof_tail)) /\
  (hd 0 (out_sg elem) = VIRTIO_IOMMU_T_PROBE ->
   probe_size s + sizeof_tail <= in_size elem ->
   handle_element rebalance after_free fuel s elem
     = Some (s, [], ElemPushed VIRTIO_IOMMU_S_INVAL []
                               (probe_size s + sizeof_tail))).
Proof.
  intros Hin Hout Hshort. unfold handle_element.
  destruct (N.ltb_spec (in_size elem) sizeof_tail); [lia|].
  destruct (N.ltb_spec (iov_size (out_sg elem)) sizeof_head); [lia|].
  cbn [orb]. rewrite head_copied by assumption. rewrite N.eqb_refl. cbn [negb].
  rewrite head_type. set (ty := hd 0 (out_sg elem)) in *.
  assert (Hmin : N.min (in_size elem) sizeof_tail = sizeof_tail) by lia.
  unfold payload_size in Hshort.
  unfold virtio_iommu_handle_attach, virtio_iommu_handle_detach,
    virtio_iommu_handle_map, virtio_iommu_handle_unmap, virtio_iommu_handle_probe.
  destruct (ty =? VIRTIO_IOMMU_T_ATTACH) eqn:E1;
    [|destruct (ty =? VIRTIO_IOMMU_T_DETACH) eqn:E2;
      [|destruct (ty =? VIRTIO_IOMMU_T_MAP) eqn:E3;
        [|destruct (ty =? VIRTIO_IOMMU_T_UNMAP) eqn:E4;
          [|destruct (ty =? VIRTIO_IOMMU_T_PROBE) eqn:E5]]]].
  1-4: split; [intros _|intros Hp; rewrite Hp in *; discriminate].
  1-4: pose proof (iov_to_req_short _ _ Hshort) as Hr;
       match goal with
       | |- context [virtio_iommu_iov_to_req ?a ?b] =>
           destruct (virtio_iommu_iov_to_req a b) as [ret req]
       end; simpl in Hr; subst ret; simpl; rewrite Hmin; reflexivity.
  - apply N.eqb_eq in E5. split; [intros Hp; contradiction|intros _ Hroom].
    pose proof (iov_to_req_short _ _ Hshort) as Hr.
    destruct (virtio_iommu_iov_to_req (out_sg elem) sizeof_req_probe) as [ret req].
    simpl in Hr. subst ret. simpl.
    rewrite (N.min_r (in_size elem)) by lia. rewrite N.eqb_refl. reflexivity.
  - exfalso. revert Hshort. apply N.nlt_0_r.
Qed.

(** The amended C7 at work: a 4-byte DETACH element, and a 4-byte PROBE
    element with room for the probe buffer. *)
Lemma short_payload_inval_witness :
  handle_element no_rotation no_reuse 0 one_page_device (mk_elem [2; 0; 0; 0] 4)
    = Some (one_page_device, [], ElemPushed VIRTIO_IOMMU_S_INVAL [] sizeof_tail) /\
  handle_element no_rotation no_reuse 0 one_page_device (mk_elem [5; 0; 0; 0] 516)
    = Some (one_page_device, [], ElemPushed VIRTIO_IOMMU_S_INVAL [] 516).
Proof.
  split.
  - apply (short_payload_inval no_rotation no_reuse 0%nat one_page_device
                               (mk_elem [2; 0; 0; 0] 4));
      vm_compute; congruence.
  - apply (short_payload_inval no_rotation no_reuse 0%nat one_page_device
                               (mk_elem [5; 0; 0; 0] 516));
      vm_compute; congruence.
Defined.

(** ** Snapshot: what the reader builds from what the writer wrote *)

Lemma fold_left_map_list {A B C : Type} (f : A -> C -> A) (g : B -> C)
  (l : list B) (a : A) :
  fold_left f (map g l) a = fold_left (fun a x => f a (g x)) l a.
Proof. revert a. induction l as [|x l IH]; intros a; simpl; auto. Qed.

Lemma fold_left_same {A B : Type} (f g : A -> B -> A) (l : list B) (a : A) :
  (forall a x, f a x = g a x) -> fold_left f l a = fold_left g l a.
Proof.
  intros H. revert a. induction l as [|x l IH]; intros a; simpl; [reflexivity|].
  rewrite H. apply IH.
Qed.

Lemma snapshot_load_save (rebalance : GTree -> GTree) (s0 s : VirtIOIOMMU) :
  keys_ascending (domains s) -> keys_ascending (endpoints s) ->
  snapshot_load rebalance s0 (snapshot_save s)
  = set_endpoints
      (set_domains s0 (map (fun kd => (fst kd, loaded_domain rebalance kd))
                           (domains s)))
      (map (fun ke => (fst ke, loaded_endpoint ke)) (endpoints s)).
Proof.
  intros Hd He. unfold snapshot_load, snapshot_save. cbn [snap_domains snap_endpoints].
  rewrite !fold_left_map_list.
  rewrite (fold_left_same _ (fun acc ka => tbl_insert acc (fst ka)
                                             (loaded_domain rebalance ka))
                          (domains s)) by (intros; reflexivity).
  rewrite (fold_left_same _ (fun acc ka => tbl_insert acc (fst ka)
                                             (loaded_endpoint ka))
                          (endpoints s)) by (intros; reflexivity).
  rewrite (fold_tbl_insert_ascending (loaded_domain rebalance) (domains s) []).
  2:{ simpl. now apply keys_ascending_map. }
  rewrite (fold_tbl_insert_ascending loaded_endpoint (endpoints s) []).
  2:{ simpl. now apply keys_ascending_map. }
  reflexivity.
Qed.

(** ** Snapshot: the fix-up on one endpoint list *)

Lemma existsb_cell_id (cells : list ep_cell) (k : N) :
  existsb (fun c => cell_id c =? k) cells = true <-> In k (map cell_id cells).
Proof.
  rewrite existsb_exists, in_map_iff. split.
  - intros (c & Hin & E). apply N.eqb_eq in E. eauto.
  - intros (c & E & Hin). exists c. split; [assumption|now apply N.eqb_eq].
Qed.

Lemma remove_first_id_perm (cells : list ep_cell) (k : N) :
  In k (map cell_id cells) ->
  Permutation (k :: map cell_id (remove_first_id cells k)) (map cell_id cells).
Proof.
  induction cells as [|c cells IH]; simpl; [contradiction|].
  destruct (N.eqb_spec (cell_id c) k) as [E|E].
  - intros _. rewrite E. reflexivity.
  - intros [Heq|Hin]; [contradiction|]. simpl.
    rewrite perm_swap. constructor. now apply IH.
Qed.

Lemma remove_first_id_In (cells : list ep_cell) (k : N) (c : ep_cell) :
  In c (remove_first_id cells k) -> In c cells.
Proof.
  induction cells as [|c0 cells IH]; simpl; [tauto|].
  destruct (cell_id c0 =? k); [now right|]. intros [H|H]; [now left|right; auto].
Qed.

Lemma remove_first_id_nodup (cells : list ep_cell) (k : N) :
  NoDup (map cell_id cells) -> ~ In k (map cell_id (remove_first_id cells k)).
Proof.
  induction cells as [|c cells IH]; simpl; [intros _ []|].
  intros Hnd. inversion Hnd as [|x xs Hnotin Hnd']; subst.
  destruct (N.eqb_spec (cell_id c) k) as [E|E].
  - now rewrite <- E.
  - simpl. intros [H|H]; [contradiction|]. now apply IH.
Qed.

Lemma canonical_cells (cells : list ep_cell) :
  (forall c, In c cells -> cell_canonical c = true) ->
  cells = map (fun i => mk_cell i true) (map cell_id cells).
Proof.
  induction cells as [|c cells IH]; simpl; [reflexivity|].
  intros H. rewrite <- IH by auto. f_equal.
  specialize (H c (or_introl eq_refl)). destruct c; simpl in *. now subst.
Qed.

Section Fixup.
Variable rebalance : GTree -> GTree.

Lemma fixup_rel_extend (fixed : list N) (kd kd' : N * viommu_domain) (k : N) :
  fixup_rel rebalance fixed kd kd' -> ~ In k (cell_ids (snd kd)) ->
  fixup_rel rebalance (fixed ++ [k]) kd kd'.
Proof.
  intros (Hk & Hid & Hm & Hp & Hc) Hnot. repeat split; auto.
  - intros Hcan. apply in_or_app. left. now apply Hc.
  - intros Hin. apply Hc; [assumption|].
    apply in_app_or in Hin. destruct Hin as [Hin|[Heq|[]]]; [assumption|].
    exfalso. apply Hnot. apply (Permutation_in _ Hp). rewrite Heq.
    unfold cell_ids. now apply in_map.
Qed.

Lemma reconstruct_hit (fixed : list N) (kd kd' : N * viommu_domain) (k : N) :
  fixup_rel rebalance fixed kd kd' ->
  NoDup (cell_ids (snd kd)) -> In k (cell_ids (snd kd)) ->
  exists d'', reconstruct_ep_domain_link (snd kd') k = Some d'' /\
              fixup_rel rebalance (fixed ++ [k]) kd (fst kd', d'').
Proof.
  intros (Hk & Hid & Hm & Hp & Hc) Hnd Hin.
  assert (Hin' : In k (cell_ids (snd kd'))).
  { apply (Permutation_in _ (Permutation_sym Hp)). exact Hin. }
  unfold reconstruct_ep_domain_link.
  rewrite (proj2 (existsb_cell_id _ _) Hin'). eexists. split; [reflexivity|].
  assert (Hnd' : NoDup (cell_ids (snd kd'))).
  { apply (Permutation_NoDup (Permutation_sym Hp)). exact Hnd. }
  unfold fixup_rel. simpl.
  split; [exact Hk|]. split; [exact Hid|]. split; [exact Hm|]. split.
  - unfold cell_ids. simpl. rewrite remove_first_id_perm by exact Hin'. exact Hp.
  - intros c [<-|Hc0]; simpl.
    + split; [intros _; apply in_or_app; right; now left|reflexivity].
    + assert (Hne : cell_id c <> k).
      { intros Heq. apply (remove_first_id_nodup _ k Hnd').
        rewrite <- Heq in Hc0 |- *. now apply in_map. }
      rewrite in_app_iff. simpl.
      rewrite (Hc c (remove_first_id_In _ _ _ Hc0)).
      split; [tauto|]. intros [H|[H|[]]]; [assumption|congruence].
Qed.

Lemma reconstruct_miss (fixed : list N) (kd kd' : N * viommu_domain) (k : N) :
  fixup_rel rebalance fixed kd kd' -> ~ In k (cell_ids (snd kd)) ->
  reconstruct_ep_domain_link (snd kd') k = None.
Proof.
  intros (Hk & Hid & Hm & Hp & Hc) Hnot. unfold reconstruct_ep_domain_link.
  destruct (existsb _ _) eqn:E; [|reflexivity].
  exfalso. apply Hnot. apply existsb_cell_id in E.
  apply (Permutation_in _ Hp). exact E.
Qed.

Lemma foreach_reconstruct_miss (fixed : list N) (k : N)
  (D DA : list (N * viommu_domain)) :
  Forall2 (fixup_rel rebalance fixed) D DA ->
  (forall kd, In kd D -> ~ In k (cell_ids (snd kd))) ->
  foreach_reconstruct DA k = None /\
  Forall2 (fixup_rel rebalance (fixed ++ [k])) D DA.
Proof.
  induction 1 as [|kd kd' D DA Hrel HF IH]; intros Hnot; simpl; [split; constructor|].
  destruct kd' as [key d'].
  assert (Hmiss : reconstruct_ep_domain_link d' k = None).
  { apply (reconstruct_miss fixed kd (key, d') k Hrel). apply Hnot. now left. }
  rewrite Hmiss.
  destruct IH as [-> IH2]; [intros; apply Hnot; now right|].
  split; [reflexivity|]. constructor; [|assumption].
  apply fixup_rel_extend; [assumption|apply Hnot; now left].
Qed.

Lemma foreach_reconstruct_hit (fixed : list N) (k did : N)
  (D DA : list (N * viommu_domain)) :
  Forall2 (fixup_rel rebalance fixed) D DA ->
  keys_ascending D ->
  (forall kd, In kd D -> NoDup (cell_ids (snd kd))) ->
  (forall kd, In kd D -> In k (cell_ids (snd kd)) -> fst kd = did) ->
  (exists kd, In kd D /\ In k (cell_ids (snd kd))) ->
  exists DA1, foreach_reconstruct DA k = Some (DA1, did) /\
              Forall2 (fixup_rel rebalance (fixed ++ [k])) D DA1.
Proof.
  induction 1 as [|kd kd' D DA Hrel HF IH]; intros Hasc Hnd Honly Hex.
  - destruct Hex as (kd & [] & _).
  - destruct kd as [key0 d0], kd' as [key d']. simpl in Hasc.
    destruct Hasc as [Hall Hasc]. simpl.
    destruct (in_dec N.eq_dec k (cell_ids d0)) as [Hin|Hnot].
    + destruct (reconstruct_hit fixed (key0, d0) (key, d') k Hrel) as (d'' & Hr & Hrel').
      { apply (Hnd (key0, d0)). now left. }
      { exact Hin. }
      simpl in Hr, Hrel'. rewrite Hr.
      assert (Hkey : key0 = did) by (apply (Honly (key0, d0)); [now left|exact Hin]).
      assert (Hkk : key = key0) by (destruct Hrel as [Hk _]; exact Hk).
      eexists. split; [rewrite Hkk, Hkey; reflexivity|].
      constructor; [exact Hrel'|].
      apply (foreach_reconstruct_miss fixed k D DA HF).
      intros kd Hkd Hink. rewrite Forall_forall in Hall. specialize (Hall _ Hkd).
      pose proof (Honly kd (or_intror Hkd) Hink). lia.
    + assert (Hmiss : reconstruct_ep_domain_link d' k = None).
      { exact (reconstruct_miss fixed (key0, d0) (key, d') k Hrel Hnot). }
      rewrite Hmiss.
      destruct IH as (DA1 & -> & IH2); auto.
      * intros kd Hkd. apply Hnd. now right.
      * intros kd Hkd. apply Honly. now right.
      * destruct Hex as (kd & [<-|Hkd] & Hink); [contradiction|eauto].
      * eexists. split; [reflexivity|]. constructor; [|assumption].
        now apply fixup_rel_extend.
Qed.

End Fixup.

(** ** Snapshot: the fix-up over all endpoints *)

Section PostLoad.
Variable rebalance : GTree -> GTree.
Variables s0 s : VirtIOIOMMU.
Hypothesis Hlc : links_consistent s.

Lemma cell_owner (k' : N) (d : viommu_domain) (k : N) :
  In (k', d) (domains s) -> In k (cell_ids d) ->
  tbl_lookup (endpoints s) k = Some (mk_endpoint k (Some k')).
Proof.
  intros Hd Hk. unfold cell_ids in Hk. apply in_map_iff in Hk.
  destruct Hk as (c & <- & Hc). now apply (lc_cells s Hlc k' d c).
Qed.

Lemma fix_endpoint_step (P R' : list (N * viommu_endpoint)) (k : N)
  (e : viommu_endpoint) (DA : list (N * viommu_domain)) :
  In (k, e) (endpoints s) ->
  (forall a, In a P -> fst a < k) ->
  Forall2 (fixup_rel rebalance (map fst P)) (domains s) DA ->
  exists DA1,
    fix_endpoint (set_endpoints (set_domains s0 DA)
                                (P ++ (k, loaded_endpoint (k, e)) :: R'))
                 k (loaded_endpoint (k, e))
    = set_endpoints (set_domains s0 DA1) (P ++ (k, e) :: R') /\
    Forall2 (fixup_rel rebalance (map fst P ++ [k])) (domains s) DA1.
Proof.
  intros Hin Hlt HF.
  assert (Hid : e_id e = k) by (apply (lc_ep_id s Hlc); exact Hin).
  assert (Hlk : tbl_lookup (endpoints s) k = Some e).
  { apply tbl_In_lookup; [apply (lc_ep_keys s Hlc)|exact Hin]. }
  unfold fix_endpoint, loaded_endpoint. cbn [snd e_id]. rewrite Hid.
  change (domains (set_endpoints (set_domains s0 DA) _)) with DA.
  destruct (e_domain e) as [did|] eqn:Edom.
  - destruct (foreach_reconstruct_hit rebalance (map fst P) k did (domains s) DA HF)
      as (DA1 & Hrec & HF1).
    + apply (lc_dom_keys s Hlc).
    + intros [k' d] Hkd. apply (lc_nodup s Hlc k' d Hkd).
    + intros [k' d] Hkd Hk. simpl in *.
      pose proof (cell_owner k' d k Hkd Hk) as Ho. rewrite Hlk in Ho.
      injection Ho as ->. simpl in Edom. congruence.
    + destruct (lc_attached s Hlc k e did Hin Edom) as (d & Hd & Hc).
      exists (did, d). split; [now apply tbl_lookup_In|].
      unfold cell_ids. simpl.
      change k with (cell_id (mk_cell k true)). now apply in_map.
    + exists DA1. rewrite Hrec. split; [|exact HF1].
      unfold set_endpoints, set_domains. simpl.
      rewrite tbl_insert_inplace by exact Hlt.
      destruct e as [eid edom]. simpl in *. subst. reflexivity.
  - destruct (foreach_reconstruct_miss rebalance (map fst P) k (domains s) DA HF)
      as (Hrec & HF1).
    + intros [k' d] Hkd Hk. simpl in *.
      pose proof (cell_owner k' d k Hkd Hk) as Ho. rewrite Hlk in Ho.
      injection Ho as ->. simpl in Edom. discriminate.
    + exists DA. rewrite Hrec. split; [|exact HF1].
      destruct e as [eid edom]. simpl in *. subst. reflexivity.
Qed.

Lemma post_load_fold (R P : list (N * viommu_endpoint))
  (DA : list (N * viommu_domain)) :
  endpoints s = P ++ R ->
  Forall2 (fixup_rel rebalance (map fst P)) (domains s) DA ->
  exists DA',
    fold_left (fun acc kep => fix_endpoint acc (fst kep) (snd kep))
              (map (fun ke => (fst ke, loaded_endpoint ke)) R)
              (set_endpoints (set_domains s0 DA)
                 (P ++ map (fun ke => (fst ke, loaded_endpoint ke)) R))
    = set_endpoints (set_domains s0 DA') (endpoints s) /\
    Forall2 (fixup_rel rebalance (map fst (endpoints s))) (domains s) DA'.
Proof.
  revert P DA. induction R as [|[k e] R IH]; intros P DA HE HF.
  - simpl. rewrite app_nil_r in *. exists DA. rewrite HE. split; [reflexivity|exact HF].
  - cbn [map fold_left fst snd].
    assert (Hin : In (k, e) (endpoints s)).
    { rewrite HE. apply in_or_app. right. now left. }
    assert (Hlt : forall a, In a P -> fst a < k).
    { pose proof (lc_ep_keys s Hlc) as Hasc. rewrite HE in Hasc.
      apply keys_ascending_app in Hasc. destruct Hasc as (_ & _ & Hc).
      intros a Ha. apply (Hc a (k, e)); [assumption|now left]. }
    destruct (fix_endpoint_step P (map (fun ke => (fst ke, loaded_endpoint ke)) R)
                                k e DA Hin Hlt HF) as (DA1 & -> & HF1).
    destruct (IH (P ++ [(k, e)]) DA1) as (DA' & Hfold & HF').
    + rewrite <- app_assoc. exact HE.
    + rewrite map_app. exact HF1.
    + exists DA'. rewrite <- app_assoc in Hfold. split; [exact Hfold|exact HF'].
Qed.

Lemma fixup_rel_loaded :
  Forall2 (fixup_rel rebalance [])
          (domains s)
          (map (fun kd => (fst kd, loaded_domain rebalance kd)) (domains s)).
Proof.
  induction (domains s) as [|kd D IH]; simpl; constructor; [|exact IH].
  unfold fixup_rel, loaded_domain, cell_ids. simpl.
  split; [reflexivity|]. split; [reflexivity|]. split; [reflexivity|]. split.
  - rewrite map_map. simpl. rewrite map_id. reflexivity.
  - intros c Hc. apply in_map_iff in Hc. destruct Hc as (i & <- & _). simpl.
    split; [discriminate|intros []].
Qed.

Lemma restore_save_fixed :
  exists DA',
    snapshot_restore rebalance s0 (snapshot_save s)
    = set_endpoints (set_domains s0 DA') (endpoints s) /\
    Forall2 (fixup_rel rebalance (map fst (endpoints s))) (domains s) DA'.
Proof.
  unfold snapshot_restore.
  rewrite snapshot_load_save by (apply (lc_dom_keys s Hlc) || apply (lc_ep_keys s Hlc)).
  unfold iommu_post_load.
  change (endpoints (set_endpoints _ ?es)) with es.
  apply (post_load_fold (endpoints s) []); [reflexivity|apply fixup_rel_loaded].
Qed.

End PostLoad.

(** ** The round trip of a well-formed state *)

Lemma keys_ascending_fst {V W : Type} (t1 : list (N * V)) (t2 : list (N * W)) :
  map fst t1 = map fst t2 -> keys_ascending t1 -> keys_ascending t2.
Proof.
  revert t2. induction t1 as [|[k v] t1 IH]; intros [|[k' w] t2]; simpl;
    try discriminate; auto.
  intros [= <- Hmap] [Hall Hasc]. split; [|now apply IH].
  apply Forall_forall. intros x Hx.
  assert (Hin : In (fst x) (map fst t1)) by (rewrite Hmap; now apply in_map).
  apply in_map_iff in Hin. destruct Hin as (y & Hy & Hyin). rewrite <- Hy.
  rewrite Forall_forall in Hall. now apply Hall.
Qed.

Lemma Forall2_restored_keys (D DA : list (N * viommu_domain)) :
  Forall2 restored_rel D DA -> map fst D = map fst DA.
Proof.
  induction 1 as [|kd kd' D DA (Hk & _) _ IH]; simpl; [reflexivity|].
  now rewrite Hk, IH.
Qed.

Lemma Forall2_restored_lookup (D DA : list (N * viommu_domain)) (k : N)
  (d1 : viommu_domain) :
  Forall2 restored_rel D DA -> tbl_lookup D k = Some d1 ->
  exists d2, tbl_lookup DA k = Some d2 /\ restored_rel (k, d1) (k, d2).
Proof.
  induction 1 as [|[k0 d0] [k0' d0'] D DA Hrel _ IH]; simpl; [discriminate|].
  destruct Hrel as (Hk & Hrest). simpl in Hk. subst k0'.
  destruct (int_cmp k k0 =? 0)%Z eqn:E.
  - intros [= <-]. exists d0'. split; [reflexivity|]. split; [reflexivity|exact Hrest].
  - exact IH.
Qed.

Lemma Forall2_restored_In (D DA : list (N * viommu_domain)) (kd' : N * viommu_domain) :
  Forall2 restored_rel D DA -> In kd' DA ->
  exists kd, In kd D /\ restored_rel kd kd'.
Proof.
  induction 1 as [|kd0 kd0' D DA Hrel _ IH]; simpl; [contradiction|].
  intros [<-|Hin]; [eauto|]. destruct (IH Hin) as (kd & Hkd & Hr). eauto.
Qed.

Section RoundTrip.
Variable rebalance : GTree -> GTree.
Variables s0 s : VirtIOIOMMU.
Hypothesis Hrb : keeps_inorder rebalance.
Hypothesis Hlc : links_consistent s.
Hypothesis Hord : tables_ordered s.

Lemma fixed_is_restored (kd kd' : N * viommu_domain) :
  In kd (domains s) ->
  fixup_rel rebalance (map fst (endpoints s)) kd kd' -> restored_rel kd kd'.
Proof.
  destruct kd as [k d]. intros Hin (Hk & Hid & Hm & Hp & Hc).
  split; [exact Hk|]. split; [exact Hid|]. split.
  - rewrite Hm. apply load_mappings_inorder; [exact Hrb|].
    apply (Hord k). apply tbl_In_lookup; [apply (lc_dom_keys s Hlc)|exact Hin].
  - simpl in *.
    rewrite (canonical_cells (endpoint_list (snd kd'))).
    + rewrite (canonical_cells (endpoint_list d)).
      * apply Permutation_map. exact Hp.
      * intros c Hcin. apply (lc_cells s Hlc k d c Hin Hcin).
    + intros c Hcin. apply (Hc c Hcin).
      assert (Hid' : In (cell_id c) (cell_ids d)).
      { apply (Permutation_in _ Hp). unfold cell_ids. now apply in_map. }
      pose proof (cell_owner s Hlc k d (cell_id c) Hin Hid') as Ho.
      apply tbl_lookup_In in Ho.
      change (cell_id c) with (fst (cell_id c, mk_endpoint (cell_id c) (Some k))).
      now apply in_map.
Qed.

Lemma all_fixed_restored (D DA : list (N * viommu_domain)) :
  incl D (domains s) ->
  Forall2 (fixup_rel rebalance (map fst (endpoints s))) D DA ->
  Forall2 restored_rel D DA.
Proof.
  intros Hincl HF. induction HF as [|kd kd' D DA Hrel _ IH]; constructor.
  - apply fixed_is_restored; [apply Hincl; now left|exact Hrel].
  - apply IH. intros x Hx. apply Hincl. now right.
Qed.

Lemma restore_save_restored :
  exists DA',
    snapshot_restore rebalance s0 (snapshot_save s)
    = set_endpoints (set_domains s0 DA') (endpoints s) /\
    Forall2 restored_rel (domains s) DA'.
Proof.
  destruct (restore_save_fixed rebalance s0 s Hlc) as (DA' & Heq & HF).
  exists DA'. split; [exact Heq|].
  apply all_fixed_restored; [apply incl_refl|exact HF].
Qed.

End RoundTrip.

(** X26.  Let [s] be a state whose endpoint/domain links are consistent and
    whose mapping tables are ascending sequences of well-formed intervals.
    Writing [s] and reading the image back into a realized device [s0],
    with the post-load fix-up, gives a state with the same domains under
    the same ids, each with the same mappings in the same order and the
    same set of attached endpoints, and with the same endpoints, each with
    the domain it had.  In the restored state the links are consistent
    again: every endpoint names at most one domain, an endpoint is in the
    list of the domain it names and of no other, and every cell of every
    list is the endpoint's own record, no longer a copy.  The fields that
    are not part of the image are those of [s0].  The order of a domain's
    endpoint list and the shape of the trees are left open. *)
Theorem snapshot_roundtrip (rebalance : GTree -> GTree) (s0 s : VirtIOIOMMU) :
  keeps_inorder rebalance -> links_consistent s -> tables_ordered s ->
  let s' := snapshot_restore rebalance s0 (snapshot_save s) in
  same_contents s s' /\
  links_consistent s' /\ tables_ordered s' /\
  notifiers_list s' = notifiers_list s0 /\
  acked_features s' = acked_features s0 /\
  reserved_regions s' = reserved_regions s0.
Proof.
  intros Hrb Hlc Hord. cbv zeta.
  destruct (restore_save_restored rebalance s0 s Hrb Hlc Hord) as (DA' & -> & HF).
  assert (Hkeys : keys_ascending DA').
  { apply (keys_ascending_fst (domains s)); [now apply Forall2_restored_keys|].
    apply (lc_dom_keys s Hlc). }
  assert (Hback : forall k d2, In (k, d2) DA' ->
                   exists d1, In (k, d1) (domains s) /\ restored_rel (k, d1) (k, d2)).
  { intros k d2 Hin. destruct (Forall2_restored_In _ _ _ HF Hin) as ([k1 d1] & Hin1 & Hr).
    pose proof Hr as (Hk & _). simpl in Hk. subst k1. eauto. }
  split; [|split; [|split; [|auto]]].
  - unfold same_contents. simpl. split; [now apply Forall2_restored_keys|].
    split; [|reflexivity].
    intros k d1 Hl. destruct (Forall2_restored_lookup _ _ _ _ HF Hl)
      as (d2 & Hl2 & _ & Hid & Hm & Hp).
    exists d2. auto.
  - constructor; simpl.
    + exact Hkeys.
    + apply (lc_ep_keys s Hlc).
    + intros k d2 Hin. destruct (Hback k d2 Hin) as (d1 & Hin1 & _ & Hid & _).
      simpl in Hid. rewrite Hid. apply (lc_dom_id s Hlc k d1 Hin1).
    + apply (lc_ep_id s Hlc).
    + intros k d2 c Hin Hc. destruct (Hback k d2 Hin) as (d1 & Hin1 & _ & _ & _ & Hp).
      simpl in Hp. apply (lc_cells s Hlc k d1 c Hin1).
      apply (Permutation_in _ Hp). exact Hc.
    + intros k d2 Hin. destruct (Hback k d2 Hin) as (d1 & Hin1 & _ & _ & _ & Hp).
      simpl in Hp. apply (Permutation_NoDup (Permutation_sym (Permutation_map cell_id Hp))).
      apply (lc_nodup s Hlc k d1 Hin1).
    + intros k e did Hin Hdom.
      destruct (lc_attached s Hlc k e did Hin Hdom) as (d1 & Hl & Hc).
      destruct (Forall2_restored_lookup _ _ _ _ HF Hl) as (d2 & Hl2 & _ & _ & _ & Hp).
      exists d2. split; [exact Hl2|]. simpl in Hp.
      apply (Permutation_in _ (Permutation_sym Hp)). exact Hc.
  - intros did d2 Hl. simpl in Hl. apply tbl_lookup_In in Hl.
    destruct (Hback did d2 Hl) as (d1 & Hin1 & _ & _ & Hm & _). simpl in Hm.
    rewrite Hm. apply (Hord did).
    apply tbl_In_lookup; [apply (lc_dom_keys s Hlc)|exact Hin1].
Qed.

Lemma busy_device_consistent : links_consistent busy_device.
Proof.
  constructor; simpl.
  - repeat split; repeat constructor; simpl; lia.
  - repeat split; repeat constructor; simpl; lia.
  - intros k d [[= <- <-]|[[= <- <-]|[]]]; reflexivity.
  - intros k e [[= <- <-]|[[= <- <-]|[[= <- <-]|[[= <- <-]|[]]]]]; reflexivity.
  - intros k d c [[= <- <-]|[[= <- <-]|[]]]; simpl.
    + intros [<-|[<-|[]]]; split; reflexivity.
    + intros [<-|[]]; split; reflexivity.
  - intros k d [[= <- <-]|[[= <- <-]|[]]]; simpl; repeat constructor; simpl;
      intuition discriminate.
  - intros k e did [[= <- <-]|[[= <- <-]|[[= <- <-]|[[= <- <-]|[]]]]]; simpl;
      intros [= <-]; eexists; (split; [reflexivity|]); simpl; auto.
Qed.

Lemma busy_device_ordered : tables_ordered busy_device.
Proof.
  intros did d Hl. apply tbl_lookup_In in Hl. simpl in Hl.
  destruct Hl as [[= <- <-]|[[= <- <-]|[]]]; simpl; [|exact I].
  unfold iv_valid. simpl. repeat split; [lia|constructor].
Qed.

(** X26 at work, on the busy device. *)
Lemma snapshot_roundtrip_witness :
  keeps_inorder no_rotation /\ links_consistent busy_device /\
  tables_ordered busy_device /\
  same_contents busy_device
    (snapshot_restore no_rotation fresh_device (snapshot_save busy_device)) /\
  links_consistent
    (snapshot_restore no_rotation fresh_device (snapshot_save busy_device)).
Proof.
  assert (Hrb : keeps_inorder no_rotation) by (intros t; reflexivity).
  split; [exact Hrb|]. split; [exact busy_device_consistent|].
  split; [exact busy_device_ordered|].
  destruct (snapshot_roundtrip no_rotation fresh_device busy_device Hrb
              busy_device_consistent busy_device_ordered) as (H1 & H2 & _).
  split; [exact H1|exact H2].
Defined.

(** ** C8: the round trip of a table with overlapping keys *)

(** C8 (code at the failing input).  From the realized device, ATTACH(1, 1),
    MAP(1, 100, 0), MAP(1, 10, 20) and MAP(1, 15, 200) all return OK and
    leave domain 1 with three mappings, written to the snapshot in the
    order [10, 20], (100, 0), [15, 200].  The reader inserts them one by
    one into a new tree: (100, 0) goes to the left of [10, 20], and
    [15, 200] compares equal to [10, 20] under [interval_cmp], so that the
    insertion replaces the value stored there.  The restored domain has two
    mappings, [10, 20] now leads to 0x3000, and the key [15, 200] is gone:
    the round trip does not give back the state that was saved.  None of
    the insertions unbalances the tree. *)
Theorem restore_merges_overlapping_keys :
  exists s d d',
    run_commands no_rotation no_reuse 0 fresh_device
      [CmdAttach 1 1; CmdMap 1 100 0 4096 3; CmdMap 1 10 20 8192 3;
       CmdMap 1 15 200 12288 3]
    = Some ([VIRTIO_IOMMU_S_OK; VIRTIO_IOMMU_S_OK; VIRTIO_IOMMU_S_OK;
             VIRTIO_IOMMU_S_OK], s,
            [(7, mk_entry 100 4096 (sub64 (add64 (sub64 0 100) 1) 1) IOMMU_RW);
             (7, mk_entry 10 8192 10 IOMMU_RW);
             (7, mk_entry 15 12288 185 IOMMU_RW)]) /\
    tbl_lookup (domains s) 1 = Some d /\
    inorder (mappings d)
      = [(mk_interval 10 20, mk_mapping 8192 3);
         (mk_interval 100 0, mk_mapping 4096 3);
         (mk_interval 15 200, mk_mapping 12288 3)] /\
    tbl_lookup (domains (snapshot_restore no_rotation fresh_device
                                          (snapshot_save s))) 1 = Some d' /\
    inorder (mappings d')
      = [(mk_interval 100 0, mk_mapping 4096 3);
         (mk_interval 10 20, mk_mapping 12288 3)] /\
    ~ same_contents s (snapshot_restore no_rotation fresh_device
                                        (snapshot_save s)).
Proof.
  eexists. eexists. eexists.
  split; [vm_compute; reflexivity|].
  split; [vm_compute; reflexivity|].
  split; [vm_compute; reflexivity|].
  split; [vm_compute; reflexivity|].
  split; [vm_compute; reflexivity|].
  intros (_ & H & _).
  destruct (H 1 _ eq_refl) as (d2 & Hl & _ & Hm & _).
  vm_compute in Hl. injection Hl as <-. vm_compute in Hm. discriminate.
Qed.

(** ** C9: ATTACH *)

Lemma get_endpoint_spec (s : VirtIOIOMMU) (ep_id : N) :
  (forall ep, tbl_lookup (endpoints s) ep_id = Some ep -> e_id ep = ep_id) ->
  exists s1 ep,
    virtio_iommu_get_endpoint s ep_id = (s1, ep) /\
    e_id ep = ep_id /\
    e_domain ep = match tbl_lookup (endpoints s) ep_id with
                  | Some ep0 => e_domain ep0
                  | None => None
                  end /\
    tbl_lookup (endpoints s1) ep_id = Some ep /\
    (forall e', e' <> ep_id ->
                tbl_lookup (endpoints s1) e' = tbl_lookup (endpoints s) e') /\
    domains s1 = domains s /\ notifiers_list s1 = notifiers_list s.
Proof.
  intros Hid. unfold virtio_iommu_get_endpoint.
  destruct (tbl_lookup (endpoints s) ep_id) as [ep0|] eqn:E.
  - exists s, ep0. repeat split; auto.
  - eexists. eexists. split; [reflexivity|]. simpl.
    repeat split; auto using tbl_lookup_insert_eq.
    intros e' Hne. now apply tbl_lookup_insert_ne.
Qed.

(** ATTACH step by step.  [s2] is the state after the silent detach and
    [evs] are its notifications; the target domain is linked as
    [virtio_iommu_get_domain] finds or creates it in [s2], and its tree is
    replayed. *)
Lemma attach_steps (s : VirtIOIOMMU) (domain_id ep_id : N) :
  exists s1 ep s2 evs s',
    virtio_iommu_get_endpoint s ep_id = (s1, ep) /\
    match e_domain ep with
    | Some _ => virtio_iommu_detach_endpoint_from_domain s1 ep
    | None => (s1, [])
    end = (s2, evs) /\
    virtio_iommu_attach s domain_id ep_id
      = (VIRTIO_IOMMU_S_OK, s',
         evs ++ map_all s (e_id ep)
                        (mappings (snd (virtio_iommu_get_domain s2 domain_id)))) /\
    tbl_lookup (domains s') domain_id
      = Some (mk_domain (d_id (snd (virtio_iommu_get_domain s2 domain_id)))
                        (mappings (snd (virtio_iommu_get_domain s2 domain_id)))
                        (mappings_ref (snd (virtio_iommu_get_domain s2 domain_id)) + 1)
                        (mk_cell (e_id ep) true
                         :: endpoint_list (snd (virtio_iommu_get_domain s2 domain_id)))) /\
    (forall k, k <> domain_id ->
               tbl_lookup (domains s') k = tbl_lookup (domains s2) k) /\
    tbl_lookup (endpoints s') (e_id ep)
      = Some (mk_endpoint (e_id ep) (Some domain_id)) /\
    (forall e', e' <> e_id ep ->
                tbl_lookup (endpoints s') e' = tbl_lookup (endpoints s2) e') /\
    notifiers_list s' = notifiers_list s.
Proof.
  unfold virtio_iommu_attach.
  destruct (virtio_iommu_get_endpoint s ep_id) as [s1 ep] eqn:Eg.
  assert (Hn1 : notifiers_list s1 = notifiers_list s).
  { unfold virtio_iommu_get_endpoint in Eg.
    destruct (tbl_lookup (endpoints s) ep_id); injection Eg as <- <-; reflexivity. }
  destruct (match e_domain ep with
            | Some _ => virtio_iommu_detach_endpoint_from_domain s1 ep
            | None => (s1, [])
            end) as [s2 evs] eqn:Ed.
  assert (Hn2 : notifiers_list s2 = notifiers_list s1).
  { destruct (e_domain ep) as [did|] eqn:Edom; [|injection Ed as <- <-; reflexivity].
    unfold virtio_iommu_detach_endpoint_from_domain in Ed. rewrite Edom in Ed.
    destruct (tbl_lookup (domains s1) did); injection Ed as <- <-; reflexivity. }
  exists s1, ep, s2, evs.
  destruct (virtio_iommu_get_domain s2 domain_id) as [s3 domain] eqn:Eq.
  assert (H3 : notifiers_list s3 = notifiers_list s2 /\
               endpoints s3 = endpoints s2 /\
               forall k, k <> domain_id ->
                         tbl_lookup (domains s3) k = tbl_lookup (domains s2) k).
  { unfold virtio_iommu_get_domain in Eq.
    destruct (tbl_lookup (domains s2) domain_id); injection Eq as <- <-.
    - auto.
    - split; [reflexivity|]. split; [reflexivity|].
      intros k Hne. simpl. now apply tbl_lookup_insert_ne. }
  destruct H3 as (Hn3 & He3 & Hd3).
  eexists. split; [reflexivity|]. split; [exact Ed|]. split; [|split; [|split; [|split; [|split]]]].
  - f_equal. f_equal. rewrite foreach_map_all. unfold map_all. simpl.
    rewrite Hn3, Hn2, Hn1. reflexivity.
  - simpl. apply tbl_lookup_insert_eq.
  - intros k Hne. simpl. rewrite tbl_lookup_insert_ne by assumption. now apply Hd3.
  - simpl. apply tbl_lookup_insert_eq.
  - intros e' Hne. simpl. rewrite tbl_lookup_insert_ne by assumption.
    now rewrite He3.
  - simpl. congruence.
Qed.

(** C9 (code at the failing input).  On the busy device after its snapshot
    has been loaded, the tree of domain 1 has the one reference of
    [domain_preload] although endpoints 3 and 1 are attached: the post-load
    hook takes none, where ATTACH takes one for each endpoint.  ATTACH(1, 1)
    re-attaches endpoint 1 to its own domain: the silent detach announces
    the page [0x1000, 0x1fff] as unmapped and drops the only reference, so
    that [g_tree_unref] destroys the tree before [virtio_iommu_get_domain]
    hands the domain out again.  The request returns OK, but there is no
    mapping left to replay (the source walks the freed tree there): the
    notifier of endpoint 1 is left with the UNMAP alone.  On the busy device
    itself, before the round trip, the same request sends the UNMAP and
    then the MAP, and domain 1 keeps its page. *)
Theorem attach_after_restore_replays_destroyed_tree :
  snapshot_restore no_rotation fresh_device (snapshot_save busy_device)
    = restored_busy_device /\
  (exists s1,
      virtio_iommu_attach restored_busy_device 1 1
        = (VIRTIO_IOMMU_S_OK, s1, [(7, mk_entry 4096 0 4095 IOMMU_NONE)]) /\
      tbl_lookup (domains s1) 1
        = Some (mk_domain 1 Leaf 1 [mk_cell 1 true; mk_cell 3 true]) /\
      tbl_lookup (endpoints s1) 3 = Some (mk_endpoint 3 (Some 1))) /\
  (exists s1,
      virtio_iommu_attach busy_device 1 1
        = (VIRTIO_IOMMU_S_OK, s1,
           [(7, mk_entry 4096 0 4095 IOMMU_NONE);
            (7, mk_entry 4096 40960 4095 IOMMU_RW)]) /\
      tbl_lookup (domains s1) 1
        = Some (mk_domain 1 (Node Leaf (mk_interval 4096 8191)
                                  (mk_mapping 40960 3) Leaf)
                          3 [mk_cell 1 true; mk_cell 3 true])).
Proof.
  split; [vm_compute; reflexivity|]. split.
  - eexists. split; [vm_compute; reflexivity|].
    split; vm_compute; reflexivity.
  - eexists. split; vm_compute; reflexivity.
Qed.

(** ** C10: the permission carried by MAP notifications *)

Lemma fanout_Forall (P : event -> Prop) (nodes : list IOMMUDevice)
  (cells : list ep_cell) (notify : N -> event) :
  (forall mr, P (notify mr)) -> Forall P (fanout nodes cells notify).
Proof.
  intros HP. unfold fanout. apply Forall_flat_map, Forall_forall. intros node _.
  apply Forall_flat_map, Forall_forall. intros c _.
  destruct (cell_id c =? virtio_iommu_get_sid node); [|constructor].
  constructor; [apply HP|constructor].
Qed.

Lemma foreach_notifier_of_Forall (P : event -> Prop) (s : VirtIOIOMMU)
  (ep_id : N) (f : N -> kv -> event) (t : GTree) :
  (forall mr p, P (f mr p)) -> Forall P (foreach_notifier_of s ep_id f t).
Proof.
  intros HP. unfold foreach_notifier_of.
  apply Forall_flat_map, Forall_forall. intros node _.
  destruct (ep_id =? virtio_iommu_get_sid node); [|constructor].
  apply Forall_forall. intros ev Hin. apply in_map_iff in Hin.
  destruct Hin as (p & <- & _). apply HP.
Qed.

Lemma detach_endpoint_events (s : VirtIOIOMMU) (ep : viommu_endpoint) :
  Forall (fun ev => translated_addr (snd ev) = 0 /\ perm (snd ev) = IOMMU_NONE)
         (snd (virtio_iommu_detach_endpoint_from_domain s ep)).
Proof.
  unfold virtio_iommu_detach_endpoint_from_domain.
  destruct (e_domain ep) as [did|]; [|constructor].
  destruct (tbl_lookup (domains s) did); [|constructor]. simpl.
  apply foreach_notifier_of_Forall. intros mr p. split; reflexivity.
Qed.

Lemma fanout_In (nodes : list IOMMUDevice) (cells : list ep_cell)
  (notify : N -> event) (node : IOMMUDevice) (c : ep_cell) :
  In node nodes -> In c cells -> cell_id c = virtio_iommu_get_sid node ->
  In (notify (iommu_mr node)) (fanout nodes cells notify).
Proof.
  intros Hn Hc Hid. unfold fanout. apply in_flat_map. exists node.
  split; [exact Hn|]. apply in_flat_map. exists c. split; [exact Hc|].
  rewrite Hid, N.eqb_refl. now left.
Qed.

(** C10.  Every MAP notification is the entry [map_entry k paddr]: the low
    address and the extent of the interval, the physical start, and
    permission RW; the flags of the mapping are no part of it.
    - A MAP request sends nothing but that entry for its interval, whatever
      its flags, and sends it to the region of every notifier whose id is
      that of an endpoint of the domain.
    - ATTACH sends the entries of the silent detach, all with permission
      NONE, and then, to every notifier subscribed to the endpoint and for
      every mapping of the tree the target domain is left with, the MAP
      entry of that mapping.  (Where the silent detach has destroyed that
      very tree, see C9, no mapping is left to replay.)
    - The replay operation sends, for every mapping of the domain of the
      endpoint, the UNMAP entry and then the MAP entry of that mapping.
    The flags are looked at by the translate callback alone, which denies
    (permission NONE) a read of a mapping without READ and a write of a
    mapping without WRITE. *)
Theorem map_notifications_are_rw :
  (forall k paddr, perm (map_entry k paddr) = IOMMU_RW) /\
  (forall rebalance s d vs ve p f,
      Forall (fun ev => snd ev = map_entry (mk_interval vs ve) p)
             (snd (virtio_iommu_map rebalance s d vs ve p f))) /\
  (forall rebalance s d vs ve p f dom node c,
      tbl_lookup (domains s) d = Some dom ->
      g_tree_lookup (mappings dom) (mk_interval vs ve) = None ->
      In node (notifiers_list s) -> In c (endpoint_list dom) ->
      cell_id c = virtio_iommu_get_sid node ->
      fst (fst (virtio_iommu_map rebalance s d vs ve p f)) = VIRTIO_IOMMU_S_OK /\
      In (iommu_mr node, map_entry (mk_interval vs ve) p)
         (snd (virtio_iommu_map rebalance s d vs ve p f))) /\
  (forall s d e,
      exists s' unmaps dom',
        virtio_iommu_attach s d e
          = (VIRTIO_IOMMU_S_OK, s',
             unmaps ++
             flat_map (fun node =>
                         if e_id (snd (virtio_iommu_get_endpoint s e))
                              =? virtio_iommu_get_sid node
                         then map (fun p => (iommu_mr node,
                                             map_entry (fst p) (phys_addr (snd p))))
                                  (inorder (mappings dom'))
                         else [])
                      (notifiers_list s)) /\
        tbl_lookup (domains s') d = Some dom' /\
        Forall (fun ev => translated_addr (snd ev) = 0 /\
                          perm (snd ev) = IOMMU_NONE) unmaps) /\
  (forall s sdev ep did d,
      tbl_lookup (endpoints s) (virtio_iommu_get_sid sdev) = Some ep ->
      e_domain ep = Some did -> tbl_lookup (domains s) did = Some d ->
      virtio_iommu_replay s sdev
        = flat_map (fun p => [(iommu_mr sdev, unmap_entry (fst p));
                              (iommu_mr sdev,
                               map_entry (fst p) (phys_addr (snd p)))])
                   (inorder (mappings d))) /\
  (forall s sdev addr flag ep did d k v,
      tbl_lookup (endpoints s) (virtio_iommu_get_sid sdev) = Some ep ->
      find_reserved (reserved_regions s) addr = None ->
      e_domain ep = Some did ->
      tbl_lookup (domains s) did = Some d ->
      g_tree_lookup_extended (mappings d) (mk_interval addr (add64 addr 1))
        = Some (k, v) ->
      (N.land flag IOMMU_RO <> 0 /\ N.land (flags v) VIRTIO_IOMMU_MAP_F_READ = 0) \/
      (N.land flag IOMMU_WO <> 0 /\ N.land (flags v) VIRTIO_IOMMU_MAP_F_WRITE = 0) ->
      perm (fst (virtio_iommu_translate s sdev addr flag)) = IOMMU_NONE).
Proof.
  split; [|split; [|split; [|split; [|split]]]].
  - reflexivity.
  - intros rebalance s d vs ve p f. unfold virtio_iommu_map.
    destruct (tbl_lookup (domains s) d) as [dom|]; [|constructor].
    destruct (g_tree_lookup (mappings dom) _); [constructor|]. simpl.
    apply fanout_Forall. intros mr. reflexivity.
  - intros rebalance s d vs ve p f dom node c Hd Hl Hn Hc Hid.
    unfold virtio_iommu_map. rewrite Hd, Hl. simpl. split; [reflexivity|].
    apply (fanout_In (notifiers_list s) (endpoint_list dom)
                     (fun mr => (mr, map_entry (mk_interval vs ve) p)) node c Hn Hc Hid).
  - intros s d e.
    destruct (attach_steps s d e) as (s1 & ep & s2 & evs & s' & Hg & Hd & Heq & Hl & _).
    exists s', evs.
    exists (mk_domain (d_id (snd (virtio_iommu_get_domain s2 d)))
                      (mappings (snd (virtio_iommu_get_domain s2 d)))
                      (mappings_ref (snd (virtio_iommu_get_domain s2 d)) + 1)
                      (mk_cell (e_id ep) true
                       :: endpoint_list (snd (virtio_iommu_get_domain s2 d)))).
    rewrite Hg. split; [exact Heq|]. split; [exact Hl|].
    destruct (e_domain ep).
    + pose proof (detach_endpoint_events s1 ep) as H. now rewrite Hd in H.
    + injection Hd as _ <-. constructor.
  - intros s sdev ep did d Hep Hdom Hd. unfold virtio_iommu_replay.
    rewrite Hep, Hdom, Hd. reflexivity.
  - intros s sdev addr flag ep did d k v Hep Hres Hdom Hd Hlk Hden.
    unfold virtio_iommu_translate. rewrite Hep, Hres, Hdom, Hd, Hlk.
    destruct Hden as [[H1 H2]|[H1 H2]].
    + apply N.eqb_neq in H1. rewrite H1, H2. simpl.
      destruct (negb (N.land flag IOMMU_WO =? 0) &&
                (N.land (flags v) VIRTIO_IOMMU_MAP_F_WRITE =? 0)); reflexivity.
    + apply N.eqb_neq in H1. rewrite H1, H2. simpl.
      destruct (negb (N.land flag IOMMU_RO =? 0) &&
                (N.land (flags v) VIRTIO_IOMMU_MAP_F_READ =? 0)); reflexivity.
Qed.

(** C10 at work.  On the device with endpoint 1 attached to domain 1, the
    request MAP(1, 0x1000, 0x1fff, 0xa000, READ) returns OK and the notifier
    of endpoint 1 receives the entry with permission RW; in the state the
    request leaves, a write through the new mapping is denied by the
    translate callback, and an ATTACH(1, 1) replays the mapping to the
    notifier with permission RW after the UNMAP of the silent detach. *)
Lemma map_notifications_are_rw_witness :
  (fst (fst (virtio_iommu_map no_rotation
               (snd (fst (virtio_iommu_attach fresh_device 1 1)))
               1 4096 8191 40960 VIRTIO_IOMMU_MAP_F_READ)) = VIRTIO_IOMMU_S_OK /\
   In (7, mk_entry 4096 40960 4095 IOMMU_RW)
      (snd (virtio_iommu_map no_rotation
              (snd (fst (virtio_iommu_attach fresh_device 1 1)))
              1 4096 8191 40960 VIRTIO_IOMMU_MAP_F_READ))) /\
  snd (fst (virtio_iommu_map no_rotation
              (snd (fst (virtio_iommu_attach fresh_device 1 1)))
              1 4096 8191 40960 VIRTIO_IOMMU_MAP_F_READ))
    = read_only_page_device /\
  perm (fst (virtio_iommu_translate read_only_page_device dev_0_1 4096 IOMMU_WO))
    = IOMMU_NONE /\
  exists unmaps,
    snd (virtio_iommu_attach read_only_page_device 1 1)
      = unmaps ++ [(7, mk_entry 4096 40960 4095 IOMMU_RW)] /\
    unmaps = [(7, mk_entry 4096 0 4095 IOMMU_NONE)].
Proof.
  split; [|split; [|split]].
  - apply (proj1 (proj2 (proj2 map_notifications_are_rw))
             no_rotation (snd (fst (virtio_iommu_attach fresh_device 1 1)))
             1 4096 8191 40960 VIRTIO_IOMMU_MAP_F_READ
             (mk_domain 1 Leaf 2 [mk_cell 1 true]) dev_0_1 (mk_cell 1 true)).
    + vm_compute. reflexivity.
    + reflexivity.
    + now left.
    + now left.
    + reflexivity.
  - vm_compute. reflexivity.
  - eapply (proj2 (proj2 (proj2 (proj2 (proj2 map_notifications_are_rw))))).
    + vm_compute. reflexivity.
    + reflexivity.
    + reflexivity.
    + vm_compute. reflexivity.
    + vm_compute. reflexivity.
    + right. split; [vm_compute; discriminate|reflexivity].
  - destruct (proj1 (proj2 (proj2 (proj2 map_notifications_are_rw)))
                read_only_page_device 1 1)
      as (s' & unmaps & dom' & Heq & Hl & _).
    exists unmaps.
    pose proof (f_equal (fun r => snd (fst r)) Heq) as Hs.
    vm_compute in Hs. subst s'. vm_compute in Hl. injection Hl as <-.
    rewrite Heq. split; [reflexivity|].
    pose proof (f_equal snd Heq) as He. vm_compute in He.
    destruct unmaps as [|u [|u' unmaps]]; [discriminate| |].
    + injection He as <- . reflexivity.
    + exfalso. injection He as _ _ He. destruct unmaps; discriminate.
Defined.

(** ** The links along command sequences *)

Lemma links_by_lookup_iff (s : VirtIOIOMMU) :
  links_by_lookup s <-> links_consistent s.
Proof.
  split.
  - intros (H1 & H2 & H3 & H4 & H5 & H6 & H7). constructor; auto.
    + intros k d Hin. apply H3. now apply tbl_In_lookup.
    + intros k e Hin. apply H4. now apply tbl_In_lookup.
    + intros k d c Hin. apply H5. now apply tbl_In_lookup.
    + intros k d Hin. apply (H6 k). now apply tbl_In_lookup.
    + intros k e did Hin. apply H7. now apply tbl_In_lookup.
  - intros [H1 H2 H3 H4 H5 H6 H7]. repeat split; auto.
    + intros k d Hl. apply H3. now apply tbl_lookup_In.
    + intros k e Hl. apply H4. now apply tbl_lookup_In.
    + apply (H5 k d c); [now apply tbl_lookup_In|assumption].
    + apply (H5 k d c); [now apply tbl_lookup_In|assumption].
    + intros k d Hl. apply (H6 k). now apply tbl_lookup_In.
    + intros k e did Hl. apply H7. now apply tbl_lookup_In.
Qed.

Lemma qlist_remove_In (cells : list ep_cell) (ep_id : N) (c : ep_cell) :
  In c (qlist_remove cells ep_id) -> In c cells.
Proof.
  induction cells as [|c0 cells IH]; simpl; [tauto|].
  destruct ((cell_id c0 =? ep_id) && cell_canonical c0); [now right|].
  intros [H|H]; [now left|right; auto].
Qed.

Lemma qlist_remove_nodup (cells : list ep_cell) (ep_id : N) :
  NoDup (map cell_id cells) -> NoDup (map cell_id (qlist_remove cells ep_id)).
Proof.
  induction cells as [|c cells IH]; simpl; [auto|].
  intros Hnd. inversion Hnd as [|x xs Hnotin Hnd']; subst.
  destruct ((cell_id c =? ep_id) && cell_canonical c); [assumption|].
  simpl. constructor; [|auto]. intros Hin. apply Hnotin.
  apply in_map_iff in Hin. destruct Hin as (c' & E & Hc').
  rewrite <- E. apply in_map. eapply qlist_remove_In. exact Hc'.
Qed.

Section LinkSteps.
Variable s : VirtIOIOMMU.
Hypothesis Hl : links_by_lookup s.

(** A domain keeps its id and its endpoint list (MAP, UNMAP). *)
Lemma links_domain_touch (did : N) (d d' : viommu_domain) :
  tbl_lookup (domains s) did = Some d ->
  d_id d' = d_id d -> endpoint_list d' = endpoint_list d ->
  links_by_lookup (set_domains s (tbl_insert (domains s) did d')).
Proof.
  destruct Hl as (H1 & H2 & H3 & H4 & H5 & H6 & H7). intros Hd Hid Hlist.
  unfold links_by_lookup. simpl.
  split; [now apply tbl_insert_ascending|]. split; [assumption|].
  split; [|split; [assumption|split; [|split]]].
  - intros k x. destruct (N.eq_dec k did) as [->|Hne].
    + rewrite tbl_lookup_insert_eq. intros [= <-]. rewrite Hid. now apply H3.
    + rewrite tbl_lookup_insert_ne by assumption. apply H3.
  - intros k x c. destruct (N.eq_dec k did) as [->|Hne].
    + rewrite tbl_lookup_insert_eq. intros [= <-]. rewrite Hlist. now apply H5.
    + rewrite tbl_lookup_insert_ne by assumption. apply H5.
  - intros k x. destruct (N.eq_dec k did) as [->|Hne].
    + rewrite tbl_lookup_insert_eq. intros [= <-]. unfold cell_ids.
      rewrite Hlist. now apply (H6 did).
    + rewrite tbl_lookup_insert_ne by assumption. apply H6.
  - intros k e did' He Hdom. destruct (H7 k e did' He Hdom) as (x & Hx & Hc).
    destruct (N.eq_dec did' did) as [->|Hne].
    + rewrite tbl_lookup_insert_eq. exists d'. split; [reflexivity|].
      rewrite Hlist. congruence.
    + rewrite tbl_lookup_insert_ne by assumption. eauto.
Qed.

(** A new endpoint, without domain ([virtio_iommu_get_endpoint]). *)
Lemma links_add_endpoint (e : N) :
  tbl_lookup (endpoints s) e = None ->
  links_by_lookup (set_endpoints s (tbl_insert (endpoints s) e (mk_endpoint e None))).
Proof.
  destruct Hl as (H1 & H2 & H3 & H4 & H5 & H6 & H7). intros He.
  unfold links_by_lookup. simpl.
  split; [assumption|]. split; [now apply tbl_insert_ascending|].
  split; [assumption|]. split; [|split; [|split; [assumption|]]].
  - intros k x. destruct (N.eq_dec k e) as [->|Hne].
    + rewrite tbl_lookup_insert_eq. intros [= <-]. reflexivity.
    + rewrite tbl_lookup_insert_ne by assumption. apply H4.
  - intros k d c Hd Hc. destruct (H5 k d c Hd Hc) as [Hcan Hep].
    split; [assumption|]. rewrite tbl_lookup_insert_ne; [assumption|].
    intros Heq. rewrite Heq in Hep. congruence.
  - intros k x did. destruct (N.eq_dec k e) as [->|Hne].
    + rewrite tbl_lookup_insert_eq. intros [= <-]. discriminate.
    + rewrite tbl_lookup_insert_ne by assumption. apply H7.
Qed.

(** A new domain, empty ([virtio_iommu_get_domain]). *)
Lemma links_add_domain (did : N) :
  tbl_lookup (domains s) did = None ->
  links_by_lookup (set_domains s (tbl_insert (domains s) did
                                             (mk_domain did Leaf 1 []))).
Proof.
  destruct Hl as (H1 & H2 & H3 & H4 & H5 & H6 & H7). intros Hd.
  unfold links_by_lookup. simpl.
  split; [now apply tbl_insert_ascending|]. split; [assumption|].
  split; [|split; [assumption|split; [|split]]].
  - intros k x. destruct (N.eq_dec k did) as [->|Hne].
    + rewrite tbl_lookup_insert_eq. intros [= <-]. reflexivity.
    + rewrite tbl_lookup_insert_ne by assumption. apply H3.
  - intros k x c. destruct (N.eq_dec k did) as [->|Hne].
    + rewrite tbl_lookup_insert_eq. intros [= <-] [].
    + rewrite tbl_lookup_insert_ne by assumption. apply H5.
  - intros k x. destruct (N.eq_dec k did) as [->|Hne].
    + rewrite tbl_lookup_insert_eq. intros [= <-]. constructor.
    + rewrite tbl_lookup_insert_ne by assumption. apply H6.
  - intros k e did' He Hdom. destruct (H7 k e did' He Hdom) as (x & Hx & Hc).
    rewrite tbl_lookup_insert_ne; [eauto|]. intros ->. congruence.
Qed.

(** [virtio_iommu_detach_endpoint_from_domain] on an attached endpoint. *)
Lemma links_detach_endpoint (e : N) (ep : viommu_endpoint) :
  tbl_lookup (endpoints s) e = Some ep -> e_domain ep <> None ->
  links_by_lookup (fst (virtio_iommu_detach_endpoint_from_domain s ep)) /\
  tbl_lookup (endpoints (fst (virtio_iommu_detach_endpoint_from_domain s ep))) e
    = Some (mk_endpoint e None).
Proof.
  destruct Hl as (H1 & H2 & H3 & H4 & H5 & H6 & H7). intros He Hdom.
  destruct (e_domain ep) as [did|] eqn:Edom; [clear Hdom|now elim Hdom].
  destruct (H7 e ep did He Edom) as (d0 & Hd0 & Hc0).
  pose proof (H4 e ep He) as Hid.
  unfold virtio_iommu_detach_endpoint_from_domain. rewrite Edom, Hd0, Hid.
  cbn [fst]. split; [|simpl; apply tbl_lookup_insert_eq].
  unfold links_by_lookup. simpl.
  split; [now apply tbl_insert_ascending|].
  split; [now apply tbl_insert_ascending|].
  split; [|split; [|split; [|split]]].
  - intros k x. destruct (N.eq_dec k did) as [->|Hne].
    + rewrite tbl_lookup_insert_eq. intros [= <-]. simpl. now apply H3.
    + rewrite tbl_lookup_insert_ne by assumption. apply H3.
  - intros k x. destruct (N.eq_dec k e) as [->|Hne].
    + rewrite tbl_lookup_insert_eq. intros [= <-]. reflexivity.
    + rewrite tbl_lookup_insert_ne by assumption. apply H4.
  - intros k x c. destruct (N.eq_dec k did) as [->|Hne].
    + rewrite tbl_lookup_insert_eq. intros [= <-]. simpl. intros Hc.
      destruct (H5 did d0 c Hd0 (qlist_remove_In _ _ _ Hc)) as [Hcan Hep].
      split; [assumption|]. rewrite tbl_lookup_insert_ne; [assumption|].
      intros Heq. apply (qlist_remove_unlinks (endpoint_list d0) e (H6 did d0 Hd0)).
      destruct c as [ci cc]. simpl in *. subst. exact Hc.
    + rewrite tbl_lookup_insert_ne by assumption. intros Hx Hc.
      destruct (H5 k x c Hx Hc) as [Hcan Hep].
      split; [assumption|]. rewrite tbl_lookup_insert_ne; [assumption|].
      intros Heq. rewrite Heq, He in Hep. injection Hep as Hep.
      rewrite Hep in Edom. simpl in Edom. congruence.
  - intros k x. destruct (N.eq_dec k did) as [->|Hne].
    + rewrite tbl_lookup_insert_eq. intros [= <-]. unfold cell_ids. simpl.
      apply qlist_remove_nodup. exact (H6 did d0 Hd0).
    + rewrite tbl_lookup_insert_ne by assumption. apply H6.
  - intros k x did'. destruct (N.eq_dec k e) as [->|Hne].
    + rewrite tbl_lookup_insert_eq. intros [= <-]. discriminate.
    + rewrite tbl_lookup_insert_ne by assumption. intros Hx Hxd.
      destruct (H7 k x did' Hx Hxd) as (d1 & Hd1 & Hc1).
      destruct (N.eq_dec did' did) as [->|Hne'].
      * rewrite tbl_lookup_insert_eq. eexists. split; [reflexivity|]. simpl.
        apply qlist_remove_others; [congruence|]. congruence.
      * rewrite tbl_lookup_insert_ne by assumption. eauto.
Qed.

(** The linking step of ATTACH, on an endpoint without domain. *)
Lemma links_link (e did : N) (dom : viommu_domain) :
  tbl_lookup (endpoints s) e = Some (mk_endpoint e None) ->
  tbl_lookup (domains s) did = Some dom ->
  links_by_lookup
    (set_endpoints
       (set_domains s (tbl_insert (domains s) did
                         (mk_domain (d_id dom) (mappings dom) (mappings_ref dom + 1)
                                    (mk_cell e true :: endpoint_list dom))))
       (tbl_insert (endpoints s) e (mk_endpoint e (Some did)))).
Proof.
  destruct Hl as (H1 & H2 & H3 & H4 & H5 & H6 & H7). intros He Hd.
  assert (Hfree : forall k d c, tbl_lookup (domains s) k = Some d ->
                                In c (endpoint_list d) -> cell_id c <> e).
  { intros k d c Hk Hc Heq. destruct (H5 k d c Hk Hc) as [_ Hep].
    rewrite Heq, He in Hep. discriminate. }
  unfold links_by_lookup. simpl.
  split; [now apply tbl_insert_ascending|].
  split; [now apply tbl_insert_ascending|].
  split; [|split; [|split; [|split]]].
  - intros k x. destruct (N.eq_dec k did) as [->|Hne].
    + rewrite tbl_lookup_insert_eq. intros [= <-]. simpl. now apply H3.
    + rewrite tbl_lookup_insert_ne by assumption. apply H3.
  - intros k x. destruct (N.eq_dec k e) as [->|Hne].
    + rewrite tbl_lookup_insert_eq. intros [= <-]. reflexivity.
    + rewrite tbl_lookup_insert_ne by assumption. apply H4.
  - intros k x c. destruct (N.eq_dec k did) as [->|Hne].
    + rewrite tbl_lookup_insert_eq. intros [= <-]. simpl. intros [<-|Hc].
      * simpl. split; [reflexivity|apply tbl_lookup_insert_eq].
      * destruct (H5 did dom c Hd Hc) as [Hcan Hep]. split; [assumption|].
        rewrite tbl_lookup_insert_ne; [assumption|]. exact (Hfree did dom c Hd Hc).
    + rewrite tbl_lookup_insert_ne by assumption. intros Hx Hc.
      destruct (H5 k x c Hx Hc) as [Hcan Hep]. split; [assumption|].
      rewrite tbl_lookup_insert_ne; [assumption|]. exact (Hfree k x c Hx Hc).
  - intros k x. destruct (N.eq_dec k did) as [->|Hne].
    + rewrite tbl_lookup_insert_eq. intros [= <-]. unfold cell_ids. simpl.
      constructor; [|exact (H6 did dom Hd)].
      intros Hin. apply in_map_iff in Hin. destruct Hin as (c & Hc & Hcin).
      exact (Hfree did dom c Hd Hcin Hc).
    + rewrite tbl_lookup_insert_ne by assumption. apply H6.
  - intros k x did'. destruct (N.eq_dec k e) as [->|Hne].
    + rewrite tbl_lookup_insert_eq. intros [= <-]. simpl. intros [= <-].
      rewrite tbl_lookup_insert_eq. eexists. split; [reflexivity|]. now left.
    + rewrite tbl_lookup_insert_ne by assumption. intros Hx Hxd.
      destruct (H7 k x did' Hx Hxd) as (d1 & Hd1 & Hc1).
      destruct (N.eq_dec did' did) as [->|Hne'].
      * rewrite tbl_lookup_insert_eq. eexists. split; [reflexivity|]. simpl.
        right. congruence.
      * rewrite tbl_lookup_insert_ne by assumption. eauto.
Qed.

End LinkSteps.

Lemma links_attach (s : VirtIOIOMMU) (domain_id ep_id : N) :
  links_by_lookup s ->
  links_by_lookup (snd (fst (virtio_iommu_attach s domain_id ep_id))).
Proof.
  intros Hl. unfold virtio_iommu_attach.
  assert (H1 : links_by_lookup (fst (virtio_iommu_get_endpoint s ep_id)) /\
               tbl_lookup (endpoints (fst (virtio_iommu_get_endpoint s ep_id))) ep_id
               = Some (snd (virtio_iommu_get_endpoint s ep_id))).
  { unfold virtio_iommu_get_endpoint.
    destruct (tbl_lookup (endpoints s) ep_id) as [ep0|] eqn:E; simpl.
    - split; [exact Hl|exact E].
    - split; [now apply links_add_endpoint|apply tbl_lookup_insert_eq]. }
  destruct (virtio_iommu_get_endpoint s ep_id) as [s1 ep]. simpl in H1.
  destruct H1 as [Hl1 Hep1].
  assert (Hid : e_id ep = ep_id).
  { destruct Hl1 as (_ & _ & _ & H4 & _). exact (H4 _ _ Hep1). }
  assert (H2 : links_by_lookup
                 (fst (match e_domain ep with
                       | Some _ => virtio_iommu_detach_endpoint_from_domain s1 ep
                       | None => (s1, [])
                       end)) /\
               tbl_lookup
                 (endpoints (fst (match e_domain ep with
                                  | Some _ => virtio_iommu_detach_endpoint_from_domain s1 ep
                                  | None => (s1, [])
                                  end))) ep_id
               = Some (mk_endpoint ep_id None)).
  { destruct (e_domain ep) as [did0|] eqn:Edom.
    - apply (links_detach_endpoint s1 Hl1 ep_id ep Hep1). congruence.
    - simpl. split; [exact Hl1|]. rewrite Hep1. f_equal.
      destruct ep as [i dm]. simpl in *. congruence. }
  destruct (match e_domain ep with
            | Some _ => virtio_iommu_detach_endpoint_from_domain s1 ep
            | None => (s1, [])
            end) as [s2 evs]. simpl in H2. destruct H2 as [Hl2 Hep2].
  assert (H3 : links_by_lookup (fst (virtio_iommu_get_domain s2 domain_id)) /\
               tbl_lookup (domains (fst (virtio_iommu_get_domain s2 domain_id))) domain_id
               = Some (snd (virtio_iommu_get_domain s2 domain_id)) /\
               endpoints (fst (virtio_iommu_get_domain s2 domain_id)) = endpoints s2).
  { unfold virtio_iommu_get_domain.
    destruct (tbl_lookup (domains s2) domain_id) as [d|] eqn:Ed; simpl.
    - auto.
    - split; [now apply links_add_domain|].
      split; [apply tbl_lookup_insert_eq|reflexivity]. }
  destruct (virtio_iommu_get_domain s2 domain_id) as [s3 domain]. simpl in H3.
  destruct H3 as (Hl3 & Hd3 & He3). cbn [fst snd]. rewrite Hid.
  apply (links_link s3 Hl3 ep_id domain_id domain); [|exact Hd3].
  rewrite He3. exact Hep2.
Qed.

Lemma links_detach (s : VirtIOIOMMU) (domain_id ep_id : N) :
  links_by_lookup s ->
  links_by_lookup (snd (fst (virtio_iommu_detach s domain_id ep_id))).
Proof.
  intros Hl. unfold virtio_iommu_detach.
  destruct (tbl_lookup (endpoints s) ep_id) as [ep|] eqn:E; [|exact Hl].
  destruct (e_domain ep) as [did|] eqn:Edom; [|exact Hl].
  assert (Hne : e_domain ep <> None) by congruence.
  pose proof (proj1 (links_detach_endpoint s Hl ep_id ep E Hne)) as H.
  destruct (virtio_iommu_detach_endpoint_from_domain s ep) as [s' evs]. exact H.
Qed.

Lemma links_map (rebalance : GTree -> GTree) (s : VirtIOIOMMU)
  (domain_id vs ve phys fl : N) :
  links_by_lookup s ->
  links_by_lookup (snd (fst (virtio_iommu_map rebalance s domain_id vs ve phys fl))).
Proof.
  intros Hl. unfold virtio_iommu_map.
  destruct (tbl_lookup (domains s) domain_id) as [d|] eqn:Ed; [|exact Hl].
  destruct (g_tree_lookup (mappings d) _); [exact Hl|]. simpl.
  now apply (links_domain_touch s Hl domain_id d).
Qed.

Lemma links_unmap (rebalance : GTree -> GTree)
  (after_free : viommu_interval -> viommu_interval) (fuel : nat) (s : VirtIOIOMMU)
  (domain_id vs ve : N) (r : handler_result) :
  links_by_lookup s ->
  virtio_iommu_unmap rebalance after_free fuel s domain_id vs ve = Some r ->
  links_by_lookup (snd (fst r)).
Proof.
  intros Hl. unfold virtio_iommu_unmap.
  destruct (tbl_lookup (domains s) domain_id) as [d|] eqn:Ed.
  - destruct (unmap_loop rebalance after_free fuel _ _ _ _ _) as [[[ret t'] evs]|];
      [|discriminate].
    intros [= <-]. simpl. now apply (links_domain_touch s Hl domain_id d).
  - intros [= <-]. exact Hl.
Qed.

(** The links are consistent in every state that commands reach from the
    realized device. *)
Lemma run_commands_keep_links (rebalance : GTree -> GTree)
  (after_free : viommu_interval -> viommu_interval) (fuel : nat)
  (cs : list command) (s : VirtIOIOMMU) (sts : list N) (s' : VirtIOIOMMU)
  (evs : list event) :
  links_consistent s ->
  run_commands rebalance after_free fuel s cs = Some (sts, s', evs) ->
  links_consistent s'.
Proof.
  revert s sts s' evs.
  induction cs as [|c cs IH]; intros s sts s' evs Hl; simpl.
  - intros [= _ <- _]. exact Hl.
  - destruct (run_command rebalance after_free fuel s c) as [[[st s1] evs1]|] eqn:Ec;
      [|discriminate].
    assert (Hl1 : links_consistent s1).
    { apply links_by_lookup_iff. apply links_by_lookup_iff in Hl.
      destruct c as [d e|d e|d vs ve p f|d vs ve]; simpl in Ec.
      - injection Ec as Ec. pose proof (links_attach s d e Hl) as H.
        rewrite Ec in H. exact H.
      - injection Ec as Ec. pose proof (links_detach s d e Hl) as H.
        rewrite Ec in H. exact H.
      - injection Ec as Ec. pose proof (links_map rebalance s d vs ve p f Hl) as H.
        rewrite Ec in H. exact H.
      - exact (links_unmap rebalance after_free fuel s d vs ve _ Hl Ec). }
    destruct (run_commands rebalance after_free fuel s1 cs) as [[[sts1 s2] evs2]|] eqn:Er;
      [|discriminate].
    intros [= _ <- _]. exact (IH _ _ _ _ Hl1 Er).
Qed.

Lemma realized_links_consistent (nodes : list IOMMUDevice) (features mask : N)
  (regions : list ReservedRegion) :
  links_consistent (realized nodes features mask regions).
Proof.
  constructor; simpl; try exact I; try contradiction; intros; contradiction.
Qed.

(** Every state reached from the realized device by commands whose MAP
    intervals are well formed satisfies both invariants of the data model:
    consistent links and ascending well-formed mapping tables. *)
Lemma reachable_states_well_formed (rebalance : GTree -> GTree)
  (after_free : viommu_interval -> viommu_interval) (fuel : nat)
  (nodes : list IOMMUDevice) (features mask : N) (regions : list ReservedRegion)
  (cs : list command) (sts : list N) (s : VirtIOIOMMU) (evs : list event) :
  keeps_inorder rebalance -> Forall valid_command cs ->
  run_commands rebalance after_free fuel (realized nodes features mask regions) cs
    = Some (sts, s, evs) ->
  links_consistent s /\ tables_ordered s.
Proof.
  intros Hrb Hval Hrun. split.
  - eapply run_commands_keep_links; [apply realized_links_consistent|exact Hrun].
  - eapply run_commands_keep_ordered; [exact Hrb| |exact Hval|exact Hrun].
    intros did d Hl. discriminate.
Qed.

(** * Further properties of the code *)

(** ** Lookups in a well-formed mapping table *)

(** X1.  In a mapping tree whose keys are well formed and ascending, the
    lookup of a well-formed interval returns a stored pair that shares a
    point with the query, and it returns nothing only if no stored interval
    shares a point with the query; [g_tree_lookup] finds a value exactly
    when [g_tree_lookup_extended] finds a pair. *)
Theorem lookup_finds_overlap (t : GTree) (q : viommu_interval) :
  ordered (inorder t) -> iv_valid q ->
  (forall k v, g_tree_lookup_extended t q = Some (k, v) ->
               In (k, v) (inorder t) /\ iv_overlap q k) /\
  (g_tree_lookup_extended t q = None <->
   forall p, In p (inorder t) -> ~ iv_overlap q (fst p)) /\
  (g_tree_lookup t q = None <-> g_tree_lookup_extended t q = None).
Proof.
  intros Ho Hq. split; [|split].
  - intros k v Hl. destruct (lookup_extended_sound _ _ _ _ Hl) as [Hin Hc].
    split; [exact Hin|]. apply interval_cmp_overlap; [exact Hq| |exact Hc].
    exact (ordered_valid _ _ Ho Hin).
  - rewrite (lookup_extended_none t q Ho). split.
    + intros H p Hin Hov. specialize (H p Hin).
      apply interval_cmp_overlap in Hov; [congruence|exact Hq|].
      exact (ordered_valid _ _ Ho Hin).
    + intros H p Hin. destruct (interval_cmp q (fst p) =? 0)%Z eqn:E; [|reflexivity].
      exfalso. apply (H p Hin). apply interval_cmp_overlap; [exact Hq| |exact E].
      exact (ordered_valid _ _ Ho Hin).
  - apply g_tree_lookup_none.
Qed.

Lemma lookup_finds_overlap_witness :
  ordered (inorder (Node Leaf (mk_interval 4096 8191) (mk_mapping 40960 3) Leaf)) /\
  iv_valid (mk_interval 6000 9000) /\
  g_tree_lookup_extended (Node Leaf (mk_interval 4096 8191) (mk_mapping 40960 3) Leaf)
                         (mk_interval 6000 9000) <> None.
Proof.
  assert (Ho : ordered (inorder (Node Leaf (mk_interval 4096 8191)
                                      (mk_mapping 40960 3) Leaf))).
  { simpl. unfold iv_valid. simpl. repeat split; [lia|constructor]. }
  assert (Hq : iv_valid (mk_interval 6000 9000)) by (unfold iv_valid; simpl; lia).
  split; [exact Ho|]. split; [exact Hq|].
  intros Hnone.
  apply (proj1 (proj1 (proj2 (lookup_finds_overlap _ _ Ho Hq))) Hnone
               (mk_interval 4096 8191, mk_mapping 40960 3)).
  - now left.
  - exists 6000. simpl. lia.
Defined.

(** ** MAP and UNMAP as a pair *)










(** ** Invariants of the reachable states *)

Lemma detach_endpoint_keeps_notifiers (s : VirtIOIOMMU) (ep : viommu_endpoint) :
  notifiers_list (fst (virtio_iommu_detach_endpoint_from_domain s ep))
  = notifiers_list s.
Proof.
  unfold virtio_iommu_detach_endpoint_from_domain.
  destruct (e_domain ep) as [did|]; [|reflexivity].
  destruct (tbl_lookup (domains s) did); reflexivity.
Qed.

Lemma attach_keeps_notifiers (s : VirtIOIOMMU) (domain_id ep_id : N) :
  notifiers_list (snd (fst (virtio_iommu_attach s domain_id ep_id)))
  = notifiers_list s.
Proof.
  unfold virtio_iommu_attach.
  assert (H1 : notifiers_list (fst (virtio_iommu_get_endpoint s ep_id))
               = notifiers_list s).
  { unfold virtio_iommu_get_endpoint.
    destruct (tbl_lookup (endpoints s) ep_id); reflexivity. }
  destruct (virtio_iommu_get_endpoint s ep_id) as [s1 ep]. simpl in H1.
  assert (H2 : notifiers_list
                 (fst (match e_domain ep with
                       | Some _ => virtio_iommu_detach_endpoint_from_domain s1 ep
                       | None => (s1, [])
                       end)) = notifiers_list s1).
  { destruct (e_domain ep); [apply detach_endpoint_keeps_notifiers|reflexivity]. }
  destruct (match e_domain ep with
            | Some _ => virtio_iommu_detach_endpoint_from_domain s1 ep
            | None => (s1, [])
            end) as [s2 evs]. simpl in H2.
  assert (H3 : notifiers_list (fst (virtio_iommu_get_domain s2 domain_id))
               = notifiers_list s2).
  { unfold virtio_iommu_get_domain.
    destruct (tbl_lookup (domains s2) domain_id); reflexivity. }
  destruct (virtio_iommu_get_domain s2 domain_id) as [s3 domain]. simpl in *.
  congruence.
Qed.

Lemma run_command_keeps_notifiers (rebalance : GTree -> GTree)
  (after_free : viommu_interval -> viommu_interval) (fuel : nat)
  (s : VirtIOIOMMU) (c : command) (r : handler_result) :
  run_command rebalance after_free fuel s c = Some r ->
  notifiers_list (snd (fst r)) = notifiers_list s.
Proof.
  destruct c as [d e|d e|d vs ve p f|d vs ve]; simpl.
  - intros [= <-]. apply attach_keeps_notifiers.
  - intros [= <-]. unfold virtio_iommu_detach.
    destruct (tbl_lookup (endpoints s) e) as [ep|]; [|reflexivity].
    destruct (e_domain ep); [|reflexivity].
    pose proof (detach_endpoint_keeps_notifiers s ep) as H.
    destruct (virtio_iommu_detach_endpoint_from_domain s ep). exact H.
  - intros [= <-]. unfold virtio_iommu_map.
    destruct (tbl_lookup (domains s) d) as [dom|]; [|reflexivity].
    destruct (g_tree_lookup (mappings dom) _); reflexivity.
  - unfold virtio_iommu_unmap.
    destruct (tbl_lookup (domains s) d) as [dom|]; [|intros [= <-]; reflexivity].
    destruct (unmap_loop rebalance after_free fuel _ _ _ _ _) as [[[ret t'] evs]|];
      [|discriminate].
    intros [= <-]. reflexivity.
Qed.

Lemma run_commands_keep_notifiers (rebalance : GTree -> GTree)
  (after_free : viommu_interval -> viommu_interval) (fuel : nat)
  (cs : list command) (s0 : VirtIOIOMMU) (sts : list N) (s : VirtIOIOMMU)
  (evs : list event) :
  run_commands rebalance after_free fuel s0 cs = Some (sts, s, evs) ->
  notifiers_list s = notifiers_list s0.
Proof.
  revert s0 sts s evs. induction cs as [|c cs IH]; intros s0 sts s evs; simpl.
  - intros [= _ <- _]. reflexivity.
  - destruct (run_command rebalance after_free fuel s0 c) as [[[st s1] evs1]|] eqn:Ec;
      [|discriminate].
    destruct (run_commands rebalance after_free fuel s1 cs) as [[[sts1 s2] evs2]|] eqn:Er;
      [|discriminate].
    intros [= _ <- _]. rewrite (IH _ _ _ _ Er).
    exact (run_command_keeps_notifiers _ _ _ _ _ _ Ec).
Qed.

(** X5.  In every state that ATTACH, DETACH, MAP and UNMAP commands reach
    from the realized device, whatever their arguments, the links between
    endpoints and domains are consistent: an endpoint with a domain is in
    the endpoint list of that domain, which exists; every cell of a
    domain's endpoint list stands for an endpoint whose domain is this
    one; and no endpoint id occurs twice in a list. *)
Theorem reachable_links_hold (rebalance : GTree -> GTree)
  (after_free : viommu_interval -> viommu_interval) (fuel : nat)
  (nodes : list IOMMUDevice) (features mask : N) (regions : list ReservedRegion)
  (cs : list command) (sts : list N) (s : VirtIOIOMMU) (evs : list event) :
  run_commands rebalance after_free fuel (realized nodes features mask regions) cs
    = Some (sts, s, evs) ->
  (forall e ep did,
      tbl_lookup (endpoints s) e = Some ep -> e_domain ep = Some did ->
      exists d, tbl_lookup (domains s) did = Some d /\
                In (mk_cell e true) (endpoint_list d)) /\
  (forall did d c,
      tbl_lookup (domains s) did = Some d -> In c (endpoint_list d) ->
      cell_canonical c = true /\
      tbl_lookup (endpoints s) (cell_id c)
        = Some (mk_endpoint (cell_id c) (Some did))) /\
  (forall did d, tbl_lookup (domains s) did = Some d ->
                 NoDup (map cell_id (endpoint_list d))) /\
  (forall e ep, tbl_lookup (endpoints s) e = Some ep -> e_id ep = e) /\
  (forall did d, tbl_lookup (domains s) did = Some d -> d_id d = did) /\
  notifiers_list s = nodes.
Proof.
  intros Hrun.
  assert (Hl : links_consistent s).
  { eapply run_commands_keep_links; [apply realized_links_consistent|exact Hrun]. }
  apply links_by_lookup_iff in Hl.
  destruct Hl as (H1 & H2 & H3 & H4 & H5 & H6 & H7).
  split; [exact H7|]. split; [exact H5|]. split; [exact H6|].
  split; [exact H4|]. split; [exact H3|].
  exact (run_commands_keep_notifiers _ _ _ _ _ _ _ _ Hrun).
Qed.

Lemma reachable_links_hold_witness :
  run_commands no_rotation no_reuse 0 fresh_device
    [CmdAttach 1 3; CmdAttach 1 1; CmdAttach 2 2; CmdAttach 2 4; CmdDetach 2 4;
     CmdMap 1 4096 8191 40960 3]
  = Some ([0; 0; 0; 0; 0; 0], busy_device,
          [virtio_iommu_notify_map 7 4096 40960 4096]) /\
  (forall e ep did,
      tbl_lookup (endpoints busy_device) e = Some ep -> e_domain ep = Some did ->
      exists d, tbl_lookup (domains busy_device) did = Some d /\
                In (mk_cell e true) (endpoint_list d)).
Proof.
  assert (Hrun : run_commands no_rotation no_reuse 0 fresh_device
    [CmdAttach 1 3; CmdAttach 1 1; CmdAttach 2 2; CmdAttach 2 4; CmdDetach 2 4;
     CmdMap 1 4096 8191 40960 3]
  = Some ([0; 0; 0; 0; 0; 0], busy_device,
          [virtio_iommu_notify_map 7 4096 40960 4096])) by (vm_compute; reflexivity).
  split; [exact Hrun|].
  exact (proj1 (reachable_links_hold no_rotation no_reuse 0 _ _ _ _ _ _ _ _ Hrun)).
Defined.

(** X6.  When every MAP command of the sequence has
    virt_start <= virt_end, every state reached from the realized device
    keeps, in each domain, a table of well-formed intervals in ascending
    order, no two of which share a point. *)
Theorem reachable_tables_disjoint (rebalance : GTree -> GTree)
  (after_free : viommu_interval -> viommu_interval) (fuel : nat)
  (nodes : list IOMMUDevice) (features mask : N) (regions : list ReservedRegion)
  (cs : list command) (sts : list N) (s : VirtIOIOMMU) (evs : list event) :
  keeps_inorder rebalance -> Forall valid_command cs ->
  run_commands rebalance after_free fuel (realized nodes features mask regions) cs
    = Some (sts, s, evs) ->
  forall did d, tbl_lookup (domains s) did = Some d ->
    ordered (inorder (mappings d)) /\
    (forall p, In p (inorder (mappings d)) -> low (fst p) <= high (fst p)) /\
    (forall p p', In p (inorder (mappings d)) -> In p' (inorder (mappings d)) ->
                  iv_overlap (fst p) (fst p') -> p = p').
Proof.
  intros Hrb Hval Hrun did d Hd.
  assert (Ho : ordered (inorder (mappings d))).
  { refine (run_commands_keep_ordered rebalance after_free fuel cs _ sts s evs Hrb _ Hval Hrun did d Hd).
    intros did' d' Hl. discriminate. }
  split; [exact Ho|]. split; [intros p Hin; exact (ordered_valid _ _ Ho Hin)|].
  revert Ho. generalize (inorder (mappings d)). clear.
  induction l as [|a l IH]; simpl; [intros _ p p' []|].
  intros (Hv & Hall & Ho) p p' [<-|Hin] [<-|Hin'] Hov; auto.
  - rewrite Forall_forall in Hall. specialize (Hall _ Hin').
    destruct Hov as (x & H1 & H2). unfold iv_lt in Hall. lia.
  - rewrite Forall_forall in Hall. specialize (Hall _ Hin).
    destruct Hov as (x & H1 & H2). unfold iv_lt in Hall. lia.
Qed.

Lemma reachable_tables_disjoint_witness :
  keeps_inorder no_rotation /\
  Forall valid_command [CmdAttach 1 1; CmdMap 1 4096 8191 40960 3] /\
  ordered (inorder (Node Leaf (mk_interval 4096 8191) (mk_mapping 40960 3) Leaf)).
Proof.
  assert (Hrb : keeps_inorder no_rotation) by (intros t; reflexivity).
  assert (Hval : Forall valid_command [CmdAttach 1 1; CmdMap 1 4096 8191 40960 3]).
  { repeat constructor. simpl. lia. }
  split; [exact Hrb|]. split; [exact Hval|].
  exact (proj1 (reachable_tables_disjoint no_rotation no_reuse 0 _ _ _ _ _ _ _ _ Hrb Hval
                  one_page_device_reachable 1 _ eq_refl)).
Defined.

(** ** The translate callback *)

Lemma ordered_overlap_unique (l : list kv) (p p' : kv) :
  ordered l -> In p l -> In p' l -> iv_overlap (fst p) (fst p') -> p = p'.
Proof.
  induction l as [|a l IH]; simpl; [intros _ []|].
  intros (Hv & Hall & Ho) [<-|Hin] [<-|Hin'] Hov; auto.
  - rewrite Forall_forall in Hall. specialize (Hall _ Hin').
    destruct Hov as (x & H1 & H2). unfold iv_lt in Hall. lia.
  - rewrite Forall_forall in Hall. specialize (Hall _ Hin).
    destruct Hov as (x & H1 & H2). unfold iv_lt in Hall. lia.
Qed.

Lemma lookup_inside_interval (t : GTree) (addr : N) (k : viommu_interval)
  (v : viommu_mapping) :
  ordered (inorder t) -> In (k, v) (inorder t) ->
  low k <= addr -> addr < high k -> addr < UINT64_MAX ->
  g_tree_lookup_extended t (mk_interval addr (add64 addr 1)) = Some (k, v).
Proof.
  intros Ho Hin Hlo Hhi Hmax.
  assert (Hadd : add64 addr 1 = addr + 1).
  { unfold add64. apply N.mod_small. unfold UINT64_MAX, two64 in *. lia. }
  rewrite Hadd.
  destruct (g_tree_lookup_extended t (mk_interval addr (addr + 1)))
    as [[k' v']|] eqn:E.
  - destruct (lookup_extended_sound _ _ _ _ E) as [Hin' Hc].
    apply interval_cmp_eq0 in Hc. simpl in Hc.
    pose proof (ordered_valid _ _ Ho Hin') as Hv'. unfold iv_valid in Hv'.
    simpl in Hv'. f_equal. apply (ordered_overlap_unique _ _ _ Ho Hin' Hin).
    simpl. exists (N.max addr (low k')). lia.
  - exfalso. refine (lookup_extended_complete _ _ (k, v) Ho Hin _ E).
    apply interval_cmp_eq0. simpl. lia.
Qed.

(** X7.  Translation is exact strictly inside a stored interval.  For an
    endpoint attached to a domain with a well-formed table, an address
    outside the reserved regions with low <= addr < high for a stored
    interval: the lookup returns that interval and no other; when the
    mapping's flags allow the requested access the entry returned is
    translated_addr = addr - low + phys_addr with perm equal to the
    request and no fault; otherwise perm is NONE, the address is returned
    untranslated and one MAPPING fault is reported for the address with
    the ADDRESS flag set. *)
Theorem translate_inside_interval (s : VirtIOIOMMU) (sdev : IOMMUDevice)
  (addr flag : N) (ep : viommu_endpoint) (did : N) (d : viommu_domain)
  (k : viommu_interval) (v : viommu_mapping) :
  tbl_lookup (endpoints s) (virtio_iommu_get_sid sdev) = Some ep ->
  find_reserved (reserved_regions s) addr = None ->
  e_domain ep = Some did -> tbl_lookup (domains s) did = Some d ->
  ordered (inorder (mappings d)) -> In (k, v) (inorder (mappings d)) ->
  low k <= addr -> addr < high k -> addr < UINT64_MAX ->
  let r := virtio_iommu_translate s sdev addr flag in
  let mask := N.shiftl 1 (ctz32 (page_size_mask s)) - 1 in
  g_tree_lookup_extended (mappings d) (mk_interval addr (add64 addr 1))
    = Some (k, v) /\
  ((N.land flag IOMMU_RO = 0 \/ N.land (flags v) VIRTIO_IOMMU_MAP_F_READ <> 0) ->
   (N.land flag IOMMU_WO = 0 \/ N.land (flags v) VIRTIO_IOMMU_MAP_F_WRITE <> 0) ->
   r = (mk_entry addr (add64 (sub64 addr (low k)) (phys_addr v)) mask flag, [])) /\
  ((N.land flag IOMMU_RO <> 0 /\ N.land (flags v) VIRTIO_IOMMU_MAP_F_READ = 0) \/
   (N.land flag IOMMU_WO <> 0 /\ N.land (flags v) VIRTIO_IOMMU_MAP_F_WRITE = 0) ->
   exists fl,
     r = (mk_entry addr addr mask IOMMU_NONE,
          [mk_fault VIRTIO_IOMMU_FAULT_R_MAPPING fl (virtio_iommu_get_sid sdev) addr]) /\
     N.land fl VIRTIO_IOMMU_FAULT_F_ADDRESS <> 0).
Proof.
  intros Hep Hres Hdom Hd Ho Hin Hlo Hhi Hmax. cbv zeta.
  pose proof (lookup_inside_interval _ _ _ _ Ho Hin Hlo Hhi Hmax) as Hlk.
  split; [exact Hlk|].
  unfold virtio_iommu_translate. rewrite Hep, Hres, Hdom, Hd, Hlk. split.
  - intros Hr Hw.
    assert (E1 : negb (N.land flag IOMMU_RO =? 0) &&
                 (N.land (flags v) VIRTIO_IOMMU_MAP_F_READ =? 0) = false).
    { destruct Hr as [->|Hr]; [reflexivity|]. apply N.eqb_neq in Hr. rewrite Hr.
      apply andb_false_r. }
    assert (E2 : negb (N.land flag IOMMU_WO =? 0) &&
                 (N.land (flags v) VIRTIO_IOMMU_MAP_F_WRITE =? 0) = false).
    { destruct Hw as [->|Hw]; [reflexivity|]. apply N.eqb_neq in Hw. rewrite Hw.
      apply andb_false_r. }
    rewrite E1, E2. reflexivity.
  - intros Hden.
    remember (negb (N.land flag IOMMU_RO =? 0) &&
              (N.land (flags v) VIRTIO_IOMMU_MAP_F_READ =? 0)) as rf eqn:Erf.
    remember (negb (N.land flag IOMMU_WO =? 0) &&
              (N.land (flags v) VIRTIO_IOMMU_MAP_F_WRITE =? 0)) as wf eqn:Ewf.
    assert (Hany : rf = true \/ wf = true).
    { destruct Hden as [[H1 H2]|[H1 H2]]; [left|right]; subst rf wf;
        apply N.eqb_neq in H1; rewrite H1, H2; reflexivity. }
    clear Erf Ewf.
    exists (N.lor (N.lor (if rf then VIRTIO_IOMMU_FAULT_F_READ else 0)
                         (if wf then VIRTIO_IOMMU_FAULT_F_WRITE else 0))
                  VIRTIO_IOMMU_FAULT_F_ADDRESS).
    split.
    + destruct rf, wf; try reflexivity. destruct Hany; discriminate.
    + destruct rf, wf; vm_compute; discriminate.
Qed.

Lemma translate_inside_interval_witness :
  virtio_iommu_translate one_page_device dev_0_1 6844 IOMMU_RO
  = (mk_entry 6844 43708 4095 IOMMU_RO, []).
Proof.
  refine (proj1 (proj2 (translate_inside_interval one_page_device dev_0_1 6844
                          IOMMU_RO (mk_endpoint 1 (Some 1)) 1
                          (mk_domain 1 (Node Leaf (mk_interval 4096 8191)
                                             (mk_mapping 40960 3) Leaf)
                                     2 [mk_cell 1 true])
                          (mk_interval 4096 8191) (mk_mapping 40960 3)
                          _ _ _ _ _ _ _ _ _)) _ _).
  - vm_compute. reflexivity.
  - reflexivity.
  - reflexivity.
  - vm_compute. reflexivity.
  - simpl. unfold iv_valid. simpl. repeat split; [lia|constructor].
  - simpl. now left.
  - simpl. lia.
  - simpl. lia.
  - unfold UINT64_MAX. lia.
  - right. vm_compute. discriminate.
  - left. reflexivity.
Defined.

(** X8.  What the translate callback reports.  The entry always carries
    the address asked for, and its perm is the requested access or NONE.
    At most one fault is reported per call, and only with perm NONE and
    the address returned untranslated; the fault names the endpoint.  Its
    reason is UNKNOWN exactly for an endpoint absent from the endpoint
    tree, DOMAIN for a known endpoint without domain, MAPPING in all other
    cases; UNKNOWN and DOMAIN faults carry address 0 and no flags, MAPPING
    faults carry the address.  With BYPASS negotiated, an unknown endpoint
    and, outside the reserved regions, an endpoint without domain are
    translated by the identity, with no fault. *)
Theorem translate_fault_report (s : VirtIOIOMMU) (sdev : IOMMUDevice)
  (addr flag : N) :
  let r := virtio_iommu_translate s sdev addr flag in
  let sid := virtio_iommu_get_sid sdev in
  let mask := N.shiftl 1 (ctz32 (page_size_mask s)) - 1 in
  iova (fst r) = addr /\ addr_mask (fst r) = mask /\
  (perm (fst r) = flag \/ perm (fst r) = IOMMU_NONE) /\
  (snd r = [] \/
   exists f, snd r = [f] /\ fst r = mk_entry addr addr mask IOMMU_NONE /\
     f_endpoint f = sid /\
     ((f_reason f = VIRTIO_IOMMU_FAULT_R_UNKNOWN /\
       tbl_lookup (endpoints s) sid = None /\ f_address f = 0 /\ f_flags f = 0) \/
      (f_reason f = VIRTIO_IOMMU_FAULT_R_DOMAIN /\
       (exists ep, tbl_lookup (endpoints s) sid = Some ep /\ e_domain ep = None) /\
       f_address f = 0 /\ f_flags f = 0) \/
      (f_reason f = VIRTIO_IOMMU_FAULT_R_MAPPING /\
       (exists ep, tbl_lookup (endpoints s) sid = Some ep) /\
       f_address f = addr))) /\
  (virtio_has_feature (acked_features s) VIRTIO_IOMMU_F_BYPASS = true ->
   (tbl_lookup (endpoints s) sid = None \/
    (exists ep, tbl_lookup (endpoints s) sid = Some ep /\ e_domain ep = None /\
                find_reserved (reserved_regions s) addr = None)) ->
   r = (mk_entry addr addr mask flag, [])).
Proof.
  cbv zeta. unfold virtio_iommu_translate.
  destruct (tbl_lookup (endpoints s) (virtio_iommu_get_sid sdev)) as [ep|] eqn:Eep.
  2:{ destruct (virtio_has_feature _ _) eqn:Eb; simpl.
      - translate_report_parts; [now left|reflexivity].
      - translate_report_parts; [|discriminate].
        right. eexists. split; [reflexivity|]. split; [reflexivity|].
        split; [reflexivity|]. left. auto. }
  destruct (find_reserved (reserved_regions s) addr) as [reg|] eqn:Ereg.
  { destruct (r_type reg =? VIRTIO_IOMMU_RESV_MEM_T_MSI); simpl.
    - translate_report_parts; [now left|].
      intros _ [H|(ep' & _ & _ & H)]; discriminate.
    - translate_report_parts.
      + right. eexists. split; [reflexivity|]. split; [reflexivity|].
        split; [reflexivity|]. right. right. simpl. eauto.
      + intros _ [H|(ep' & _ & _ & H)]; discriminate. }
  destruct (e_domain ep) as [did|] eqn:Edom.
  2:{ destruct (virtio_has_feature _ _) eqn:Eb; simpl.
      - translate_report_parts; [now left|reflexivity].
      - translate_report_parts; [|discriminate].
        right. eexists. split; [reflexivity|]. split; [reflexivity|].
        split; [reflexivity|]. right. left. simpl. eauto 6. }
  assert (Hby : Some ep = None \/
                (exists ep0, Some ep = Some ep0 /\ e_domain ep0 = None /\
                             @None ReservedRegion = None) -> False).
  { intros [H|(ep0 & [= <-] & H & _)]; [discriminate|congruence]. }
  destruct (tbl_lookup (domains s) did) as [d|] eqn:Ed.
  2:{ simpl. translate_report_parts; [now left|]. intros _ H. now destruct Hby. }
  destruct (g_tree_lookup_extended (mappings d) _) as [[k v]|] eqn:Elk.
  2:{ simpl. translate_report_parts; [|intros _ H; now destruct Hby].
      right. eexists. split; [reflexivity|]. split; [reflexivity|].
      split; [reflexivity|]. right. right. simpl. eauto. }
  destruct (negb (N.land flag IOMMU_RO =? 0) &&
            (N.land (flags v) VIRTIO_IOMMU_MAP_F_READ =? 0));
    destruct (negb (N.land flag IOMMU_WO =? 0) &&
              (N.land (flags v) VIRTIO_IOMMU_MAP_F_WRITE =? 0)); simpl;
    (translate_report_parts; [|intros _ H; now destruct Hby]);
    try (now left);
    right; eexists; (split; [reflexivity|]); (split; [reflexivity|]);
    (split; [reflexivity|]); right; right; simpl; eauto.
Qed.

Lemma find_reserved_first (regions : list ReservedRegion) (addr : N)
  (reg : ReservedRegion) :
  find_reserved regions addr = Some reg <->
  exists before after,
    regions = before ++ reg :: after /\
    (r_low reg <= addr /\ addr <= r_high reg) /\
    Forall (fun r => ~ (r_low r <= addr /\ addr <= r_high r)) before.
Proof.
  induction regions as [|r regions IH]; simpl.
  - split; [discriminate|]. intros (b & a & H & _). destruct b; discriminate.
  - destruct (N.leb_spec (r_low r) addr) as [H1|H1];
      [destruct (N.leb_spec addr (r_high r)) as [H2|H2]|]; simpl.
    + split.
      * intros [= <-]. exists [], regions. repeat split; auto.
      * intros ([|b0 b] & a & Heq & Hin & Hall); simpl in Heq.
        -- congruence.
        -- injection Heq as <- _. inversion Hall; subst. tauto.
    + rewrite IH. split.
      * intros (b & a & -> & Hin & Hall). exists (r :: b), a.
        repeat split; try tauto. constructor; [lia|exact Hall].
      * intros ([|b0 b] & a & Heq & Hin & Hall); simpl in Heq.
        -- injection Heq as <- _. lia.
        -- injection Heq as <- ->. inversion Hall; subst. eauto 6.
    + rewrite IH. split.
      * intros (b & a & -> & Hin & Hall). exists (r :: b), a.
        repeat split; try tauto. constructor; [lia|exact Hall].
      * intros ([|b0 b] & a & Heq & Hin & Hall); simpl in Heq.
        -- injection Heq as <- _. lia.
        -- injection Heq as <- ->. inversion Hall; subst. eauto 6.
Qed.

(** X9.  Reserved regions come before the mappings.  For a known endpoint
    and an address inside a reserved region, the first such region in
    configuration order decides, whatever the endpoint's domain, its
    mappings and the BYPASS feature: an MSI region gives the identity
    translation with the requested access and no fault, any other type
    gives perm NONE and one MAPPING fault for the address.  For an unknown
    endpoint the reserved regions are not looked at. *)
Theorem translate_reserved_region (s : VirtIOIOMMU) (sdev : IOMMUDevice)
  (addr flag : N) :
  let r := virtio_iommu_translate s sdev addr flag in
  let sid := virtio_iommu_get_sid sdev in
  let mask := N.shiftl 1 (ctz32 (page_size_mask s)) - 1 in
  (forall ep before reg after,
      tbl_lookup (endpoints s) sid = Some ep ->
      reserved_regions s = before ++ reg :: after ->
      r_low reg <= addr <= r_high reg ->
      Forall (fun r0 => ~ (r_low r0 <= addr /\ addr <= r_high r0)) before ->
      (r_type reg = VIRTIO_IOMMU_RESV_MEM_T_MSI ->
       r = (mk_entry addr addr mask flag, [])) /\
      (r_type reg <> VIRTIO_IOMMU_RESV_MEM_T_MSI ->
       r = (mk_entry addr addr mask IOMMU_NONE,
            [mk_fault VIRTIO_IOMMU_FAULT_R_MAPPING 0 sid addr]))) /\
  (tbl_lookup (endpoints s) sid = None ->
   r = if virtio_has_feature (acked_features s) VIRTIO_IOMMU_F_BYPASS
       then (mk_entry addr addr mask flag, [])
       else (mk_entry addr addr mask IOMMU_NONE,
             [mk_fault VIRTIO_IOMMU_FAULT_R_UNKNOWN 0 sid 0])).
Proof.
  cbv zeta. split.
  - intros ep before reg after Hep Hregs Hin Hall.
    assert (Hf : find_reserved (reserved_regions s) addr = Some reg).
    { apply find_reserved_first. exists before, after. auto. }
    unfold virtio_iommu_translate. rewrite Hep, Hf. split.
    + intros ->. reflexivity.
    + intros Hne. apply N.eqb_neq in Hne. rewrite Hne. reflexivity.
  - intros Hep. unfold virtio_iommu_translate. rewrite Hep.
    destruct (virtio_has_feature _ _); reflexivity.
Qed.

Lemma translate_reserved_region_witness :
  virtio_iommu_translate
    (mk_viommu (domains one_page_device) (endpoints one_page_device) [dev_0_1] 0
               18446744073709547520 512
               [mk_resv 0 100 VIRTIO_IOMMU_RESV_MEM_T_RESERVED;
                mk_resv 4096 8191 VIRTIO_IOMMU_RESV_MEM_T_MSI])
    dev_0_1 5000 IOMMU_WO
  = (mk_entry 5000 5000 4095 IOMMU_WO, []).
Proof.
  refine (proj1 (proj1 (translate_reserved_region _ dev_0_1 5000 IOMMU_WO)
                       (mk_endpoint 1 (Some 1))
                       [mk_resv 0 100 VIRTIO_IOMMU_RESV_MEM_T_RESERVED]
                       (mk_resv 4096 8191 VIRTIO_IOMMU_RESV_MEM_T_MSI) []
                       _ _ _ _) _).
  - vm_compute. reflexivity.
  - reflexivity.
  - simpl. lia.
  - repeat constructor. simpl. lia.
  - reflexivity.
Defined.

(** ** The request queue *)

Lemma run_command_status (rebalance : GTree -> GTree)
  (after_free : viommu_interval -> viommu_interval) (fuel : nat)
  (s : VirtIOIOMMU) (c : command) (st : N) (s' : VirtIOIOMMU) (evs : list event) :
  run_command rebalance after_free fuel s c = Some (st, s', evs) ->
  In st [VIRTIO_IOMMU_S_OK; VIRTIO_IOMMU_S_INVAL; VIRTIO_IOMMU_S_RANGE;
         VIRTIO_IOMMU_S_NOENT] /\
  (st <> VIRTIO_IOMMU_S_OK -> st <> VIRTIO_IOMMU_S_RANGE -> s' = s /\ evs = []).
Proof.
  destruct c as [d e|d e|d vs ve p f|d vs ve]; simpl.
  - unfold virtio_iommu_attach.
    destruct (virtio_iommu_get_endpoint s e) as [s1 ep].
    destruct (match e_domain ep with
              | Some _ => virtio_iommu_detach_endpoint_from_domain s1 ep
              | None => (s1, [])
              end) as [s2 evs2].
    destruct (virtio_iommu_get_domain s2 d) as [s3 dom].
    intros [= <- <- <-]. split; [now left|]. intros H; now destruct H.
  - unfold virtio_iommu_detach.
    destruct (tbl_lookup (endpoints s) e) as [ep|].
    2:{ intros [= <- <- <-]. split; [simpl; tauto|auto]. }
    destruct (e_domain ep).
    2:{ intros [= <- <- <-]. split; [simpl; tauto|auto]. }
    destruct (virtio_iommu_detach_endpoint_from_domain s ep) as [s1 evs1].
    intros [= <- <- <-]. split; [now left|]. intros H; now destruct H.
  - unfold virtio_iommu_map.
    destruct (tbl_lookup (domains s) d) as [dom|].
    2:{ intros [= <- <- <-]. split; [simpl; tauto|auto]. }
    destruct (g_tree_lookup (mappings dom) _).
    + intros [= <- <- <-]. split; [simpl; tauto|auto].
    + intros [= <- <- <-]. split; [now left|]. intros H; now destruct H.
  - unfold virtio_iommu_unmap.
    destruct (tbl_lookup (domains s) d) as [dom|].
    2:{ intros [= <- <- <-]. split; [simpl; tauto|auto]. }
    destruct (unmap_loop rebalance after_free fuel _ _ _ _ _) as [[[ret t'] evs1]|] eqn:El;
      [|discriminate].
    intros [= <- <- <-].
    assert (Hret : ret = VIRTIO_IOMMU_S_OK \/ ret = VIRTIO_IOMMU_S_RANGE).
    { clear -El. revert El. generalize (mappings dom) as t.
      generalize (@nil event) as sent.
      induction fuel as [|fuel IH]; intros sent t; simpl; [discriminate|].
      destruct (g_tree_lookup_extended t _) as [[k v]|].
      - destruct ((vs <=? low k) && (high k <=? ve)).
        + unfold virtio_iommu_remove_mapping. apply IH.
        + intros [= <- _ _]. now right.
      - intros [= <- _ _]. now left. }
    split.
    + destruct Hret as [->| ->]; simpl; tauto.
    + intros H1 H2. destruct Hret; contradiction.
Qed.

Lemma handlers_decode (rebalance : GTree -> GTree)
  (after_free : viommu_interval -> viommu_interval) (fuel : nat)
  (s : VirtIOIOMMU) (iov : list N) :
  (virtio_iommu_handle_attach s iov = (VIRTIO_IOMMU_S_INVAL, s, []) \/
   exists c, Some (virtio_iommu_handle_attach s iov)
             = run_command rebalance after_free fuel s c) /\
  (virtio_iommu_handle_detach s iov = (VIRTIO_IOMMU_S_INVAL, s, []) \/
   exists c, Some (virtio_iommu_handle_detach s iov)
             = run_command rebalance after_free fuel s c) /\
  (virtio_iommu_handle_map rebalance s iov = (VIRTIO_IOMMU_S_INVAL, s, []) \/
   exists c, Some (virtio_iommu_handle_map rebalance s iov)
             = run_command rebalance after_free fuel s c) /\
  (virtio_iommu_handle_unmap rebalance after_free fuel s iov
     = Some (VIRTIO_IOMMU_S_INVAL, s, []) \/
   exists c, virtio_iommu_handle_unmap rebalance after_free fuel s iov
             = run_command rebalance after_free fuel s c).
Proof.
  unfold virtio_iommu_handle_attach, virtio_iommu_handle_detach,
    virtio_iommu_handle_map, virtio_iommu_handle_unmap, virtio_iommu_iov_to_req.
  repeat split.
  - destruct (negb (iov_size _ =? _)); simpl; [now left|right].
    now exists (CmdAttach (le32_at (iov_to_buf iov (sizeof_req_attach - sizeof_tail)) 4)
                          (le32_at (iov_to_buf iov (sizeof_req_attach - sizeof_tail)) 8)).
  - destruct (negb (iov_size _ =? _)); simpl; [now left|right].
    now exists (CmdDetach (le32_at (iov_to_buf iov (sizeof_req_detach - sizeof_tail)) 4)
                          (le32_at (iov_to_buf iov (sizeof_req_detach - sizeof_tail)) 8)).
  - destruct (negb (iov_size _ =? _)); simpl; [now left|right].
    now exists (CmdMap (le32_at (iov_to_buf iov (sizeof_req_map - sizeof_tail)) 4)
                       (le64_at (iov_to_buf iov (sizeof_req_map - sizeof_tail)) 8)
                       (le64_at (iov_to_buf iov (sizeof_req_map - sizeof_tail)) 16)
                       (le64_at (iov_to_buf iov (sizeof_req_map - sizeof_tail)) 24)
                       (le32_at (iov_to_buf iov (sizeof_req_map - sizeof_tail)) 32)).
  - destruct (negb (iov_size _ =? _)); simpl; [now left|right].
    now exists (CmdUnmap (le32_at (iov_to_buf iov (sizeof_req_unmap - sizeof_tail)) 4)
                         (le64_at (iov_to_buf iov (sizeof_req_unmap - sizeof_tail)) 8)
                         (le64_at (iov_to_buf iov (sizeof_req_unmap - sizeof_tail)) 16)).
Qed.

Lemma handle_element_inv (rebalance : GTree -> GTree)
  (after_free : viommu_interval -> viommu_interval) (fuel : nat)
  (s : VirtIOIOMMU) (elem : VirtQueueElement) (s' : VirtIOIOMMU)
  (evs : list event) (out : elem_outcome) :
  handle_element rebalance after_free fuel s elem = Some (s', evs, out) ->
  (out = ElemBadSize /\ s' = s /\ evs = [] /\
   (in_size elem < sizeof_tail \/ iov_size (out_sg elem) < sizeof_head)) \/
  (sizeof_tail <= in_size elem /\ sizeof_head <= iov_size (out_sg elem) /\
   ((exists st, (st = VIRTIO_IOMMU_S_INVAL \/ st = VIRTIO_IOMMU_S_UNSUPP) /\
                s' = s /\ evs = [] /\ out = ElemPushed st [] sizeof_tail) \/
    (exists c st, run_command rebalance after_free fuel s c = Some (st, s', evs) /\
                  out = ElemPushed st [] sizeof_tail) \/
    (hd 0 (out_sg elem) = VIRTIO_IOMMU_T_PROBE /\ s' = s /\ evs = [] /\
     ((out = ElemAssertFailed /\ in_size elem < probe_size s + sizeof_tail) \/
      (probe_size s + sizeof_tail <= in_size elem /\
       out = ElemPushed (fst (virtio_iommu_handle_probe s (out_sg elem)))
                        (snd (virtio_iommu_handle_probe s (out_sg elem)))
                        (probe_size s + sizeof_tail)))))).
Proof.
  unfold handle_element.
  destruct (N.ltb_spec (in_size elem) sizeof_tail) as [Hin|Hin].
  { intros [= <- <- <-]. left. auto. }
  destruct (N.ltb_spec (iov_size (out_sg elem)) sizeof_head) as [Hout|Hout].
  { intros [= <- <- <-]. left. auto. }
  cbn [orb]. rewrite head_copied by assumption. rewrite N.eqb_refl. cbn [negb].
  rewrite head_type. set (ty := hd 0 (out_sg elem)) in *.
  assert (Hmin : N.min (in_size elem) sizeof_tail = sizeof_tail) by lia.
  rewrite Hmin. rewrite N.eqb_refl. cbn [negb].
  destruct (handlers_decode rebalance after_free fuel s (out_sg elem)) as (Ha & Hd & Hm & Hu).
  intros H. right. split; [exact Hin|]. split; [exact Hout|].
  destruct (ty =? VIRTIO_IOMMU_T_ATTACH) eqn:E1;
    [|destruct (ty =? VIRTIO_IOMMU_T_DETACH) eqn:E2;
      [|destruct (ty =? VIRTIO_IOMMU_T_MAP) eqn:E3;
        [|destruct (ty =? VIRTIO_IOMMU_T_UNMAP) eqn:E4;
          [|destruct (ty =? VIRTIO_IOMMU_T_PROBE) eqn:E5]]]].
  - destruct Ha as [Ha|[c Ha]].
    + rewrite Ha in H. injection H as <- <- <-. left. eauto 7.
    + destruct (virtio_iommu_handle_attach s (out_sg elem)) as [[st1 s1] evs1].
      injection H as <- <- <-. right. left. eauto.
  - destruct Hd as [Hd|[c Hd]].
    + rewrite Hd in H. injection H as <- <- <-. left. eauto 7.
    + destruct (virtio_iommu_handle_detach s (out_sg elem)) as [[st1 s1] evs1].
      injection H as <- <- <-. right. left. eauto.
  - destruct Hm as [Hm|[c Hm]].
    + rewrite Hm in H. injection H as <- <- <-. left. eauto 7.
    + destruct (virtio_iommu_handle_map rebalance s (out_sg elem)) as [[st1 s1] evs1].
      injection H as <- <- <-. right. left. eauto.
  - destruct Hu as [Hu|[c Hu]].
    + rewrite Hu in H. injection H as <- <- <-. left. eauto 7.
    + destruct (virtio_iommu_handle_unmap rebalance after_free fuel s (out_sg elem))
        as [[[st1 s1] evs1]|]; [|discriminate].
      injection H as <- <- <-. right. left. eauto.
  - apply N.eqb_eq in E5. right. right.
    destruct (virtio_iommu_handle_probe s (out_sg elem)) as [st1 props1].
    destruct (N.eqb_spec (N.min (in_size elem) (probe_size s + sizeof_tail))
                         (probe_size s + sizeof_tail)) as [E|E];
      injection H as <- <- <-.
    + repeat split; auto. right. split; [lia|]. rewrite E. reflexivity.
    + repeat split; auto. left. split; [reflexivity|lia].
  - injection H as <- <- <-. left. eauto 7.
Qed.

Section Frame.
Context {A : Type} (f : VirtIOIOMMU -> A).
Hypothesis f_set_domains : forall s ds, f (set_domains s ds) = f s.
Hypothesis f_set_endpoints : forall s es, f (set_endpoints s es) = f s.

Lemma detach_endpoint_frame (s : VirtIOIOMMU) (ep : viommu_endpoint) :
  f (fst (virtio_iommu_detach_endpoint_from_domain s ep)) = f s.
Proof.
  unfold virtio_iommu_detach_endpoint_from_domain.
  destruct (e_domain ep) as [did|]; [|reflexivity].
  destruct (tbl_lookup (domains s) did); [|reflexivity].
  simpl. now rewrite f_set_endpoints, f_set_domains.
Qed.

Lemma run_command_frame (rebalance : GTree -> GTree)
  (after_free : viommu_interval -> viommu_interval) (fuel : nat)
  (s : VirtIOIOMMU) (c : command) (r : handler_result) :
  run_command rebalance after_free fuel s c = Some r -> f (snd (fst r)) = f s.
Proof.
  destruct c as [d e|d e|d vs ve p fl|d vs ve]; simpl.
  - intros [= <-]. unfold virtio_iommu_attach.
    assert (H1 : f (fst (virtio_iommu_get_endpoint s e)) = f s).
    { unfold virtio_iommu_get_endpoint.
      destruct (tbl_lookup (endpoints s) e); [reflexivity|apply f_set_endpoints]. }
    destruct (virtio_iommu_get_endpoint s e) as [s1 ep]. simpl in H1.
    assert (H2 : f (fst (match e_domain ep with
                         | Some _ => virtio_iommu_detach_endpoint_from_domain s1 ep
                         | None => (s1, [])
                         end)) = f s1).
    { destruct (e_domain ep); [apply detach_endpoint_frame|reflexivity]. }
    destruct (match e_domain ep with
              | Some _ => virtio_iommu_detach_endpoint_from_domain s1 ep
              | None => (s1, [])
              end) as [s2 evs]. simpl in H2.
    assert (H3 : f (fst (virtio_iommu_get_domain s2 d)) = f s2).
    { unfold virtio_iommu_get_domain.
      destruct (tbl_lookup (domains s2) d); [reflexivity|apply f_set_domains]. }
    destruct (virtio_iommu_get_domain s2 d) as [s3 dom]. simpl in *.
    rewrite f_set_endpoints, f_set_domains. congruence.
  - intros [= <-]. unfold virtio_iommu_detach.
    destruct (tbl_lookup (endpoints s) e) as [ep|]; [|reflexivity].
    destruct (e_domain ep); [|reflexivity].
    pose proof (detach_endpoint_frame s ep) as H.
    destruct (virtio_iommu_detach_endpoint_from_domain s ep). exact H.
  - intros [= <-]. unfold virtio_iommu_map.
    destruct (tbl_lookup (domains s) d) as [dom|]; [|reflexivity].
    destruct (g_tree_lookup (mappings dom) _); [reflexivity|apply f_set_domains].
  - unfold virtio_iommu_unmap.
    destruct (tbl_lookup (domains s) d) as [dom|]; [|intros [= <-]; reflexivity].
    destruct (unmap_loop rebalance after_free fuel _ _ _ _ _) as [[[ret t'] evs]|];
      [|discriminate].
    intros [= <-]. apply f_set_domains.
Qed.

Lemma handle_element_frame (rebalance : GTree -> GTree)
  (after_free : viommu_interval -> viommu_interval) (fuel : nat)
  (s : VirtIOIOMMU) (elem : VirtQueueElement) (s' : VirtIOIOMMU)
  (evs : list event) (out : elem_outcome) :
  handle_element rebalance after_free fuel s elem = Some (s', evs, out) -> f s' = f s.
Proof.
  intros H. apply handle_element_inv in H.
  destruct H as [(_ & -> & _)|(_ & _ & [(st & _ & -> & _)|[(c & st & Hc & _)|(_ & -> & _)]])];
    try reflexivity.
  exact (run_command_frame _ _ _ _ _ _ Hc).
Qed.

Lemma handle_command_frame (rebalance : GTree -> GTree)
  (after_free : viommu_interval -> viommu_interval) (fuel : nat)
  (vq : list VirtQueueElement) (s s' : VirtIOIOMMU) (evs : list event)
  (outs : list elem_outcome) :
  virtio_iommu_handle_command rebalance after_free fuel s vq = Some (s', evs, outs) ->
  f s' = f s.
Proof.
  revert s s' evs outs. induction vq as [|elem vq IH]; intros s s' evs outs; simpl.
  - intros [= <- _ _]. reflexivity.
  - destruct (handle_element rebalance after_free fuel s elem) as [[[s1 evs1] out]|] eqn:E;
      [|discriminate].
    pose proof (handle_element_frame _ _ _ _ _ _ _ _ E) as H1.
    destruct out as [| |st props sz]; try (intros [= <- _ _]; exact H1).
    destruct (virtio_iommu_handle_command rebalance after_free fuel s1 vq)
      as [[[s2 evs2] outs2]|] eqn:E2; [|discriminate].
    intros [= <- _ _]. rewrite (IH _ _ _ _ E2). exact H1.
Qed.

End Frame.

Lemma handle_element_links (rebalance : GTree -> GTree)
  (after_free : viommu_interval -> viommu_interval) (fuel : nat)
  (s : VirtIOIOMMU) (elem : VirtQueueElement) (s' : VirtIOIOMMU)
  (evs : list event) (out : elem_outcome) :
  links_by_lookup s ->
  handle_element rebalance after_free fuel s elem = Some (s', evs, out) ->
  links_by_lookup s'.
Proof.
  intros Hl H. apply handle_element_inv in H.
  destruct H as [(_ & -> & _)|(_ & _ & [(st & _ & -> & _)|[(c & st & Hc & _)|(_ & -> & _)]])];
    try exact Hl.
  destruct c as [d e|d e|d vs ve p fl|d vs ve]; simpl in Hc.
  - injection Hc as Hc. pose proof (links_attach s d e Hl) as H. now rewrite Hc in H.
  - injection Hc as Hc. pose proof (links_detach s d e Hl) as H. now rewrite Hc in H.
  - injection Hc as Hc. pose proof (links_map rebalance s d vs ve p fl Hl) as H.
    now rewrite Hc in H.
  - exact (links_unmap _ _ _ _ _ _ _ _ Hl Hc).
Qed.

(** X10.  Whatever bytes the driver puts in the request queue, a pass of
    [virtio_iommu_handle_command] that returns keeps the links between the
    two trees consistent (endpoints point at existing domains that list
    them once, and every listed endpoint points back), and leaves the
    notifier list, the acknowledged features, the page-size mask, the probe
    size and the reserved regions as they were. *)
Theorem request_queue_keeps_links (rebalance : GTree -> GTree)
  (after_free : viommu_interval -> viommu_interval) (fuel : nat)
  (vq : list VirtQueueElement) (s s' : VirtIOIOMMU) (evs : list event)
  (outs : list elem_outcome) :
  links_consistent s ->
  virtio_iommu_handle_command rebalance after_free fuel s vq = Some (s', evs, outs) ->
  links_consistent s' /\
  notifiers_list s' = notifiers_list s /\
  acked_features s' = acked_features s /\
  page_size_mask s' = page_size_mask s /\
  probe_size s' = probe_size s /\
  reserved_regions s' = reserved_regions s.
Proof.
  intros Hl H. split.
  - apply links_by_lookup_iff. apply links_by_lookup_iff in Hl.
    revert s s' evs outs Hl H.
    induction vq as [|elem vq IH]; intros s s' evs outs Hl; simpl.
    + intros [= <- _ _]. exact Hl.
    + destruct (handle_element rebalance after_free fuel s elem) as [[[s1 evs1] out]|] eqn:E;
        [|discriminate].
      pose proof (handle_element_links _ _ _ _ _ _ _ _ Hl E) as H1.
      destruct out as [| |st props sz]; try (intros [= <- _ _]; exact H1).
      destruct (virtio_iommu_handle_command rebalance after_free fuel s1 vq)
        as [[[s2 evs2] outs2]|] eqn:E2; [|discriminate].
      intros [= <- _ _]. exact (IH _ _ _ _ H1 E2).
  - repeat split.
    + now apply (handle_command_frame notifiers_list) in H.
    + now apply (handle_command_frame acked_features) in H.
    + now apply (handle_command_frame page_size_mask) in H.
    + now apply (handle_command_frame probe_size) in H.
    + now apply (handle_command_frame reserved_regions) in H.
Qed.

Lemma request_queue_keeps_links_witness :
  links_consistent busy_device /\
  exists s' evs outs,
    virtio_iommu_handle_command no_rotation no_reuse 4 busy_device
      [mk_elem (encode_command (CmdDetach 1 1)) 4;
       mk_elem [9; 0; 0; 0] 4;
       mk_elem (encode_command (CmdUnmap 1 0 65535)) 4]
    = Some (s', evs, outs) /\
    links_consistent s' /\ notifiers_list s' = notifiers_list busy_device.
Proof.
  split; [exact busy_device_consistent|].
  destruct (virtio_iommu_handle_command no_rotation no_reuse 4 busy_device
              [mk_elem (encode_command (CmdDetach 1 1)) 4;
               mk_elem [9; 0; 0; 0] 4;
               mk_elem (encode_command (CmdUnmap 1 0 65535)) 4])
    as [[[s' evs] outs]|] eqn:E; [|vm_compute in E; discriminate].
  exists s', evs, outs. split; [reflexivity|].
  destruct (request_queue_keeps_links no_rotation no_reuse 4 _ busy_device s' evs outs
              busy_device_consistent E) as (H1 & H2 & _).
  split; assumption.
Defined.

Lemma probe_status (s : VirtIOIOMMU) (iov : list N) :
  (fst (virtio_iommu_handle_probe s iov) = VIRTIO_IOMMU_S_OK \/
   fst (virtio_iommu_handle_probe s iov) = VIRTIO_IOMMU_S_INVAL /\
   snd (virtio_iommu_handle_probe s iov) = []).
Proof.
  unfold virtio_iommu_handle_probe, virtio_iommu_iov_to_req, virtio_iommu_probe,
    virtio_iommu_fill_resv_mem_prop.
  destruct (negb (iov_size _ =? _)); simpl; [now right|].
  destruct (_ <? _); simpl; [now right|now left].
Qed.

(** X11.  What one request can come to.  An element is refused (the
    [virtio_error] branch, which leaves the loop) exactly when its in-buffers are smaller than the
    tail or its out-buffers smaller than the head; the assertion on the
    bytes written can fail only for a PROBE request whose in-buffers are
    smaller than [probe_size] plus the tail, never for the other types.
    Both leave the device state as it was.  A pushed element carries one
    of OK, UNSUPP, INVAL, RANGE, NOENT: the DEVERR assignment of the
    source cannot be reached.  Unless the status is OK or RANGE the
    request changed nothing and sent no notification.  The bytes written
    are the tail alone, or [probe_size] plus the tail for PROBE, and never
    more than the in-buffers hold. *)
Theorem request_outcome (rebalance : GTree -> GTree)
  (after_free : viommu_interval -> viommu_interval) (fuel : nat)
  (s : VirtIOIOMMU) (elem : VirtQueueElement) (s' : VirtIOIOMMU)
  (evs : list event) (out : elem_outcome) :
  handle_element rebalance after_free fuel s elem = Some (s', evs, out) ->
  match out with
  | ElemBadSize =>
      s' = s /\ evs = [] /\
      (in_size elem < sizeof_tail \/ iov_size (out_sg elem) < sizeof_head)
  | ElemAssertFailed =>
      s' = s /\ evs = [] /\
      sizeof_tail <= in_size elem /\ sizeof_head <= iov_size (out_sg elem) /\
      hd 0 (out_sg elem) = VIRTIO_IOMMU_T_PROBE /\
      in_size elem < probe_size s + sizeof_tail
  | ElemPushed st props sz =>
      sizeof_tail <= in_size elem /\ sizeof_head <= iov_size (out_sg elem) /\
      In st [VIRTIO_IOMMU_S_OK; VIRTIO_IOMMU_S_UNSUPP; VIRTIO_IOMMU_S_INVAL;
             VIRTIO_IOMMU_S_RANGE; VIRTIO_IOMMU_S_NOENT] /\
      (st <> VIRTIO_IOMMU_S_OK -> st <> VIRTIO_IOMMU_S_RANGE ->
       s' = s /\ evs = [] /\ props = []) /\
      sz <= in_size elem /\
      ((sz = sizeof_tail /\ props = []) \/
       (sz = probe_size s + sizeof_tail /\ s' = s /\ evs = [] /\
        hd 0 (out_sg elem) = VIRTIO_IOMMU_T_PROBE))
  end.
Proof.
  intros H. apply handle_element_inv in H.
  destruct H as [(-> & -> & -> & Hsz)
                |(Hin & Hout & [(st & Hst & -> & -> & ->)
                               |[(c & st & Hc & ->)
                                |(Hty & -> & -> & [[-> Hlt]|[Hge ->]])]])].
  - auto.
  - split; [exact Hin|]. split; [exact Hout|]. split.
    + destruct Hst as [-> | ->]; simpl; tauto.
    + split; [auto|]. split; [exact Hin|]. now left.
  - destruct (run_command_status _ _ _ _ _ _ _ _ Hc) as [Hst Hsame].
    split; [exact Hin|]. split; [exact Hout|]. split.
    + simpl in *. tauto.
    + split; [|split; [exact Hin|now left]].
      intros H1 H2. destruct (Hsame H1 H2) as [-> ->]. auto.
  - auto 7.
  - split; [exact Hin|]. split; [exact Hout|].
    destruct (probe_status s (out_sg elem)) as [E|[E E']].
    + rewrite E. split; [now left|]. split; [intros H; now destruct H|].
      split; [exact Hge|]. right. auto.
    + rewrite E, E'. split; [simpl; tauto|]. split; [auto|].
      split; [exact Hge|]. right. auto.
Qed.

Lemma request_outcome_witness :
  In VIRTIO_IOMMU_S_NOENT
     [VIRTIO_IOMMU_S_OK; VIRTIO_IOMMU_S_UNSUPP; VIRTIO_IOMMU_S_INVAL;
      VIRTIO_IOMMU_S_RANGE; VIRTIO_IOMMU_S_NOENT].
Proof.
  refine (proj1 (proj2 (proj2
    (request_outcome no_rotation no_reuse 1 fresh_device
       (mk_elem (encode_command (CmdMap 1 0 4095 0 3)) 4)
       fresh_device [] (ElemPushed VIRTIO_IOMMU_S_NOENT [] 4) _)))).
  vm_compute. reflexivity.
Defined.

Lemma handle_command_app (rebalance : GTree -> GTree)
  (after_free : viommu_interval -> viommu_interval) (fuel : nat)
  (vq1 vq2 : list VirtQueueElement) (s : VirtIOIOMMU) :
  virtio_iommu_handle_command rebalance after_free fuel s (vq1 ++ vq2)
  = match virtio_iommu_handle_command rebalance after_free fuel s vq1 with
    | None => None
    | Some (s1, evs1, outs1) =>
        if forallb elem_pushed outs1
        then match virtio_iommu_handle_command rebalance after_free fuel s1 vq2 with
             | None => None
             | Some (s2, evs2, outs2) => Some (s2, evs1 ++ evs2, outs1 ++ outs2)
             end
        else Some (s1, evs1, outs1)
    end.
Proof.
  revert s. induction vq1 as [|elem vq1 IH]; intros s.
  - simpl. destruct (virtio_iommu_handle_command rebalance after_free fuel s vq2)
      as [[[s2 evs2] outs2]|]; reflexivity.
  - simpl. destruct (handle_element rebalance after_free fuel s elem) as [[[s1 evs1] out]|];
      [|reflexivity].
    destruct out as [| |st props sz]; try reflexivity.
    rewrite IH.
    destruct (virtio_iommu_handle_command rebalance after_free fuel s1 vq1)
      as [[[s2 evs2] outs2]|]; [|reflexivity].
    simpl. destruct (forallb elem_pushed outs2); [|reflexivity].
    destruct (virtio_iommu_handle_command rebalance after_free fuel s2 vq2)
      as [[[s3 evs3] outs3]|]; [|reflexivity].
    now rewrite app_assoc.
Qed.

Lemma handle_command_outs (rebalance : GTree -> GTree)
  (after_free : viommu_interval -> viommu_interval) (fuel : nat)
  (vq : list VirtQueueElement) (s s' : VirtIOIOMMU) (evs : list event)
  (outs : list elem_outcome) :
  virtio_iommu_handle_command rebalance after_free fuel s vq = Some (s', evs, outs) ->
  (forallb elem_pushed outs = true /\ length outs = length vq) \/
  (exists pushed out,
      outs = pushed ++ [out] /\ forallb elem_pushed pushed = true /\
      elem_pushed out = false /\ (length outs <= length vq)%nat).
Proof.
  revert s s' evs outs. induction vq as [|elem vq IH]; intros s s' evs outs; simpl.
  - intros [= _ _ <-]. now left.
  - destruct (handle_element rebalance after_free fuel s elem) as [[[s1 evs1] out]|];
      [|discriminate].
    destruct out as [| |st props sz].
    + intros [= _ _ <-]. right. exists [], ElemBadSize. simpl.
      repeat split; auto. lia.
    + intros [= _ _ <-]. right. exists [], ElemAssertFailed. simpl.
      repeat split; auto. lia.
    + destruct (virtio_iommu_handle_command rebalance after_free fuel s1 vq)
        as [[[s2 evs2] outs2]|] eqn:E; [|discriminate].
      intros [= _ _ <-].
      destruct (IH _ _ _ _ E) as [[Hall Hlen]|(pushed & out & -> & Hall & Hout & Hlen)].
      * left. simpl. split; [exact Hall|]. now rewrite Hlen.
      * right. exists (ElemPushed st props sz :: pushed), out. simpl.
        repeat split; auto. lia.
Qed.

(** X12.  The request queue is processed in order and stops at the first
    element that is not pushed back.  The outcomes of a pass are those of
    a prefix of the queue: all pushed and as many as the queue has
    elements, or pushed ones followed by a single refused element or
    failed assertion, after which nothing more is processed.  A queue
    split in two is processed as the first part and then, from the state
    it leaves and if all of it was pushed, the second part, with the
    notifications and outcomes concatenated. *)
Theorem request_queue_in_order (rebalance : GTree -> GTree)
  (after_free : viommu_interval -> viommu_interval) (fuel : nat)
  (vq1 vq2 : list VirtQueueElement) (s s1 : VirtIOIOMMU) (evs1 : list event)
  (outs1 : list elem_outcome) :
  virtio_iommu_handle_command rebalance after_free fuel s vq1 = Some (s1, evs1, outs1) ->
  ((forallb elem_pushed outs1 = true /\ length outs1 = length vq1 /\
    virtio_iommu_handle_command rebalance after_free fuel s (vq1 ++ vq2)
    = match virtio_iommu_handle_command rebalance after_free fuel s1 vq2 with
      | None => None
      | Some (s2, evs2, outs2) => Some (s2, evs1 ++ evs2, outs1 ++ outs2)
      end) \/
   (exists pushed out,
       outs1 = pushed ++ [out] /\ forallb elem_pushed pushed = true /\
       elem_pushed out = false /\ (length outs1 <= length vq1)%nat /\
       virtio_iommu_handle_command rebalance after_free fuel s (vq1 ++ vq2)
       = Some (s1, evs1, outs1))).
Proof.
  intros H. pose proof (handle_command_app rebalance after_free fuel vq1 vq2 s) as Happ.
  rewrite H in Happ.
  destruct (handle_command_outs _ _ _ _ _ _ _ _ H)
    as [[Hall Hlen]|(pushed & out & Heq & Hall & Hout & Hlen)].
  - left. rewrite Hall in Happ. auto.
  - right. exists pushed, out.
    assert (Hno : forallb elem_pushed outs1 = false).
    { rewrite Heq, forallb_app. simpl. rewrite Hout. now rewrite andb_false_r. }
    rewrite Hno in Happ. auto 6.
Qed.

Lemma request_queue_in_order_witness :
  virtio_iommu_handle_command no_rotation no_reuse 1 fresh_device
    ([mk_elem (encode_command (CmdAttach 1 1)) 4; mk_elem [1; 0; 0; 0] 3]
       ++ [mk_elem (encode_command (CmdMap 1 0 4095 0 3)) 4])
  = Some (snd (fst (virtio_iommu_attach fresh_device 1 1)), [],
          [ElemPushed VIRTIO_IOMMU_S_OK [] 4; ElemBadSize]).
Proof.
  destruct (request_queue_in_order no_rotation no_reuse 1
              [mk_elem (encode_command (CmdAttach 1 1)) 4; mk_elem [1; 0; 0; 0] 3]
              [mk_elem (encode_command (CmdMap 1 0 4095 0 3)) 4]
              fresh_device (snd (fst (virtio_iommu_attach fresh_device 1 1))) []
              [ElemPushed VIRTIO_IOMMU_S_OK [] 4; ElemBadSize])
    as [(Hall & _)|(pushed & out & _ & _ & _ & _ & H)].
  - vm_compute. reflexivity.
  - discriminate Hall.
  - exact H.
Defined.

(** ** The wire format *)

Lemma le_store_length (n : nat) (x : N) : length (le_store n x) = n.
Proof. revert x. induction n as [|n IH]; intros x; simpl; [|rewrite IH]; reflexivity. Qed.

Lemma le_load_store (n : nat) (x : N) (rest : list N) :
  le_load n (le_store n x ++ rest) = x mod 256 ^ N.of_nat n.
Proof.
  revert x. induction n as [|n IH]; intros x.
  - simpl. now rewrite N.mod_1_r.
  - cbn [le_store le_load app]. rewrite IH, Nat2N.inj_succ, N.pow_succ_r'.
    now rewrite N.Div0.mod_mul_r.
Qed.

Lemma le_load_store_small (n : nat) (x : N) (rest : list N) :
  x < 256 ^ N.of_nat n -> le_load n (le_store n x ++ rest) = x.
Proof. intros H. rewrite le_load_store. now apply N.mod_small. Qed.

Lemma iov_to_buf_prefix (req extra : list N) (n : N) :
  N.of_nat (length req) = n -> iov_to_buf (req ++ extra) n = req.
Proof.
  intros <-. unfold iov_to_buf. rewrite Nat2N.id, firstn_app, firstn_all.
  now rewrite Nat.sub_diag, firstn_O, app_nil_r.
Qed.

Lemma encode_command_length (c : command) :
  N.of_nat (length (encode_command c))
  = match c with
    | CmdAttach _ _ => sizeof_req_attach - sizeof_tail
    | CmdDetach _ _ => sizeof_req_detach - sizeof_tail
    | CmdMap _ _ _ _ _ => sizeof_req_map - sizeof_tail
    | CmdUnmap _ _ _ => sizeof_req_unmap - sizeof_tail
    end.
Proof.
  destruct c; cbn [encode_command app length];
    rewrite ?length_app, ?le_store_length, ?repeat_length; reflexivity.
Qed.

(** X13.  A request laid out as the protocol prescribes is decoded to the
    command it encodes.  For a command whose fields fit their widths, an
    element whose out-buffers hold the encoded request, followed by any
    further bytes, and whose in-buffers hold at least the tail, is handled
    by running that command: same new state, same notifications, and the
    command's status pushed as a 4-byte tail. *)
Theorem encoded_request_runs_command (rebalance : GTree -> GTree)
  (after_free : viommu_interval -> viommu_interval) (fuel : nat)
  (s : VirtIOIOMMU) (c : command) (extra : list N) (insz : N) :
  command_fits c -> sizeof_tail <= insz ->
  handle_element rebalance after_free fuel s (mk_elem (encode_command c ++ extra) insz)
  = match run_command rebalance after_free fuel s c with
    | None => None
    | Some (st, s', evs) => Some (s', evs, ElemPushed st [] sizeof_tail)
    end.
Proof.
  intros Hfit Hin. unfold handle_element. cbn [in_size out_sg].
  destruct (N.ltb_spec insz sizeof_tail) as [H|_]; [lia|].
  assert (Hout : sizeof_head <= iov_size (encode_command c ++ extra)).
  { unfold iov_size, sizeof_head. rewrite length_app.
    destruct c; cbn [encode_command app length]; lia. }
  destruct (N.ltb_spec (iov_size (encode_command c ++ extra)) sizeof_head) as [H|_];
    [lia|].
  cbn [orb]. rewrite head_copied by assumption. rewrite N.eqb_refl. cbn [negb].
  rewrite head_type.
  assert (Hmin : N.min insz sizeof_tail = sizeof_tail) by lia.
  rewrite Hmin, N.eqb_refl. cbn [negb].
  assert (H32 : 2 ^ 32 = 256 ^ N.of_nat 4) by reflexivity.
  assert (H64 : two64 = 256 ^ N.of_nat 8) by reflexivity.
  pose proof (encode_command_length c) as Hlen.
  destruct c as [d e|d e|d vs ve p fl|d vs ve].
  - destruct Hfit as [Hd He].
    change (hd 0 (encode_command (CmdAttach d e) ++ extra)) with VIRTIO_IOMMU_T_ATTACH.
    rewrite N.eqb_refl.
    unfold virtio_iommu_handle_attach, virtio_iommu_iov_to_req.
    rewrite (iov_to_buf_prefix _ extra _ Hlen). unfold iov_size.
    rewrite Hlen, N.eqb_refl. cbn [negb N.eqb].
    change (le32_at (encode_command (CmdAttach d e)) 4)
      with (le_load 4 (le_store 4 d ++ le_store 4 e ++ repeat 0 8)).
    change (le32_at (encode_command (CmdAttach d e)) 8)
      with (le_load 4 (le_store 4 e ++ repeat 0 8)).
    rewrite (le_load_store_small 4 d) by (rewrite <- H32; exact Hd).
    rewrite (le_load_store_small 4 e) by (rewrite <- H32; exact He).
    cbn [run_command]. destruct (virtio_iommu_attach s d e) as [[st s'] evs].
    reflexivity.
  - destruct Hfit as [Hd He].
    change (hd 0 (encode_command (CmdDetach d e) ++ extra)) with VIRTIO_IOMMU_T_DETACH.
    change (VIRTIO_IOMMU_T_DETACH =? VIRTIO_IOMMU_T_ATTACH) with false.
    rewrite N.eqb_refl. cbv iota.
    unfold virtio_iommu_handle_detach, virtio_iommu_iov_to_req.
    rewrite (iov_to_buf_prefix _ extra _ Hlen). unfold iov_size.
    rewrite Hlen, N.eqb_refl. cbn [negb N.eqb].
    change (le32_at (encode_command (CmdDetach d e)) 4)
      with (le_load 4 (le_store 4 d ++ le_store 4 e ++ repeat 0 8)).
    change (le32_at (encode_command (CmdDetach d e)) 8)
      with (le_load 4 (le_store 4 e ++ repeat 0 8)).
    rewrite (le_load_store_small 4 d) by (rewrite <- H32; exact Hd).
    rewrite (le_load_store_small 4 e) by (rewrite <- H32; exact He).
    cbn [run_command]. destruct (virtio_iommu_detach s d e) as [[st s'] evs].
    reflexivity.
  - destruct Hfit as (Hd & Hvs & Hve & Hp & Hfl).
    change (hd 0 (encode_command (CmdMap d vs ve p fl) ++ extra))
      with VIRTIO_IOMMU_T_MAP.
    change (VIRTIO_IOMMU_T_MAP =? VIRTIO_IOMMU_T_ATTACH) with false.
    change (VIRTIO_IOMMU_T_MAP =? VIRTIO_IOMMU_T_DETACH) with false.
    rewrite N.eqb_refl. cbv iota.
    unfold virtio_iommu_handle_map, virtio_iommu_iov_to_req.
    rewrite (iov_to_buf_prefix _ extra _ Hlen). unfold iov_size.
    rewrite Hlen, N.eqb_refl. cbn [negb N.eqb].
    change (le32_at (encode_command (CmdMap d vs ve p fl)) 4)
      with (le_load 4 (le_store 4 d ++ le_store 8 vs ++ le_store 8 ve
                         ++ le_store 8 p ++ le_store 4 fl)).
    change (le64_at (encode_command (CmdMap d vs ve p fl)) 8)
      with (le_load 8 (le_store 8 vs ++ le_store 8 ve ++ le_store 8 p
                         ++ le_store 4 fl)).
    change (le64_at (encode_command (CmdMap d vs ve p fl)) 16)
      with (le_load 8 (le_store 8 ve ++ le_store 8 p ++ le_store 4 fl)).
    change (le64_at (encode_command (CmdMap d vs ve p fl)) 24)
      with (le_load 8 (le_store 8 p ++ le_store 4 fl)).
    change (le32_at (encode_command (CmdMap d vs ve p fl)) 32)
      with (le_load 4 (le_store 4 fl ++ [])).
    rewrite (le_load_store_small 4 d) by (rewrite <- H32; exact Hd).
    rewrite (le_load_store_small 8 vs) by (rewrite <- H64; exact Hvs).
    rewrite (le_load_store_small 8 ve) by (rewrite <- H64; exact Hve).
    rewrite (le_load_store_small 8 p) by (rewrite <- H64; exact Hp).
    rewrite (le_load_store_small 4 fl) by (rewrite <- H32; exact Hfl).
    cbn [run_command].
    destruct (virtio_iommu_map rebalance s d vs ve p fl) as [[st s'] evs].
    reflexivity.
  - destruct Hfit as (Hd & Hvs & Hve).
    change (hd 0 (encode_command (CmdUnmap d vs ve) ++ extra))
      with VIRTIO_IOMMU_T_UNMAP.
    change (VIRTIO_IOMMU_T_UNMAP =? VIRTIO_IOMMU_T_ATTACH) with false.
    change (VIRTIO_IOMMU_T_UNMAP =? VIRTIO_IOMMU_T_DETACH) with false.
    change (VIRTIO_IOMMU_T_UNMAP =? VIRTIO_IOMMU_T_MAP) with false.
    rewrite N.eqb_refl. cbv iota.
    unfold virtio_iommu_handle_unmap, virtio_iommu_iov_to_req.
    rewrite (iov_to_buf_prefix _ extra _ Hlen). unfold iov_size.
    rewrite Hlen, N.eqb_refl. cbn [negb N.eqb].
    change (le32_at (encode_command (CmdUnmap d vs ve)) 4)
      with (le_load 4 (le_store 4 d ++ le_store 8 vs ++ le_store 8 ve ++ repeat 0 4)).
    change (le64_at (encode_command (CmdUnmap d vs ve)) 8)
      with (le_load 8 (le_store 8 vs ++ le_store 8 ve ++ repeat 0 4)).
    change (le64_at (encode_command (CmdUnmap d vs ve)) 16)
      with (le_load 8 (le_store 8 ve ++ repeat 0 4)).
    rewrite (le_load_store_small 4 d) by (rewrite <- H32; exact Hd).
    rewrite (le_load_store_small 8 vs) by (rewrite <- H64; exact Hvs).
    rewrite (le_load_store_small 8 ve) by (rewrite <- H64; exact Hve).
    cbn [run_command].
    destruct (virtio_iommu_unmap rebalance after_free fuel s d vs ve) as [[[st s'] evs]|];
      reflexivity.
Qed.

Lemma encoded_request_runs_command_witness :
  handle_element no_rotation no_reuse 1 fresh_device
    (mk_elem (encode_command (CmdAttach 1 1) ++ [255; 255]) 4)
  = match run_command no_rotation no_reuse 1 fresh_device (CmdAttach 1 1) with
    | None => None
    | Some (st, s', evs) => Some (s', evs, ElemPushed st [] sizeof_tail)
    end.
Proof.
  apply (encoded_request_runs_command no_rotation no_reuse 1 fresh_device (CmdAttach 1 1)
           [255; 255] 4).
  - simpl. lia.
  - unfold sizeof_tail. lia.
Defined.

Lemma iov_to_buf_size (iov : list N) (n : N) :
  n <= iov_size iov -> iov_size (iov_to_buf iov n) = n.
Proof.
  unfold iov_size, iov_to_buf. intros H. rewrite length_firstn. lia.
Qed.

(** X14.  PROBE answers from the configuration alone.  A PROBE request
    with a complete payload and in-buffers that hold [probe_size] plus the
    tail changes nothing in the device and sends no notification, whatever
    endpoint it names (known or not).  When the reserved regions fit the
    probe buffer with room for the terminator, the status is OK and the
    buffer holds one property per region, in configuration order, with the
    region's type, low and high; otherwise the status is INVAL and no
    property is written.  [probe_size] plus the tail bytes are pushed. *)
Theorem probe_reports_reserved_regions (rebalance : GTree -> GTree)
  (after_free : viommu_interval -> viommu_interval) (fuel : nat)
  (s : VirtIOIOMMU) (iov : list N) (insz : N) :
  hd 0 iov = VIRTIO_IOMMU_T_PROBE ->
  sizeof_req_probe - sizeof_tail <= iov_size iov ->
  probe_size s + sizeof_tail <= insz ->
  handle_element rebalance after_free fuel s (mk_elem iov insz)
  = Some (s, [],
          if sizeof_probe_resv_mem * N.of_nat (length (reserved_regions s))
             <=? VIOMMU_PROBE_SIZE - sizeof_probe_property
          then ElemPushed VIRTIO_IOMMU_S_OK
                 (map (fun r => mk_prop (r_type r) (r_low r) (r_high r))
                      (reserved_regions s))
                 (probe_size s + sizeof_tail)
          else ElemPushed VIRTIO_IOMMU_S_INVAL [] (probe_size s + sizeof_tail)).
Proof.
  intros Hty Hlen Hin. unfold handle_element. cbn [in_size out_sg].
  assert (Hlen' : sizeof_head <= iov_size iov).
  { revert Hlen. unfold sizeof_req_probe, sizeof_tail, sizeof_head. lia. }
  destruct (N.ltb_spec insz sizeof_tail) as [H|_]; [lia|].
  destruct (N.ltb_spec (iov_size iov) sizeof_head) as [H|_]; [lia|].
  cbn [orb]. rewrite head_copied by assumption. rewrite N.eqb_refl. cbn [negb].
  rewrite head_type, Hty.
  change (VIRTIO_IOMMU_T_PROBE =? VIRTIO_IOMMU_T_ATTACH) with false.
  change (VIRTIO_IOMMU_T_PROBE =? VIRTIO_IOMMU_T_DETACH) with false.
  change (VIRTIO_IOMMU_T_PROBE =? VIRTIO_IOMMU_T_MAP) with false.
  change (VIRTIO_IOMMU_T_PROBE =? VIRTIO_IOMMU_T_UNMAP) with false.
  rewrite N.eqb_refl. cbv iota.
  unfold virtio_iommu_handle_probe, virtio_iommu_iov_to_req.
  rewrite iov_to_buf_size by assumption. rewrite N.eqb_refl. cbn [negb N.eqb].
  rewrite (N.min_r insz) by assumption. rewrite N.eqb_refl. cbn [negb].
  unfold virtio_iommu_probe, virtio_iommu_fill_resv_mem_prop.
  rewrite N.ltb_antisym.
  destruct (_ <=? _); reflexivity.
Qed.

Lemma probe_reports_reserved_regions_witness :
  handle_element no_rotation no_reuse 1
    (realized [] 0 18446744073709547520
              [mk_resv 134217728 135266303 VIRTIO_IOMMU_RESV_MEM_T_MSI])
    (mk_elem (VIRTIO_IOMMU_T_PROBE :: repeat 0 71) 516)
  = Some (realized [] 0 18446744073709547520
                   [mk_resv 134217728 135266303 VIRTIO_IOMMU_RESV_MEM_T_MSI], [],
          ElemPushed VIRTIO_IOMMU_S_OK
                     [mk_prop VIRTIO_IOMMU_RESV_MEM_T_MSI 134217728 135266303] 516).
Proof.
  apply (probe_reports_reserved_regions no_rotation no_reuse 1
           (realized [] 0 18446744073709547520
                     [mk_resv 134217728 135266303 VIRTIO_IOMMU_RESV_MEM_T_MSI])
           (VIRTIO_IOMMU_T_PROBE :: repeat 0 71) 516).
  - reflexivity.
  - vm_compute. discriminate.
  - vm_compute. discriminate.
Defined.

(** ** Who is notified *)

Lemma fanout_registered (nodes : list IOMMUDevice) (cells : list ep_cell)
  (notify : N -> event) :
  (forall node, In node nodes -> sent_to_registered nodes (notify (iommu_mr node))) ->
  Forall (sent_to_registered nodes) (fanout nodes cells notify).
Proof.
  intros H. unfold fanout. apply Forall_flat_map. apply Forall_forall.
  intros node Hn. apply Forall_flat_map. apply Forall_forall. intros c _.
  destruct (cell_id c =? virtio_iommu_get_sid node); [|constructor].
  constructor; [|constructor]. now apply H.
Qed.

Lemma foreach_notifier_of_registered (s : VirtIOIOMMU) (ep_id : N)
  (f : N -> kv -> event) (t : GTree) :
  (forall node p, In node (notifiers_list s) ->
                  sent_to_registered (notifiers_list s) (f (iommu_mr node) p)) ->
  Forall (sent_to_registered (notifiers_list s)) (foreach_notifier_of s ep_id f t).
Proof.
  intros H. unfold foreach_notifier_of. apply Forall_flat_map. apply Forall_forall.
  intros node Hn. destruct (ep_id =? virtio_iommu_get_sid node); [|constructor].
  apply Forall_map. apply Forall_forall. intros p _. now apply H.
Qed.

Lemma notify_map_registered (nodes : list IOMMUDevice) (node : IOMMUDevice)
  (a b c : N) :
  In node nodes ->
  sent_to_registered nodes (virtio_iommu_notify_map (iommu_mr node) a b c).
Proof. intros H. split; [now exists node|now left]. Qed.

Lemma notify_unmap_registered (nodes : list IOMMUDevice) (node : IOMMUDevice)
  (a b : N) :
  In node nodes ->
  sent_to_registered nodes (virtio_iommu_notify_unmap (iommu_mr node) a b).
Proof. intros H. split; [now exists node|now right]. Qed.

Lemma detach_endpoint_registered (s : VirtIOIOMMU) (ep : viommu_endpoint) :
  Forall (sent_to_registered (notifiers_list s))
         (snd (virtio_iommu_detach_endpoint_from_domain s ep)).
Proof.
  unfold virtio_iommu_detach_endpoint_from_domain.
  destruct (e_domain ep) as [did|]; [|constructor].
  destruct (tbl_lookup (domains s) did) as [d|]; [|constructor].
  simpl. apply foreach_notifier_of_registered.
  intros node p Hn. now apply notify_unmap_registered.
Qed.

Lemma unmap_loop_registered (rebalance : GTree -> GTree)
  (after_free : viommu_interval -> viommu_interval) (fuel : nat)
  (nodes : list IOMMUDevice) (cells : list ep_cell) (t : GTree)
  (q : viommu_interval) (sent : list event) (ret : N) (t' : GTree)
  (evs : list event) :
  Forall (sent_to_registered nodes) sent ->
  unmap_loop rebalance after_free fuel nodes cells t q sent = Some (ret, t', evs) ->
  Forall (sent_to_registered nodes) evs.
Proof.
  revert t sent. induction fuel as [|fuel IH]; intros t sent Hs; simpl;
    [discriminate|].
  destruct (g_tree_lookup_extended t q) as [[k v]|].
  - destruct ((low q <=? low k) && (high k <=? high q)).
    + unfold virtio_iommu_remove_mapping. apply IH. apply Forall_app. split; [exact Hs|].
      apply fanout_registered. intros node Hn. now apply notify_unmap_registered.
    + intros [= _ _ <-]. exact Hs.
  - intros [= _ _ <-]. exact Hs.
Qed.

Lemma run_command_registered (rebalance : GTree -> GTree)
  (after_free : viommu_interval -> viommu_interval) (fuel : nat)
  (s : VirtIOIOMMU) (c : command) (r : handler_result) :
  run_command rebalance after_free fuel s c = Some r ->
  Forall (sent_to_registered (notifiers_list s)) (snd r).
Proof.
  destruct c as [d e|d e|d vs ve p fl|d vs ve]; simpl.
  - intros [= <-]. unfold virtio_iommu_attach.
    assert (H1 : notifiers_list (fst (virtio_iommu_get_endpoint s e))
                 = notifiers_list s).
    { unfold virtio_iommu_get_endpoint.
      destruct (tbl_lookup (endpoints s) e); reflexivity. }
    destruct (virtio_iommu_get_endpoint s e) as [s1 ep]. simpl in H1.
    assert (H2 : notifiers_list
                   (fst (match e_domain ep with
                         | Some _ => virtio_iommu_detach_endpoint_from_domain s1 ep
                         | None => (s1, [])
                         end)) = notifiers_list s1 /\
                 Forall (sent_to_registered (notifiers_list s1))
                   (snd (match e_domain ep with
                         | Some _ => virtio_iommu_detach_endpoint_from_domain s1 ep
                         | None => (s1, [])
                         end))).
    { destruct (e_domain ep).
      - split; [apply (detach_endpoint_frame notifiers_list); reflexivity
               |apply detach_endpoint_registered].
      - split; [reflexivity|constructor]. }
    destruct (match e_domain ep with
              | Some _ => virtio_iommu_detach_endpoint_from_domain s1 ep
              | None => (s1, [])
              end) as [s2 evs2]. simpl in H2. destruct H2 as [H2 H2'].
    assert (H3 : notifiers_list (fst (virtio_iommu_get_domain s2 d))
                 = notifiers_list s2).
    { unfold virtio_iommu_get_domain.
      destruct (tbl_lookup (domains s2) d); reflexivity. }
    destruct (virtio_iommu_get_domain s2 d) as [s3 dom]. simpl in H3. simpl.
    apply Forall_app. split; [now rewrite <- H1|].
    assert (H5 : notifiers_list s3 = notifiers_list s) by congruence.
    rewrite <- H5.
    match goal with
    | |- Forall _ (foreach_notifier_of ?s5 _ _ _) =>
        change (notifiers_list s3) with (notifiers_list s5)
    end.
    apply foreach_notifier_of_registered.
    intros node p Hn. now apply notify_map_registered.
  - intros [= <-]. unfold virtio_iommu_detach.
    destruct (tbl_lookup (endpoints s) e) as [ep|]; [|constructor].
    destruct (e_domain ep); [|constructor].
    pose proof (detach_endpoint_registered s ep) as H.
    destruct (virtio_iommu_detach_endpoint_from_domain s ep). exact H.
  - intros [= <-]. unfold virtio_iommu_map.
    destruct (tbl_lookup (domains s) d) as [dom|]; [|constructor].
    destruct (g_tree_lookup (mappings dom) _); [constructor|]. simpl.
    apply fanout_registered. intros node Hn. now apply notify_map_registered.
  - unfold virtio_iommu_unmap.
    destruct (tbl_lookup (domains s) d) as [dom|]; [|intros [= <-]; constructor].
    destruct (unmap_loop rebalance after_free fuel _ _ _ _ _) as [[[ret t'] evs]|] eqn:El;
      [|discriminate].
    intros [= <-]. simpl.
    exact (unmap_loop_registered _ _ _ _ _ _ _ _ _ _ _ (Forall_nil _) El).
Qed.

(** X15.  Notifications go to registered notifiers only.  Whatever bytes
    the request queue holds, every notification of a pass of the command
    handler is sent to the memory region of a node of the notifier list,
    and is either a MAP entry with perm RW or an UNMAP entry with perm
    NONE and translated address 0.  With no notifier registered, nothing
    is sent. *)
Theorem queue_notifies_registered_only (rebalance : GTree -> GTree)
  (after_free : viommu_interval -> viommu_interval) (fuel : nat)
  (vq : list VirtQueueElement) (s s' : VirtIOIOMMU) (evs : list event)
  (outs : list elem_outcome) :
  virtio_iommu_handle_command rebalance after_free fuel s vq = Some (s', evs, outs) ->
  Forall (sent_to_registered (notifiers_list s)) evs /\
  (notifiers_list s = [] -> evs = []).
Proof.
  intros H.
  assert (Hall : Forall (sent_to_registered (notifiers_list s)) evs).
  { revert s s' evs outs H.
    induction vq as [|elem vq IH]; intros s s' evs outs; simpl.
    - intros [= _ <- _]. constructor.
    - destruct (handle_element rebalance after_free fuel s elem) as [[[s1 evs1] out]|] eqn:E;
        [|discriminate].
      assert (H1 : Forall (sent_to_registered (notifiers_list s)) evs1).
      { pose proof E as E'. apply handle_element_inv in E'.
        destruct E' as [(_ & _ & -> & _)
                       |(_ & _ & [(st & _ & _ & -> & _)
                                 |[(c & st & Hc & _)|(_ & _ & -> & _)]])];
          try constructor.
        exact (run_command_registered _ _ _ _ _ _ Hc). }
      pose proof (handle_element_frame notifiers_list
                    (fun _ _ => eq_refl) (fun _ _ => eq_refl) _ _ _ _ _ _ _ _ E) as Hn.
      destruct out as [| |st props sz]; try (intros [= _ <- _]; exact H1).
      destruct (virtio_iommu_handle_command rebalance after_free fuel s1 vq)
        as [[[s2 evs2] outs2]|] eqn:E2; [|discriminate].
      intros [= _ <- _]. apply Forall_app. split; [exact H1|].
      rewrite <- Hn. exact (IH _ _ _ _ E2). }
  split; [exact Hall|].
  intros Hnil. rewrite Hnil in Hall. destruct evs as [|ev evs]; [reflexivity|].
  inversion Hall as [|? ? [(node & [] & _) _] _].
Qed.

Lemma queue_notifies_registered_only_witness :
  exists s' evs outs,
    virtio_iommu_handle_command no_rotation no_reuse 1 one_page_device
      [mk_elem (encode_command (CmdMap 1 65536 69631 0 1)) 4] = Some (s', evs, outs) /\
    Forall (sent_to_registered (notifiers_list one_page_device)) evs.
Proof.
  destruct (virtio_iommu_handle_command no_rotation no_reuse 1 one_page_device
              [mk_elem (encode_command (CmdMap 1 65536 69631 0 1)) 4])
    as [[[s' evs] outs]|] eqn:E; [|vm_compute in E; discriminate].
  exists s', evs, outs. split; [reflexivity|].
  exact (proj1 (queue_notifies_registered_only no_rotation no_reuse 1 _ one_page_device
                  s' evs outs E)).
Defined.

(** ** The comparator as an order *)

(** X17.  [interval_cmp] orders well-formed intervals and nothing else.
    On intervals with low <= high it is reflexive (a key compares equal to
    itself), antisymmetric (swapping the arguments negates the result),
    its strict part is transitive through any well-formed middle, and its
    result is 0 exactly when the two intervals share a point.  A key with
    high < low compares below itself, so no lookup, insertion or removal
    can ever meet it as equal. *)
Theorem interval_cmp_on_well_formed (a b c : viommu_interval) :
  (iv_valid a <-> interval_cmp a a = 0%Z) /\
  (~ iv_valid a -> interval_cmp a a = (-1)%Z) /\
  (iv_valid a -> iv_valid b ->
   interval_cmp b a = (- interval_cmp a b)%Z /\
   (interval_cmp a b = 0%Z <-> iv_overlap a b)) /\
  (iv_valid b -> interval_cmp a b = (-1)%Z -> interval_cmp b c = (-1)%Z ->
   interval_cmp a c = (-1)%Z).
Proof.
  unfold iv_valid, iv_overlap, interval_cmp.
  repeat split.
  - intros H. destruct (N.ltb_spec (high a) (low a)); [lia|reflexivity].
  - destruct (N.ltb_spec (high a) (low a)); [discriminate|lia].
  - intros H. destruct (N.ltb_spec (high a) (low a)); [reflexivity|lia].
  - destruct (N.ltb_spec (high a) (low b)), (N.ltb_spec (high b) (low a));
      try reflexivity; lia.
  - destruct (N.ltb_spec (high a) (low b)), (N.ltb_spec (high b) (low a));
      try discriminate. intros _. exists (N.max (low a) (low b)). lia.
  - intros (x & H1 & H2).
    destruct (N.ltb_spec (high a) (low b)), (N.ltb_spec (high b) (low a));
      try reflexivity; lia.
  - intros Hb.
    destruct (N.ltb_spec (high a) (low b)), (N.ltb_spec (high b) (low a)),
      (N.ltb_spec (high b) (low c)), (N.ltb_spec (high c) (low b)),
      (N.ltb_spec (high a) (low c)); try discriminate; try reflexivity; lia.
Qed.

(** ** Endpoint ids and source ids *)

Lemma get_sid_bound (dev : IOMMUDevice) : virtio_iommu_get_sid dev < 65536.
Proof. unfold virtio_iommu_get_sid. apply N.mod_lt. discriminate. Qed.

Lemma foreach_notifier_of_wide (s : VirtIOIOMMU) (ep_id : N)
  (f : N -> kv -> event) (t : GTree) :
  65536 <= ep_id -> foreach_notifier_of s ep_id f t = [].
Proof.
  intros H. unfold foreach_notifier_of.
  induction (notifiers_list s) as [|node nodes IH]; [reflexivity|]. simpl.
  pose proof (get_sid_bound node).
  destruct (N.eqb_spec ep_id (virtio_iommu_get_sid node)); [lia|exact IH].
Qed.

(** X18.  A source id is 16 bits wide, an endpoint id 32.  No notifier and
    no translation ever matches an endpoint whose id is 65536 or more:
    attaching or detaching such an endpoint sends no notification, and
    what the endpoint tree holds for it changes no translation.  The device
    accepts such ids all the same: ATTACH returns OK. *)
Theorem wide_endpoint_ids_are_inert (s : VirtIOIOMMU) (domain_id ep_id : N) :
  65536 <= ep_id ->
  (forall ep, tbl_lookup (endpoints s) ep_id = Some ep -> e_id ep = ep_id) ->
  virtio_iommu_attach s domain_id ep_id
  = (VIRTIO_IOMMU_S_OK, snd (fst (virtio_iommu_attach s domain_id ep_id)), []) /\
  snd (virtio_iommu_detach s domain_id ep_id) = [] /\
  (forall ep sdev addr flag,
      virtio_iommu_translate (set_endpoints s (tbl_insert (endpoints s) ep_id ep))
                             sdev addr flag
      = virtio_iommu_translate s sdev addr flag).
Proof.
  intros Hwide Hid. split; [|split].
  - unfold virtio_iommu_attach.
    destruct (get_endpoint_spec s ep_id Hid) as (s1 & ep & -> & Heid & _).
    assert (H2 : snd (match e_domain ep with
                      | Some _ => virtio_iommu_detach_endpoint_from_domain s1 ep
                      | None => (s1, [])
                      end) = []).
    { destruct (e_domain ep) as [did|]; [|reflexivity].
      unfold virtio_iommu_detach_endpoint_from_domain.
      destruct (e_domain ep) as [did'|]; [|reflexivity].
      destruct (tbl_lookup (domains s1) did'); [|reflexivity].
      simpl. apply foreach_notifier_of_wide. now rewrite Heid. }
    destruct (match e_domain ep with
              | Some _ => virtio_iommu_detach_endpoint_from_domain s1 ep
              | None => (s1, [])
              end) as [s2 evs2]. simpl in H2. subst evs2.
    destruct (virtio_iommu_get_domain s2 domain_id) as [s3 dom]. simpl.
    rewrite foreach_notifier_of_wide by (now rewrite Heid). reflexivity.
  - unfold virtio_iommu_detach.
    destruct (tbl_lookup (endpoints s) ep_id) as [ep|] eqn:E; [|reflexivity].
    destruct (e_domain ep) as [did|] eqn:Ed; [|reflexivity].
    unfold virtio_iommu_detach_endpoint_from_domain. rewrite Ed.
    destruct (tbl_lookup (domains s) did); [|reflexivity].
    simpl. apply foreach_notifier_of_wide. now rewrite (Hid _ eq_refl).
  - intros ep sdev addr flag. unfold virtio_iommu_translate. simpl.
    rewrite tbl_lookup_insert_ne; [reflexivity|].
    pose proof (get_sid_bound sdev). lia.
Qed.

Lemma wide_endpoint_ids_are_inert_witness :
  snd (virtio_iommu_attach one_page_device 1 65537) = [].
Proof.
  pose proof (proj1 (wide_endpoint_ids_are_inert one_page_device 1 65537
                       ltac:(lia) ltac:(intros ep H; vm_compute in H; discriminate)))
    as H.
  rewrite H. reflexivity.
Defined.

(** ** The notifier registry *)

Lemma same_device_eq (a b : IOMMUDevice) : same_device a b = true <-> a = b.
Proof.
  unfold same_device. destruct a as [ba da ma], b as [bb db mb]. simpl.
  rewrite !andb_true_iff, !N.eqb_eq. split.
  - intros [[-> ->] ->]. reflexivity.
  - intros [= -> -> ->]. auto.
Qed.

Lemma remove_notifier_node_split (nodes : list IOMMUDevice) (sdev : IOMMUDevice) :
  (~ In sdev nodes /\ remove_notifier_node nodes sdev = nodes) \/
  (exists before after,
      nodes = before ++ sdev :: after /\ ~ In sdev before /\
      remove_notifier_node nodes sdev = before ++ after).
Proof.
  induction nodes as [|node nodes IH]; simpl.
  - left. auto.
  - destruct (same_device node sdev) eqn:E.
    + apply same_device_eq in E. subst node. right. exists [], nodes. auto.
    + assert (Hne : node <> sdev).
      { intros ->. assert (H : same_device sdev sdev = true) by now apply same_device_eq.
        congruence. }
      destruct IH as [[Hnot Heq]|(before & after & -> & Hnot & Heq)].
      * left. rewrite Heq. split; [|reflexivity]. intros [H|H]; auto.
      * right. exists (node :: before), after. rewrite Heq. simpl.
        repeat split; auto. intros [H|H]; auto.
Qed.

(** X16.  The notifier registry.  A change away from NONE links a new node
    for the device at the head of the notifier list, without looking for
    an existing one.  A change to NONE unlinks the first node of the device
    and keeps every other node in place; when the device has no node the
    list is left as it is, and so it is by a change between two flags other
    than NONE.  No call touches the domains, the endpoints or the
    configuration.  Registering and then unregistering a device gives the
    state back. *)
Theorem notifier_registry (s : VirtIOIOMMU) (sdev : IOMMUDevice) (old new : N) :
  let s' := virtio_iommu_notify_flag_changed s sdev old new in
  domains s' = domains s /\ endpoints s' = endpoints s /\
  acked_features s' = acked_features s /\ page_size_mask s' = page_size_mask s /\
  probe_size s' = probe_size s /\ reserved_regions s' = reserved_regions s /\
  (old = IOMMU_NOTIFIER_NONE -> notifiers_list s' = sdev :: notifiers_list s) /\
  (old <> IOMMU_NOTIFIER_NONE -> new <> IOMMU_NOTIFIER_NONE -> s' = s) /\
  (old <> IOMMU_NOTIFIER_NONE -> new = IOMMU_NOTIFIER_NONE ->
   (~ In sdev (notifiers_list s) /\ notifiers_list s' = notifiers_list s) \/
   (exists before after,
       notifiers_list s = before ++ sdev :: after /\ ~ In sdev before /\
       notifiers_list s' = before ++ after)) /\
  (new <> IOMMU_NOTIFIER_NONE ->
   virtio_iommu_notify_flag_changed
     (virtio_iommu_notify_flag_changed s sdev IOMMU_NOTIFIER_NONE new)
     sdev new IOMMU_NOTIFIER_NONE = s).
Proof.
  cbv zeta.
  assert (Hframe : forall (A : Type) (f : VirtIOIOMMU -> A),
             (forall s0 nodes, f (set_notifiers s0 nodes) = f s0) ->
             f (virtio_iommu_notify_flag_changed s sdev old new) = f s).
  { intros A f Hf. unfold virtio_iommu_notify_flag_changed.
    destruct (old =? IOMMU_NOTIFIER_NONE); [apply Hf|].
    destruct (new =? IOMMU_NOTIFIER_NONE); [apply Hf|reflexivity]. }
  split; [apply (Hframe _ domains); reflexivity|].
  split; [apply (Hframe _ endpoints); reflexivity|].
  split; [apply (Hframe _ acked_features); reflexivity|].
  split; [apply (Hframe _ page_size_mask); reflexivity|].
  split; [apply (Hframe _ probe_size); reflexivity|].
  split; [apply (Hframe _ reserved_regions); reflexivity|].
  unfold virtio_iommu_notify_flag_changed.
  split; [|split; [|split]].
  - intros ->. reflexivity.
  - intros Ho Hn. apply N.eqb_neq in Ho, Hn. now rewrite Ho, Hn.
  - intros Ho ->. apply N.eqb_neq in Ho. rewrite Ho, N.eqb_refl. simpl.
    apply remove_notifier_node_split.
  - intros Hn. apply N.eqb_neq in Hn. rewrite ?N.eqb_refl, Hn, ?N.eqb_refl. simpl.
    assert (E : same_device sdev sdev = true) by (now apply same_device_eq).
    rewrite E. destruct s; reflexivity.
Qed.

(** ** Replay *)



(** ** Teardown *)

Lemma detach_cell_step (s : VirtIOIOMMU) (k : N) (d : viommu_domain)
  (c : ep_cell) (cs : list ep_cell) :
  links_by_lookup s ->
  tbl_lookup (domains s) k = Some d -> endpoint_list d = c :: cs ->
  1 < mappings_ref d ->
  cell_canonical c = true /\
  tbl_lookup (endpoints s) (cell_id c) = Some (mk_endpoint (cell_id c) (Some k)) /\
  exists s',
    virtio_iommu_detach_endpoint_from_domain s (mk_endpoint (cell_id c) (Some k))
    = (s', unmap_all s (cell_id c) (mappings d)) /\
    links_by_lookup s' /\
    tbl_lookup (domains s') k
    = Some (mk_domain (d_id d) (mappings d) (mappings_ref d - 1) cs) /\
    (forall k', k' <> k -> tbl_lookup (domains s') k' = tbl_lookup (domains s) k') /\
    (forall e, e <> cell_id c ->
               tbl_lookup (endpoints s') e = tbl_lookup (endpoints s) e) /\
    tbl_lookup (endpoints s') (cell_id c) = Some (mk_endpoint (cell_id c) None) /\
    notifiers_list s' = notifiers_list s.
Proof.
  intros Hl Hd Hcs Hlive.
  pose proof Hl as (_ & _ & _ & _ & Hcells & _ & _).
  destruct (Hcells k d c Hd) as [Hcan Hep]; [rewrite Hcs; now left|].
  split; [exact Hcan|]. split; [exact Hep|].
  destruct (links_detach_endpoint s Hl (cell_id c) _ Hep) as [Hl' Hep'];
    [simpl; discriminate|].
  destruct (g_tree_unref_cases (mappings d) (mappings_ref d)) as [[H _]|[_ Hu]];
    [lia|].
  revert Hl' Hep'. unfold virtio_iommu_detach_endpoint_from_domain. simpl.
  rewrite Hd, Hcs, Hu. simpl. rewrite N.eqb_refl, Hcan. simpl.
  intros Hl' Hep'. eexists. split; [reflexivity|].
  split; [exact Hl'|]. simpl.
  split; [apply tbl_lookup_insert_eq|].
  split; [intros k' Hk; now apply tbl_lookup_insert_ne|].
  split; [intros e He; now apply tbl_lookup_insert_ne|].
  split; [apply tbl_lookup_insert_eq|reflexivity].
Qed.

Lemma put_domain_cells (cs : list ep_cell) (s : VirtIOIOMMU) (k : N)
  (d : viommu_domain) (evs0 : list event) :
  links_by_lookup s ->
  tbl_lookup (domains s) k = Some d -> endpoint_list d = cs ->
  N.of_nat (length cs) < mappings_ref d ->
  exists s' d',
    fold_left (fun acc c =>
                 match acc with
                 | None => None
                 | Some (s1, evs) =>
                     if cell_canonical c then
                       match tbl_lookup (endpoints s1) (cell_id c) with
                       | Some ep =>
                           let '(s2, evs2) :=
                             virtio_iommu_detach_endpoint_from_domain s1 ep in
                           Some (s2, evs ++ evs2)
                       | None => None
                       end
                     else None
                 end) cs (Some (s, evs0))
    = Some (s', evs0 ++ flat_map (fun c => unmap_all s (cell_id c) (mappings d)) cs) /\
    links_by_lookup s' /\
    tbl_lookup (domains s') k = Some d' /\ endpoint_list d' = [] /\
    mappings d' = mappings d /\
    (forall k', k' <> k -> tbl_lookup (domains s') k' = tbl_lookup (domains s) k') /\
    (forall e, ~ In e (map cell_id cs) ->
               tbl_lookup (endpoints s') e = tbl_lookup (endpoints s) e) /\
    (forall e, In e (map cell_id cs) ->
               tbl_lookup (endpoints s') e = Some (mk_endpoint e None)) /\
    notifiers_list s' = notifiers_list s.
Proof.
  revert s d evs0. induction cs as [|c cs IH]; intros s d evs0 Hl Hd Hcs Hcnt.
  - exists s, d. simpl. rewrite app_nil_r.
    split; [reflexivity|]. split; [exact Hl|]. split; [exact Hd|].
    split; [exact Hcs|]. split; [reflexivity|]. split; [reflexivity|].
    split; [reflexivity|]. split; [intros e []|reflexivity].
  - assert (Hlive : 1 < mappings_ref d) by (simpl length in Hcnt; lia).
    destruct (detach_cell_step s k d c cs Hl Hd Hcs Hlive)
      as (Hcan & Hep & s1 & Hdet & Hl1 & Hd1 & Hoth & Hepo & Hepc & Hn).
    pose proof Hl as (_ & _ & _ & _ & _ & Hnd & _).
    specialize (Hnd k d Hd). unfold cell_ids in Hnd. rewrite Hcs in Hnd.
    simpl in Hnd. inversion Hnd as [|? ? Hnotin Hnd']; subst.
    destruct (IH s1 _ (evs0 ++ unmap_all s (cell_id c) (mappings d)) Hl1 Hd1 eq_refl)
      as (s' & d' & Hfold & Hl' & Hd' & Hlist & Hmap & Hoth' & Hepo' & Hepc' & Hn');
      [cbn [mappings_ref]; simpl length in Hcnt; lia|].
    exists s', d'. cbn [fold_left]. rewrite Hcan, Hep, Hdet.
    split.
    { rewrite Hfold. cbn [mappings flat_map]. rewrite <- app_assoc.
      replace (flat_map (fun c0 => unmap_all s1 (cell_id c0) (mappings d)) cs)
        with (flat_map (fun c0 => unmap_all s (cell_id c0) (mappings d)) cs);
        [reflexivity|].
      apply flat_map_ext. intros c'. unfold unmap_all. now rewrite Hn. }
    split; [exact Hl'|]. split; [exact Hd'|]. split; [exact Hlist|].
    split; [exact Hmap|].
    split; [intros k' Hk; rewrite Hoth' by exact Hk; now apply Hoth|].
    split.
    { intros e He. simpl in He. rewrite Hepo' by tauto. apply Hepo.
      intros ->. apply He. now left. }
    split; [|congruence].
    intros e [<-|He].
    + rewrite Hepo' by exact Hnotin. exact Hepc.
    + now apply Hepc'.
Qed.

Lemma put_domain_spec (s : VirtIOIOMMU) (k : N) (d : viommu_domain) :
  links_by_lookup s -> tbl_lookup (domains s) k = Some d ->
  N.of_nat (length (endpoint_list d)) < mappings_ref d ->
  exists s' d',
    virtio_iommu_put_domain s d
    = Some (s', flat_map (fun c => unmap_all s (cell_id c) (mappings d))
                         (endpoint_list d)) /\
    links_by_lookup s' /\
    tbl_lookup (domains s') k = Some d' /\ endpoint_list d' = [] /\
    mappings d' = mappings d /\
    (forall k', k' <> k -> tbl_lookup (domains s') k' = tbl_lookup (domains s) k') /\
    (forall e, ~ In e (cell_ids d) ->
               tbl_lookup (endpoints s') e = tbl_lookup (endpoints s) e) /\
    (forall e, In e (cell_ids d) ->
               tbl_lookup (endpoints s') e = Some (mk_endpoint e None)) /\
    notifiers_list s' = notifiers_list s.
Proof.
  intros Hl Hd Hcnt.
  destruct (put_domain_cells (endpoint_list d) s k d [] Hl Hd eq_refl Hcnt)
    as (s' & d' & H). exists s', d'. exact H.
Qed.

Lemma keys_ascending_NoDup {V : Type} (t : list (N * V)) :
  keys_ascending t -> NoDup (map fst t).
Proof.
  induction t as [|[k v] t IH]; simpl; [constructor|].
  intros [Hall Hk]. constructor; [|now apply IH].
  intros Hin. apply in_map_iff in Hin. destruct Hin as (p & Hp & Hin).
  rewrite Forall_forall in Hall. specialize (Hall _ Hin). lia.
Qed.

Lemma destroy_domains_keys (s0 : VirtIOIOMMU) (ks : list N) (s : VirtIOIOMMU)
  (evs0 : list event) :
  links_by_lookup s -> NoDup ks ->
  (forall k, In k ks -> tbl_lookup (domains s) k = tbl_lookup (domains s0) k) ->
  (forall k d, In k ks -> tbl_lookup (domains s0) k = Some d ->
               N.of_nat (length (endpoint_list d)) < mappings_ref d) ->
  notifiers_list s = notifiers_list s0 ->
  exists s',
    fold_left (fun acc key =>
                 match acc with
                 | None => None
                 | Some (s1, evs) =>
                     match tbl_lookup (domains s1) key with
                     | None => Some (s1, evs)
                     | Some d =>
                         match virtio_iommu_put_domain s1 d with
                         | None => None
                         | Some (s2, evs2) => Some (s2, evs ++ evs2)
                         end
                     end
                 end) ks (Some (s, evs0))
    = Some (s', evs0 ++
                flat_map (fun k =>
                            match tbl_lookup (domains s0) k with
                            | Some d =>
                                flat_map (fun c => unmap_all s0 (cell_id c) (mappings d))
                                         (endpoint_list d)
                            | None => []
                            end) ks) /\
    links_by_lookup s' /\
    (forall k d', In k ks -> tbl_lookup (domains s') k = Some d' ->
                  endpoint_list d' = []) /\
    (forall k, ~ In k ks -> tbl_lookup (domains s') k = tbl_lookup (domains s) k) /\
    notifiers_list s' = notifiers_list s0.
Proof.
  revert s evs0. induction ks as [|k ks IH]; intros s evs0 Hl Hnd Hsame Hcnt Hn.
  - exists s. simpl. rewrite app_nil_r.
    split; [reflexivity|]. split; [exact Hl|]. split; [intros k d' []|].
    split; [reflexivity|exact Hn].
  - inversion Hnd as [|? ? Hnotin Hnd']; subst. cbn [fold_left flat_map].
    pose proof (Hcnt k) as Hcntk.
    rewrite <- (Hsame k) in Hcntk |- * by now left.
    destruct (tbl_lookup (domains s) k) as [d|] eqn:Hd.
    + destruct (put_domain_spec s k d Hl Hd (Hcntk d (or_introl eq_refl) eq_refl))
        as (s1 & d1 & Hput & Hl1 & Hd1 & Hlist1 & _ & Hoth & _ & _ & Hn1).
      rewrite Hput.
      destruct (IH s1 (evs0 ++ flat_map (fun c => unmap_all s (cell_id c) (mappings d))
                                        (endpoint_list d)) Hl1 Hnd')
        as (s' & Hfold & Hl' & Hempty & Hrest & Hn').
      { intros k' Hk'. rewrite Hoth by (intros ->; contradiction).
        apply Hsame. now right. }
      { intros k' d' Hk'. apply Hcnt. now right. }
      { congruence. }
      exists s'. split.
      { rewrite Hfold, <- app_assoc.
        replace (flat_map (fun c => unmap_all s (cell_id c) (mappings d))
                          (endpoint_list d))
          with (flat_map (fun c => unmap_all s0 (cell_id c) (mappings d))
                         (endpoint_list d)); [reflexivity|].
        apply flat_map_ext. intros c. unfold unmap_all. now rewrite Hn. }
      split; [exact Hl'|]. split.
      { intros k' d' [<-|Hk'] Hlk.
        - rewrite (Hrest _ Hnotin), Hd1 in Hlk. injection Hlk as <-. exact Hlist1.
        - exact (Hempty _ _ Hk' Hlk). }
      split; [|exact Hn'].
      intros k' Hk'. rewrite Hrest by (intros H; apply Hk'; now right).
      apply Hoth. intros ->. apply Hk'. now left.
    + destruct (IH s evs0 Hl Hnd') as (s' & Hfold & Hl' & Hempty & Hrest & Hn').
      { intros k' Hk'. apply Hsame. now right. }
      { intros k' d' Hk'. apply Hcnt. now right. }
      { exact Hn. }
      exists s'. split; [rewrite Hfold; reflexivity|].
      split; [exact Hl'|]. split.
      { intros k' d' [<-|Hk'] Hlk.
        - rewrite (Hrest _ Hnotin), Hd in Hlk. discriminate.
        - exact (Hempty _ _ Hk' Hlk). }
      split; [|exact Hn'].
      intros k' Hk'. apply Hrest. intros H. apply Hk'. now right.
Qed.

Lemma destroy_endpoints_idle (s : VirtIOIOMMU) :
  (forall k e, tbl_lookup (endpoints s) k = Some e -> e_domain e = None) ->
  destroy_endpoints s = (s, []).
Proof.
  intros Hnone. unfold destroy_endpoints.
  induction (map fst (endpoints s)) as [|k ks IH]; [reflexivity|].
  cbn [fold_left fst snd].
  destruct (tbl_lookup (endpoints s) k) as [ep|] eqn:E; [|exact IH].
  unfold virtio_iommu_put_endpoint. rewrite (Hnone _ _ E). exact IH.
Qed.

Lemma flat_map_keys {V : Type} (t l : list (N * V)) (f : V -> list event) :
  (forall p, In p l -> tbl_lookup t (fst p) = Some (snd p)) ->
  flat_map (fun k => match tbl_lookup t k with
                     | Some d => f d
                     | None => []
                     end) (map fst l)
  = flat_map (fun kd => f (snd kd)) l.
Proof.
  induction l as [|p l IH]; intros Hin; [reflexivity|].
  simpl. rewrite (Hin p) by now left. f_equal. apply IH.
  intros q Hq. apply Hin. now right.
Qed.

(** X20.  Teardown detaches every endpoint before anything is freed.  From
    a state with consistent links in which every mapping tree holds one
    reference for its domain and one for each attached endpoint, as in the
    states that commands build, destroying the domain tree walks the
    domains in id order and detaches each endpoint of each list: it sends,
    per domain and per attached endpoint, the UNMAP notifications of the
    domain's mappings to the endpoint's notifiers, and leaves every
    endpoint without a domain and every endpoint list empty.  The
    destructor of the endpoint tree, which runs once the domains are gone,
    therefore detaches nothing and notifies nobody: no endpoint is left
    pointing at a freed domain.  Both trees end up empty. *)
Theorem unrealize_detaches_everything (s : VirtIOIOMMU) :
  links_consistent s -> refs_counted s ->
  let evs := flat_map (fun kd =>
                         flat_map (fun c => unmap_all s (cell_id c)
                                                      (mappings (snd kd)))
                                  (endpoint_list (snd kd)))
                      (domains s) in
  exists s1,
    destroy_domains s = Some (s1, evs) /\
    (forall k e, tbl_lookup (endpoints s1) k = Some e -> e_domain e = None) /\
    (forall k d, tbl_lookup (domains s1) k = Some d -> endpoint_list d = []) /\
    notifiers_list s1 = notifiers_list s /\
    destroy_endpoints (set_domains s1 []) = (set_domains s1 [], []) /\
    virtio_iommu_device_unrealize s
    = Some (set_endpoints (set_domains s1 []) [], evs).
Proof.
  intros Hc Hrefs. cbv zeta. pose proof Hc as Hl. apply links_by_lookup_iff in Hl.
  pose proof Hl as (Hkeys & _).
  assert (Hcnt : forall k d, In k (map fst (domains s)) ->
                   tbl_lookup (domains s) k = Some d ->
                   N.of_nat (length (endpoint_list d)) < mappings_ref d).
  { intros k d _ Hd. rewrite (Hrefs k d Hd). lia. }
  destruct (destroy_domains_keys s (map fst (domains s)) s [] Hl
              (keys_ascending_NoDup _ Hkeys) (fun _ _ => eq_refl) Hcnt eq_refl)
    as (s1 & Hfold & Hl1 & Hempty & Hrest & Hn).
  assert (Hevs : flat_map (fun k =>
                             match tbl_lookup (domains s) k with
                             | Some d =>
                                 flat_map (fun c => unmap_all s (cell_id c) (mappings d))
                                          (endpoint_list d)
                             | None => []
                             end) (map fst (domains s))
                 = flat_map (fun kd =>
                               flat_map (fun c => unmap_all s (cell_id c)
                                                            (mappings (snd kd)))
                                        (endpoint_list (snd kd)))
                            (domains s)).
  { apply (flat_map_keys (domains s) (domains s)
             (fun d => flat_map (fun c => unmap_all s (cell_id c) (mappings d))
                                (endpoint_list d))).
    intros [k d] Hp. now apply tbl_In_lookup. }
  simpl in Hfold. rewrite Hevs in Hfold.
  assert (Hdoms : forall k d, tbl_lookup (domains s1) k = Some d ->
                              endpoint_list d = []).
  { intros k d Hlk.
    destruct (in_dec N.eq_dec k (map fst (domains s))) as [Hin|Hnin].
    - exact (Hempty _ _ Hin Hlk).
    - rewrite (Hrest _ Hnin) in Hlk. exfalso. apply Hnin.
      apply tbl_lookup_In in Hlk. apply in_map_iff. now exists (k, d). }
  assert (Heps : forall k e, tbl_lookup (endpoints s1) k = Some e ->
                             e_domain e = None).
  { intros k e Hlk. destruct (e_domain e) as [did|] eqn:E; [|reflexivity].
    pose proof Hl1 as (_ & _ & _ & _ & _ & _ & Hatt).
    destruct (Hatt k e did Hlk E) as (d & Hd & Hin).
    rewrite (Hdoms _ _ Hd) in Hin. destruct Hin. }
  exists s1. split; [exact Hfold|]. split; [exact Heps|]. split; [exact Hdoms|].
  split; [exact Hn|].
  assert (Hidle : destroy_endpoints (set_domains s1 []) = (set_domains s1 [], [])).
  { apply destroy_endpoints_idle. exact Heps. }
  split; [exact Hidle|].
  unfold virtio_iommu_device_unrealize. unfold destroy_domains.
  rewrite Hfold, Hidle. now rewrite app_nil_r.
Qed.

Lemma busy_device_counted : refs_counted busy_device.
Proof.
  intros k d Hl. apply tbl_lookup_In in Hl. simpl in Hl.
  destruct Hl as [[= <- <-]|[[= <- <-]|[]]]; reflexivity.
Qed.

Lemma unrealize_detaches_everything_witness :
  links_consistent busy_device /\ refs_counted busy_device /\
  exists s1,
    destroy_domains busy_device = Some (s1,
      flat_map (fun kd =>
                  flat_map (fun c => unmap_all busy_device (cell_id c)
                                               (mappings (snd kd)))
                           (endpoint_list (snd kd)))
               (domains busy_device)) /\
    (forall k e, tbl_lookup (endpoints s1) k = Some e -> e_domain e = None).
Proof.
  split; [exact busy_device_consistent|]. split; [exact busy_device_counted|].
  destruct (unrealize_detaches_everything busy_device busy_device_consistent
              busy_device_counted)
    as (s1 & H1 & H2 & _).
  exists s1. split; assumption.
Defined.

(** ** ATTACH and DETACH as a round trip *)

Lemma tbl_insert_twice {V : Type} (t : list (N * V)) (k : N) (v1 v2 : V) :
  tbl_insert (tbl_insert t k v1) k v2 = tbl_insert t k v2.
Proof.
  induction t as [|[k0 v0] t IH]; simpl.
  - rewrite int_cmp_eqb, N.eqb_refl. reflexivity.
  - destruct (int_cmp k k0 =? 0)%Z eqn:E0; simpl.
    + rewrite int_cmp_eqb, N.eqb_refl. reflexivity.
    + destruct (int_cmp k k0 <? 0)%Z eqn:E1; simpl.
      * rewrite int_cmp_eqb, N.eqb_refl. reflexivity.
      * rewrite E0, E1. now rewrite IH.
Qed.

Lemma tbl_insert_same {V : Type} (t : list (N * V)) (k : N) (v : V) :
  keys_ascending t -> tbl_lookup t k = Some v -> tbl_insert t k v = t.
Proof.
  induction t as [|[k0 v0] t IH]; simpl; [discriminate|].
  intros [Hall Hasc].
  destruct (int_cmp k k0 =? 0)%Z eqn:E0.
  - rewrite int_cmp_eqb in E0. apply N.eqb_eq in E0. now intros [= ->]; subst.
  - intros H. destruct (int_cmp k k0 <? 0)%Z eqn:E1.
    + exfalso. rewrite int_cmp_ltb in E1. apply N.ltb_lt in E1.
      apply tbl_lookup_In in H. rewrite Forall_forall in Hall.
      specialize (Hall _ H). simpl in Hall. lia.
    + now rewrite IH.
Qed.

(** X21.  ATTACH followed by DETACH is a round trip.  In a state with
    ascending trees, for an endpoint that is known and attached to nothing
    and a domain that exists and whose mapping tree is live (its reference
    count is not zero), attaching the endpoint and detaching it again
    both return OK and give the very state back: the endpoint list, the
    reference count of the mapping tree, and both trees are as before.
    The notifications are the MAP replay of the domain's mappings to the
    endpoint's notifiers, followed by the UNMAP of the same mappings. *)
Theorem attach_then_detach_restores (s : VirtIOIOMMU) (domain_id ep_id : N)
  (d : viommu_domain) :
  keys_ascending (domains s) -> keys_ascending (endpoints s) ->
  tbl_lookup (endpoints s) ep_id = Some (mk_endpoint ep_id None) ->
  tbl_lookup (domains s) domain_id = Some d ->
  0 < mappings_ref d ->
  exists s1,
    virtio_iommu_attach s domain_id ep_id
    = (VIRTIO_IOMMU_S_OK, s1, map_all s ep_id (mappings d)) /\
    tbl_lookup (endpoints s1) ep_id = Some (mk_endpoint ep_id (Some domain_id)) /\
    virtio_iommu_detach s1 domain_id ep_id
    = (VIRTIO_IOMMU_S_OK, s, unmap_all s ep_id (mappings d)).
Proof.
  intros Hkd Hke Hep Hd Hlive.
  assert (Hu : g_tree_unref (mappings d) (mappings_ref d + 1)
               = (mappings d, mappings_ref d)).
  { destruct (g_tree_unref_cases (mappings d) (mappings_ref d + 1))
      as [[H _]|[_ ->]]; [lia|]. f_equal. lia. }
  unfold virtio_iommu_attach, virtio_iommu_get_endpoint, virtio_iommu_get_domain.
  rewrite Hep. cbn [e_domain e_id]. rewrite Hd.
  eexists. split; [reflexivity|].
  split; [cbn [endpoints set_endpoints]; apply tbl_lookup_insert_eq|].
  unfold virtio_iommu_detach. cbn [endpoints set_endpoints set_domains].
  rewrite tbl_lookup_insert_eq. cbn [e_domain].
  unfold virtio_iommu_detach_endpoint_from_domain.
  cbn [e_domain e_id domains endpoints set_endpoints set_domains].
  rewrite tbl_lookup_insert_eq.
  cbn [d_id mappings mappings_ref endpoint_list qlist_remove cell_id cell_canonical].
  rewrite N.eqb_refl. cbn [andb].
  rewrite !tbl_insert_twice, Hu. cbn [fst snd].
  replace (mk_domain (d_id d) (mappings d) (mappings_ref d) (endpoint_list d))
    with d by (destruct d; reflexivity).
  unfold set_endpoints, set_domains, foreach_notifier_of, unmap_all.
  cbn [domains endpoints notifiers_list acked_features page_size_mask probe_size
       reserved_regions].
  rewrite (tbl_insert_same (endpoints s) ep_id (mk_endpoint ep_id None) Hke Hep).
  rewrite (tbl_insert_same (domains s) domain_id d Hkd Hd).
  destruct s; reflexivity.
Qed.

Lemma attach_then_detach_restores_witness :
  exists s1,
    virtio_iommu_attach busy_device 2 4
    = (VIRTIO_IOMMU_S_OK, s1,
       map_all busy_device 4 (mappings (mk_domain 2 Leaf 2 [mk_cell 2 true]))) /\
    tbl_lookup (endpoints s1) 4 = Some (mk_endpoint 4 (Some 2)) /\
    virtio_iommu_detach s1 2 4
    = (VIRTIO_IOMMU_S_OK, busy_device,
       unmap_all busy_device 4 (mappings (mk_domain 2 Leaf 2 [mk_cell 2 true]))).
Proof.
  apply (attach_then_detach_restores busy_device 2 4
           (mk_domain 2 Leaf 2 [mk_cell 2 true])).
  - simpl. repeat constructor.
  - simpl. repeat constructor.
  - vm_compute. reflexivity.
  - vm_compute. reflexivity.
  - reflexivity.
Defined.

(** ** Reference counts of the mapping trees *)

Lemma qlist_remove_length (cells : list ep_cell) (ep_id : N) :
  In (mk_cell ep_id true) cells ->
  S (length (qlist_remove cells ep_id)) = length cells.
Proof.
  induction cells as [|c cells IH]; simpl; [intros []|].
  intros Hin. destruct ((cell_id c =? ep_id) && cell_canonical c) eqn:E.
  - reflexivity.
  - simpl. f_equal. apply IH. destruct Hin as [->|Hin]; [|exact Hin].
    simpl in E. now rewrite N.eqb_refl in E.
Qed.

Lemma refs_detach_endpoint (s : VirtIOIOMMU) (e : N) (ep : viommu_endpoint) :
  links_by_lookup s -> refs_counted s ->
  tbl_lookup (endpoints s) e = Some ep ->
  refs_counted (fst (virtio_iommu_detach_endpoint_from_domain s ep)).
Proof.
  intros Hl Hr Hep. pose proof Hl as (_ & _ & _ & H4 & _ & _ & H7).
  unfold virtio_iommu_detach_endpoint_from_domain.
  destruct (e_domain ep) as [did|] eqn:Edom; [|exact Hr].
  destruct (H7 e ep did Hep Edom) as (d & Hd & Hin). rewrite Hd. simpl.
  pose proof (qlist_remove_length _ _ Hin) as Hlen.
  assert (Hu : g_tree_unref (mappings d) (mappings_ref d)
               = (mappings d, mappings_ref d - 1)).
  { destruct (g_tree_unref_cases (mappings d) (mappings_ref d))
      as [[H _]|[_ ->]]; [|reflexivity].
    rewrite (Hr _ _ Hd) in H. destruct (endpoint_list d); [destruct Hin|].
    simpl length in H. lia. }
  rewrite Hu.
  unfold refs_counted. cbn [domains endpoints set_endpoints set_domains fst snd].
  intros k x. destruct (N.eq_dec k did) as [->|Hne].
  - rewrite tbl_lookup_insert_eq. intros [= <-]. cbn [mappings_ref endpoint_list length].
    rewrite (Hr _ _ Hd). rewrite (H4 _ _ Hep). lia.
  - rewrite tbl_lookup_insert_ne by assumption. apply Hr.
Qed.

Lemma refs_attach (s : VirtIOIOMMU) (domain_id ep_id : N) :
  links_by_lookup s -> refs_counted s ->
  refs_counted (snd (fst (virtio_iommu_attach s domain_id ep_id))).
Proof.
  intros Hl Hr. unfold virtio_iommu_attach.
  assert (H1 : links_by_lookup (fst (virtio_iommu_get_endpoint s ep_id)) /\
               refs_counted (fst (virtio_iommu_get_endpoint s ep_id)) /\
               tbl_lookup (endpoints (fst (virtio_iommu_get_endpoint s ep_id))) ep_id
               = Some (snd (virtio_iommu_get_endpoint s ep_id))).
  { unfold virtio_iommu_get_endpoint.
    destruct (tbl_lookup (endpoints s) ep_id) as [ep0|] eqn:E; simpl.
    - auto.
    - split; [now apply links_add_endpoint|].
      split; [exact Hr|apply tbl_lookup_insert_eq]. }
  destruct (virtio_iommu_get_endpoint s ep_id) as [s1 ep]. simpl in H1.
  destruct H1 as (Hl1 & Hr1 & Hep1).
  assert (H2 : refs_counted
                 (fst (match e_domain ep with
                       | Some _ => virtio_iommu_detach_endpoint_from_domain s1 ep
                       | None => (s1, [])
                       end))).
  { destruct (e_domain ep) as [did0|] eqn:Edom; [|exact Hr1].
    exact (refs_detach_endpoint s1 ep_id ep Hl1 Hr1 Hep1). }
  destruct (match e_domain ep with
            | Some _ => virtio_iommu_detach_endpoint_from_domain s1 ep
            | None => (s1, [])
            end) as [s2 evs].
  simpl in H2.
  assert (H3 : refs_counted (fst (virtio_iommu_get_domain s2 domain_id)) /\
               tbl_lookup (domains (fst (virtio_iommu_get_domain s2 domain_id))) domain_id
               = Some (snd (virtio_iommu_get_domain s2 domain_id))).
  { unfold virtio_iommu_get_domain.
    destruct (tbl_lookup (domains s2) domain_id) as [d|] eqn:Ed; simpl.
    - auto.
    - split; [|apply tbl_lookup_insert_eq].
      unfold refs_counted. cbn [domains endpoints set_endpoints set_domains fst snd].
      intros k x. destruct (N.eq_dec k domain_id) as [->|Hne].
      + rewrite tbl_lookup_insert_eq. intros [= <-]. reflexivity.
      + rewrite tbl_lookup_insert_ne by assumption. apply H2. }
  destruct (virtio_iommu_get_domain s2 domain_id) as [s3 domain]. simpl in H3.
  destruct H3 as (Hr3 & Hd3). cbn [fst snd]. unfold refs_counted. cbn [domains endpoints set_endpoints set_domains fst snd].
  intros k x. destruct (N.eq_dec k domain_id) as [->|Hne].
  - rewrite tbl_lookup_insert_eq. intros [= <-]. cbn [mappings_ref endpoint_list length].
    rewrite (Hr3 _ _ Hd3). lia.
  - rewrite tbl_lookup_insert_ne by assumption. apply Hr3.
Qed.

Lemma refs_run_command (rebalance : GTree -> GTree)
  (after_free : viommu_interval -> viommu_interval) (fuel : nat)
  (s : VirtIOIOMMU) (c : command) (r : handler_result) :
  links_by_lookup s -> refs_counted s ->
  run_command rebalance after_free fuel s c = Some r ->
  links_by_lookup (snd (fst r)) /\ refs_counted (snd (fst r)).
Proof.
  intros Hl Hr. destruct c as [d e|d e|d vs ve p fl|d vs ve]; simpl.
  - intros [= <-]. split; [now apply links_attach|now apply refs_attach].
  - intros [= <-]. split; [now apply links_detach|].
    unfold virtio_iommu_detach.
    destruct (tbl_lookup (endpoints s) e) as [ep|] eqn:E; [|exact Hr].
    destruct (e_domain ep) as [did|] eqn:Edom; [|exact Hr].
    pose proof (refs_detach_endpoint s e ep Hl Hr E) as H.
    destruct (virtio_iommu_detach_endpoint_from_domain s ep). exact H.
  - intros [= <-]. split; [now apply links_map|].
    unfold virtio_iommu_map.
    destruct (tbl_lookup (domains s) d) as [dom|] eqn:Ed; [|exact Hr].
    destruct (g_tree_lookup (mappings dom) _); [exact Hr|].
    unfold refs_counted. cbn [domains endpoints set_endpoints set_domains fst snd].
    intros k x. destruct (N.eq_dec k d) as [->|Hne].
    + rewrite tbl_lookup_insert_eq. intros [= <-]. cbn [mappings_ref endpoint_list]. exact (Hr _ _ Ed).
    + rewrite tbl_lookup_insert_ne by assumption. apply Hr.
  - intros H. split; [exact (links_unmap _ _ _ _ _ _ _ _ Hl H)|].
    revert H. unfold virtio_iommu_unmap.
    destruct (tbl_lookup (domains s) d) as [dom|] eqn:Ed;
      [|intros [= <-]; exact Hr].
    destruct (unmap_loop rebalance after_free fuel _ _ _ _ _) as [[[ret t'] evs]|];
      [|discriminate].
    intros [= <-]. unfold refs_counted. cbn [domains endpoints set_endpoints set_domains fst snd].
    intros k x. destruct (N.eq_dec k d) as [->|Hne].
    + rewrite tbl_lookup_insert_eq. intros [= <-]. cbn [mappings_ref endpoint_list]. exact (Hr _ _ Ed).
    + rewrite tbl_lookup_insert_ne by assumption. apply Hr.
Qed.

(** X22.  The reference count of a mapping tree follows the attachments.
    In every state that ATTACH, DETACH, MAP and UNMAP commands reach from
    the realized device, whatever their arguments, the count of each
    domain's mapping tree is one plus the number of endpoints in the
    domain's list: it never reaches zero while the domain exists. *)
Theorem reference_counts_follow_attachments (rebalance : GTree -> GTree)
  (after_free : viommu_interval -> viommu_interval)
  (fuel : nat) (nodes : list IOMMUDevice) (features mask : N)
  (regions : list ReservedRegion) (cs : list command) (sts : list N)
  (s : VirtIOIOMMU) (evs : list event) :
  run_commands rebalance after_free fuel (realized nodes features mask regions) cs
    = Some (sts, s, evs) ->
  forall k d, tbl_lookup (domains s) k = Some d ->
              mappings_ref d = 1 + N.of_nat (length (endpoint_list d)) /\
              0 < mappings_ref d.
Proof.
  intros Hrun.
  assert (H : links_by_lookup s /\ refs_counted s).
  { assert (H0 : links_by_lookup (realized nodes features mask regions) /\
                 refs_counted (realized nodes features mask regions)).
    { split; [apply links_by_lookup_iff, realized_links_consistent|].
      intros k d Hk. discriminate. }
    revert Hrun H0. generalize (realized nodes features mask regions) as s0.
    revert sts s evs. induction cs as [|c cs IH]; intros sts s evs s0; simpl.
    - intros [= _ <- _] H0. exact H0.
    - destruct (run_command rebalance after_free fuel s0 c) as [[[st s1] evs1]|] eqn:Ec;
        [|discriminate].
      destruct (run_commands rebalance after_free fuel s1 cs) as [[[sts1 s2] evs2]|] eqn:Er;
        [|discriminate].
      intros [= _ <- _] [Hl0 Hr0].
      apply (IH _ _ _ _ Er).
      exact (refs_run_command _ _ _ _ _ _ Hl0 Hr0 Ec). }
  destruct H as [_ Hr]. intros k d Hk. rewrite (Hr k d Hk). split; [reflexivity|lia].
Qed.

Lemma reference_counts_follow_attachments_witness :
  mappings_ref (mk_domain 1 (Node Leaf (mk_interval 4096 8191)
                                  (mk_mapping 40960 3) Leaf)
                          3 [mk_cell 1 true; mk_cell 3 true])
  = 1 + N.of_nat (length [mk_cell 1 true; mk_cell 3 true]).
Proof.
  refine (proj1 (reference_counts_follow_attachments no_rotation no_reuse 0 [dev_0_1] 0
                   18446744073709547520 []
                   [CmdAttach 1 3; CmdAttach 1 1; CmdAttach 2 2; CmdAttach 2 4;
                    CmdDetach 2 4; CmdMap 1 4096 8191 40960 3]
                   [0; 0; 0; 0; 0; 0] busy_device
                   [virtio_iommu_notify_map 7 4096 40960 4096] _ 1
                   (mk_domain 1 (Node Leaf (mk_interval 4096 8191)
                                      (mk_mapping 40960 3) Leaf)
                              3 [mk_cell 1 true; mk_cell 3 true]) _)).
  - vm_compute. reflexivity.
  - vm_compute. reflexivity.
Defined.

Lemma foreach_reconstruct_refs (ds : list (N * viommu_domain)) (ep_id : N)
  (ds' : list (N * viommu_domain)) (found : N) :
  foreach_reconstruct ds ep_id = Some (ds', found) ->
  map (fun kd => (fst kd, mappings_ref (snd kd))) ds'
  = map (fun kd => (fst kd, mappings_ref (snd kd))) ds.
Proof.
  revert ds' found. induction ds as [|[key d] ds IH]; intros ds' found; simpl;
    [discriminate|].
  unfold reconstruct_ep_domain_link.
  destruct (existsb _ (endpoint_list d)).
  - intros [= <- _]. reflexivity.
  - destruct (foreach_reconstruct ds ep_id) as [[ds1 f1]|]; [|discriminate].
    intros [= <- _]. simpl. f_equal. exact (IH _ _ eq_refl).
Qed.

Lemma post_load_refs (s : VirtIOIOMMU) :
  map (fun kd => (fst kd, mappings_ref (snd kd))) (domains (iommu_post_load s))
  = map (fun kd => (fst kd, mappings_ref (snd kd))) (domains s).
Proof.
  unfold iommu_post_load. generalize (endpoints s) as es. intros es.
  revert s. induction es as [|[k e] es IH]; intros s; [reflexivity|].
  cbn [fold_left fst snd]. rewrite IH. unfold fix_endpoint.
  destruct (foreach_reconstruct (domains s) (e_id e)) as [[ds' found]|] eqn:E;
    [|reflexivity].
  simpl. exact (foreach_reconstruct_refs _ _ _ _ E).
Qed.

Lemma refs_image_lookup (l l' : list (N * viommu_domain)) (k : N)
  (d' : viommu_domain) :
  map (fun kd => (fst kd, mappings_ref (snd kd))) l'
  = map (fun kd => (fst kd, mappings_ref (snd kd))) l ->
  tbl_lookup l' k = Some d' ->
  exists d, tbl_lookup l k = Some d /\ mappings_ref d = mappings_ref d'.
Proof.
  revert l. induction l' as [|[k1 d1] l' IH]; intros [|[k0 d0] l]; simpl;
    try discriminate.
  intros [= -> Href Hmap].
  destruct (int_cmp k k0 =? 0)%Z.
  - intros [= <-]. eauto.
  - now apply IH.
Qed.

Lemma loaded_refs (rebalance : GTree -> GTree)
  (imgs : list (N * domain_image)) (acc : list (N * viommu_domain)) :
  Forall (fun kd => mappings_ref (snd kd) = 1) acc ->
  Forall (fun kd => mappings_ref (snd kd) = 1)
         (fold_left (fun acc ki =>
                       tbl_insert acc (fst ki)
                         (mk_domain (img_id (snd ki))
                            (load_mappings rebalance (img_mappings (snd ki)))
                            1
                            (map (fun i => mk_cell i false)
                                 (img_endpoints (snd ki)))))
                    imgs acc).
Proof.
  revert acc. induction imgs as [|ki imgs IH]; intros acc Hacc; [exact Hacc|].
  simpl. apply IH. apply Forall_forall. intros [k d] Hin.
  apply tbl_insert_In in Hin. destruct Hin as [[_ ->]|Hin]; [reflexivity|].
  rewrite Forall_forall in Hacc. exact (Hacc _ Hin).
Qed.

(** X23.  The post-load hook takes no reference.  [domain_preload] gives
    each loaded domain a new mapping tree, whose count is one, and
    [iommu_post_load] links the endpoints back into the lists without
    changing any count.  So in a restored state every mapping tree has
    count one, however many endpoints are attached to its domain.  A DETACH
    of an endpoint attached to a restored domain announces the mappings as
    unmapped to the notifiers of that endpoint, returns OK and drops the
    one reference: [g_tree_unref] destroys the mapping tree with all its
    mappings, while the domain stays in the domain tree and keeps in its
    list the other endpoints, which are still attached to it. *)
Theorem restore_takes_no_reference (rebalance : GTree -> GTree)
  (s0 : VirtIOIOMMU) (snap : snapshot) (k : N) (d : viommu_domain) :
  let s := snapshot_restore rebalance s0 snap in
  tbl_lookup (domains s) k = Some d ->
  mappings_ref d = 1 /\
  (forall e ep any,
      tbl_lookup (endpoints s) e = Some ep -> e_domain ep = Some k ->
      exists s' d',
        virtio_iommu_detach s any e
        = (VIRTIO_IOMMU_S_OK, s', unmap_all s (e_id ep) (mappings d)) /\
        tbl_lookup (domains s') k = Some d' /\
        d' = mk_domain (d_id d) Leaf 0
                       (qlist_remove (endpoint_list d) (e_id ep)) /\
        (forall e', e' <> e_id ep ->
                    tbl_lookup (endpoints s') e' = tbl_lookup (endpoints s) e')).
Proof.
  cbv zeta. intros Hd.
  assert (Href : mappings_ref d = 1).
  { unfold snapshot_restore in Hd.
    destruct (refs_image_lookup _ _ _ _ (post_load_refs _) Hd) as (d0 & Hd0 & <-).
    apply tbl_lookup_In in Hd0.
    pose proof (loaded_refs rebalance (snap_domains snap) [] (Forall_nil _)) as Hall.
    rewrite Forall_forall in Hall. exact (Hall _ Hd0). }
  split; [exact Href|].
  intros e ep any Hep Hdom. unfold virtio_iommu_detach. rewrite Hep, Hdom.
  unfold virtio_iommu_detach_endpoint_from_domain. rewrite Hdom, Hd.
  eexists. eexists. split; [reflexivity|].
  cbn [domains endpoints set_endpoints set_domains].
  rewrite tbl_lookup_insert_eq. split; [reflexivity|].
  rewrite Href. split; [reflexivity|].
  intros e' Hne. now apply tbl_lookup_insert_ne.
Qed.

(** X23 at work: on the restored busy device, whose domain 1 has two
    endpoints, DETACH(1, 3) leaves domain 1 without its page and with
    endpoint 1 still in its list. *)
Lemma restore_takes_no_reference_witness :
  exists d,
    tbl_lookup (domains (snapshot_restore no_rotation fresh_device
                           (snapshot_save busy_device))) 1 = Some d /\
    mappings_ref d = 1 /\ length (endpoint_list d) = 2%nat /\
    exists s' d',
      virtio_iommu_detach (snapshot_restore no_rotation fresh_device
                             (snapshot_save busy_device)) 1 3
      = (VIRTIO_IOMMU_S_OK, s',
         unmap_all (snapshot_restore no_rotation fresh_device
                      (snapshot_save busy_device)) 3 (mappings d)) /\
      tbl_lookup (domains s') 1 = Some d' /\
      d' = mk_domain 1 Leaf 0 [mk_cell 1 true].
Proof.
  destruct (tbl_lookup (domains (snapshot_restore no_rotation fresh_device
                                   (snapshot_save busy_device))) 1)
    as [d|] eqn:E; [|vm_compute in E; discriminate].
  exists d. split; [reflexivity|].
  destruct (restore_takes_no_reference no_rotation fresh_device
              (snapshot_save busy_device) 1 d E) as [Href Hdet].
  split; [exact Href|].
  destruct (Hdet 3 (mk_endpoint 3 (Some 1)) 1) as (s' & d' & H1 & H2 & H3 & _);
    [vm_compute; reflexivity|reflexivity|].
  vm_compute in E. injection E as <-.
  split; [reflexivity|]. exists s', d'. split; [exact H1|]. split; [exact H2|].
  exact H3.
Defined.

(** ** DETACH and ATTACH on live trees *)

(** X24.  DETACH in general.  It returns NOENT for an endpoint id absent from
    the endpoint tree and INVAL for an endpoint without a domain, and
    leaves the state as it is in both cases.  For an endpoint attached to
    a domain whose mapping tree is live it returns OK after sending, to
    each notifier subscribed to the endpoint id, an UNMAP entry (perm NONE,
    translated address 0, the key's low and its extent less one) for every
    mapping of that domain, in key order; afterwards the endpoint has no
    domain, its record is unlinked from the domain's endpoint list, and the
    mapping tree has one reference less: with other references left it
    keeps its mappings, and when this was the last reference it has been
    destroyed.  Nothing else has changed.  The domain id of the request is
    not consulted. *)
Theorem detach_live_tree (s : VirtIOIOMMU) (domain_id ep_id : N) :
  (tbl_lookup (endpoints s) ep_id = None ->
   virtio_iommu_detach s domain_id ep_id = (VIRTIO_IOMMU_S_NOENT, s, [])) /\
  (forall ep, tbl_lookup (endpoints s) ep_id = Some ep -> e_domain ep = None ->
   virtio_iommu_detach s domain_id ep_id = (VIRTIO_IOMMU_S_INVAL, s, [])) /\
  (forall ep did d,
      tbl_lookup (endpoints s) ep_id = Some ep -> e_id ep = ep_id ->
      e_domain ep = Some did -> tbl_lookup (domains s) did = Some d ->
      0 < mappings_ref d ->
      exists s',
        virtio_iommu_detach s domain_id ep_id
          = (VIRTIO_IOMMU_S_OK, s',
             unmap_all s ep_id (mappings d)) /\
        tbl_lookup (endpoints s') ep_id = Some (mk_endpoint ep_id None) /\
        (forall e', e' <> ep_id ->
                    tbl_lookup (endpoints s') e' = tbl_lookup (endpoints s) e') /\
        tbl_lookup (domains s') did
          = Some (mk_domain (d_id d)
                            (if mappings_ref d =? 1 then Leaf else mappings d)
                            (mappings_ref d - 1)
                            (qlist_remove (endpoint_list d) ep_id)) /\
        (forall d', d' <> did ->
                    tbl_lookup (domains s') d' = tbl_lookup (domains s) d') /\
        (NoDup (map cell_id (endpoint_list d)) ->
         ~ In (mk_cell ep_id true) (qlist_remove (endpoint_list d) ep_id)) /\
        (forall c, c <> mk_cell ep_id true ->
                   (In c (qlist_remove (endpoint_list d) ep_id)
                    <-> In c (endpoint_list d))) /\
        notifiers_list s' = notifiers_list s /\
        reserved_regions s' = reserved_regions s /\
        acked_features s' = acked_features s).
Proof.
  unfold virtio_iommu_detach. split; [|split].
  - intros ->. reflexivity.
  - intros ep -> ->. reflexivity.
  - intros ep did d Hep Hid Hdom Hd Hlive. rewrite Hep, Hdom.
    unfold virtio_iommu_detach_endpoint_from_domain. rewrite Hdom, Hd, Hid.
    eexists. split; [reflexivity|]. cbn [endpoints domains set_endpoints set_domains].
    split; [apply tbl_lookup_insert_eq|].
    split; [intros e' Hne; now apply tbl_lookup_insert_ne|].
    split.
    { rewrite tbl_lookup_insert_eq. f_equal. unfold g_tree_unref.
      destruct (N.eqb_spec (mappings_ref d) 1) as [E|E].
      - rewrite E. reflexivity.
      - destruct (N.eqb_spec (mappings_ref d - 1) 0); [lia|reflexivity]. }
    split; [intros d' Hne; now apply tbl_lookup_insert_ne|].
    split; [apply qlist_remove_unlinks|].
    split; [apply qlist_remove_others|]. auto.
Qed.

(** X24 at work: on the busy device DETACH(1, 3) leaves domain 1 with its
    page, two references and endpoint 1. *)
Lemma detach_live_tree_witness :
  exists s',
    virtio_iommu_detach busy_device 1 3
      = (VIRTIO_IOMMU_S_OK, s', []) /\
    tbl_lookup (domains s') 1
      = Some (mk_domain 1 (Node Leaf (mk_interval 4096 8191)
                                (mk_mapping 40960 3) Leaf)
                        2 [mk_cell 1 true]).
Proof.
  destruct (proj2 (proj2 (detach_live_tree busy_device 1 3))
              (mk_endpoint 3 (Some 1)) 1
              (mk_domain 1 (Node Leaf (mk_interval 4096 8191)
                                 (mk_mapping 40960 3) Leaf)
                         3 [mk_cell 1 true; mk_cell 3 true]))
    as (s' & H1 & _ & _ & H2 & _).
  - vm_compute. reflexivity.
  - reflexivity.
  - reflexivity.
  - vm_compute. reflexivity.
  - reflexivity.
  - exists s'. split; [exact H1|exact H2].
Defined.

Lemma get_endpoint_links (s : VirtIOIOMMU) (ep_id : N) :
  links_by_lookup s -> refs_counted s ->
  links_by_lookup (fst (virtio_iommu_get_endpoint s ep_id)) /\
  refs_counted (fst (virtio_iommu_get_endpoint s ep_id)).
Proof.
  intros Hl Hr. unfold virtio_iommu_get_endpoint.
  destruct (tbl_lookup (endpoints s) ep_id) as [ep0|] eqn:E; simpl.
  - auto.
  - split; [now apply links_add_endpoint|exact Hr].
Qed.

(** The silent detach on a state whose counts are exact: the notifications
    are the UNMAPs of the old domain's tree, no endpoint but the detached
    one changes, and every domain keeps its mapping tree. *)
Lemma silent_detach_counted (s : VirtIOIOMMU) (e : N) (ep : viommu_endpoint) :
  links_by_lookup s -> refs_counted s ->
  tbl_lookup (endpoints s) e = Some ep ->
  snd (match e_domain ep with
       | Some _ => virtio_iommu_detach_endpoint_from_domain s ep
       | None => (s, [])
       end)
  = match e_domain ep with
    | Some did0 =>
        match tbl_lookup (domains s) did0 with
        | Some d0 => unmap_all s e (mappings d0)
        | None => []
        end
    | None => []
    end /\
  (forall e', e' <> e ->
     tbl_lookup (endpoints (fst (match e_domain ep with
                                 | Some _ => virtio_iommu_detach_endpoint_from_domain s ep
                                 | None => (s, [])
                                 end))) e'
     = tbl_lookup (endpoints s) e') /\
  (forall k,
     option_map mappings
       (tbl_lookup (domains (fst (match e_domain ep with
                                  | Some _ => virtio_iommu_detach_endpoint_from_domain s ep
                                  | None => (s, [])
                                  end))) k)
     = option_map mappings (tbl_lookup (domains s) k)).
Proof.
  intros Hl Hr Hep. pose proof Hl as (_ & _ & _ & H4 & _ & _ & H7).
  pose proof (H4 _ _ Hep) as Hid.
  destruct (e_domain ep) as [did|] eqn:Edom; [|auto].
  destruct (H7 e ep did Hep Edom) as (d & Hd & Hin).
  assert (Hu : g_tree_unref (mappings d) (mappings_ref d)
               = (mappings d, mappings_ref d - 1)).
  { destruct (g_tree_unref_cases (mappings d) (mappings_ref d))
      as [[H _]|[_ ->]]; [|reflexivity].
    rewrite (Hr _ _ Hd) in H. destruct (endpoint_list d); [destruct Hin|].
    simpl length in H. lia. }
  unfold virtio_iommu_detach_endpoint_from_domain. rewrite Edom, Hd, Hu, Hid.
  cbn [fst snd domains endpoints set_endpoints set_domains].
  split; [reflexivity|]. split.
  - intros e' Hne. now apply tbl_lookup_insert_ne.
  - intros k. destruct (N.eq_dec k did) as [->|Hne].
    + rewrite tbl_lookup_insert_eq, Hd. reflexivity.
    + now rewrite tbl_lookup_insert_ne.
Qed.

(** X25.  ATTACH on a state that commands have built.  Let the links of [s]
    be consistent and every mapping tree hold one reference for its domain
    and one for each attached endpoint.  ATTACH(domain, endpoint) returns
    OK.  Its notifications are, for the notifiers subscribed to the
    endpoint id, the UNMAP entries of the mappings of the domain the
    endpoint was attached to, if any (the target itself included),
    followed by the MAP entries, with permission RW, of the mappings of the
    target domain (none if the request creates it).  Afterwards the links
    are consistent and the counts exact again; the endpoint names the
    target domain and heads its endpoint list, and is in the list of no
    other domain; the other endpoints are as before; every domain has kept
    its mapping tree. *)
Theorem attach_on_counted_state (s : VirtIOIOMMU) (domain_id ep_id : N) :
  links_consistent s -> refs_counted s ->
  let old := match tbl_lookup (endpoints s) ep_id with
             | Some ep0 => e_domain ep0
             | None => None
             end in
  let unmaps := match old with
                | Some did0 =>
                    match tbl_lookup (domains s) did0 with
                    | Some d0 => unmap_all s ep_id (mappings d0)
                    | None => []
                    end
                | None => []
                end in
  let target := match tbl_lookup (domains s) domain_id with
                | Some d => mappings d
                | None => Leaf
                end in
  exists s' dom' rest,
    virtio_iommu_attach s domain_id ep_id
      = (VIRTIO_IOMMU_S_OK, s', unmaps ++ map_all s ep_id target) /\
    links_consistent s' /\ refs_counted s' /\
    tbl_lookup (endpoints s') ep_id = Some (mk_endpoint ep_id (Some domain_id)) /\
    (forall e', e' <> ep_id ->
                tbl_lookup (endpoints s') e' = tbl_lookup (endpoints s) e') /\
    tbl_lookup (domains s') domain_id = Some dom' /\
    mappings dom' = target /\
    endpoint_list dom' = mk_cell ep_id true :: rest /\
    (forall k d, tbl_lookup (domains s) k = Some d ->
                 exists d', tbl_lookup (domains s') k = Some d' /\
                            mappings d' = mappings d) /\
    (forall k d', k <> domain_id -> tbl_lookup (domains s') k = Some d' ->
                  ~ In ep_id (map cell_id (endpoint_list d'))).
Proof.
  intros Hc Hr. cbv zeta. pose proof (proj2 (links_by_lookup_iff s) Hc) as Hl.
  pose proof (links_attach s domain_id ep_id Hl) as Hl'.
  pose proof (refs_attach s domain_id ep_id Hl Hr) as Hr'.
  destruct (get_endpoint_links s ep_id Hl Hr) as [Hl1 Hr1].
  destruct (get_endpoint_spec s ep_id) as (s1' & ep' & Hget' & Hepid & Hepdom & Hep1 & Hoth1 & Hdoms1 & Hn1).
  { destruct Hl as (_ & _ & _ & H4 & _). intros ep0 H. exact (H4 _ _ H). }
  destruct (attach_steps s domain_id ep_id)
    as (s1 & ep & s2 & evs & s' & Hg & Hd & Heq & Hdom' & Hdoth & Hep' & Heoth & Hn').
  rewrite Hget' in Hg. injection Hg as <- <-.
  rewrite Hget' in Hl1, Hr1. cbn [fst] in Hl1, Hr1.
  rewrite Heq in Hl', Hr'. cbn [fst snd] in Hl', Hr'.
  destruct (silent_detach_counted s1' ep_id ep' Hl1 Hr1 Hep1) as (Hevs & Heps2 & Htrees).
  rewrite Hd in Hevs, Heps2, Htrees. cbn [fst snd] in Hevs, Heps2, Htrees.
  rewrite Hepid in Heq, Hdom', Hep', Heoth.
  assert (Htarget : mappings (snd (virtio_iommu_get_domain s2 domain_id))
                    = match tbl_lookup (domains s) domain_id with
                      | Some d => mappings d
                      | None => Leaf
                      end).
  { pose proof (Htrees domain_id) as H. rewrite Hdoms1 in H.
    unfold virtio_iommu_get_domain.
    destruct (tbl_lookup (domains s2) domain_id) as [a|];
      destruct (tbl_lookup (domains s) domain_id) as [b|]; simpl in H |- *;
      congruence. }
  eexists. eexists. eexists. split.
  { rewrite Heq. f_equal. f_equal.
    - rewrite Hevs, Hepdom, Hdoms1. unfold unmap_all. rewrite Hn1. reflexivity.
    - now rewrite Htarget. }
  split; [now apply links_by_lookup_iff|]. split; [exact Hr'|].
  split; [exact Hep'|]. split.
  { intros e' Hne. rewrite Heoth, Heps2 by assumption. now apply Hoth1. }
  split; [exact Hdom'|]. split; [exact Htarget|]. split; [reflexivity|]. split.
  - intros k d Hk. destruct (N.eq_dec k domain_id) as [->|Hne].
    + eexists. split; [exact Hdom'|]. cbn [mappings]. rewrite Htarget, Hk. reflexivity.
    + rewrite (Hdoth k Hne). pose proof (Htrees k) as H. rewrite Hdoms1, Hk in H.
      destruct (tbl_lookup (domains s2) k) as [a|]; simpl in H; [|discriminate].
      exists a. split; [reflexivity|congruence].
  - intros k d' Hne Hk Hin. apply in_map_iff in Hin. destruct Hin as (c & Hc1 & Hc2).
    destruct Hl' as (_ & _ & _ & _ & H5 & _).
    destruct (H5 k d' c Hk Hc2) as [_ H]. rewrite Hc1, Hep' in H. congruence.
Qed.

(** X25 at work: endpoint 3 of the busy device moves from domain 1 to
    domain 2.  It has no notifier, so that nothing is announced. *)
Lemma attach_on_counted_state_witness :
  links_consistent busy_device /\ refs_counted busy_device /\
  exists s',
    virtio_iommu_attach busy_device 2 3 = (VIRTIO_IOMMU_S_OK, s', []) /\
    tbl_lookup (endpoints s') 3 = Some (mk_endpoint 3 (Some 2)).
Proof.
  split; [exact busy_device_consistent|]. split; [exact busy_device_counted|].
  destruct (attach_on_counted_state busy_device 2 3 busy_device_consistent
              busy_device_counted) as (s' & dom' & rest & H1 & _ & _ & H2 & _).
  exists s'. split; [exact H1|exact H2].
Defined.
